(** * The disk cache of the Olist dashboard

    A shallow embedding of [olist_dashboard/data/cache_manager.py]: the cache
    key generator, the pickle files of the disk cache with their time to
    live, the sweep of expired files, the statistics and
    [smart_cache_query]; then of [get_query] of
    [olist_dashboard/config/queries.py] with its templates, and of
    [execute_query] and the loader methods of
    [olist_dashboard/data/data_loader.py].

    Text is a Rocq [string], read as the UTF-8 bytes of the Python [str]
    (a [str] with a lone surrogate has no such bytes and is left out).
    What depends on the interpreter that runs the program, the table of
    printable characters and the limit on the digits of an integer, is a
    parameter [python]. Python values are modelled by the inductive
    [PyVal]: a set is given by its elements in the order in which this
    process iterates over them, a value of another type by the texts
    [repr] and [str] give for it in this process.

    Times are integers, in microseconds (the resolution of [datetime]);
    the cache directory is an association list from file names to what is
    stored under them, in the order [os.listdir] reports them.

    The functions of the cache manager change the directory, read the
    clock, write to the log and catch exceptions: they are written in a
    monad of computations over a [world] that return a value or raise.
    What can go wrong with one entry of the directory is that its bytes
    do not unpickle, that its name is taken by a sub-directory, which can
    neither be opened nor removed with [os.remove], or that its ttl is
    outside the range of [timedelta]. A query function may raise an
    [Exception] or an exception that is none, as Streamlit's control
    exceptions, [KeyboardInterrupt] and [SystemExit] are; an interrupt
    that arrives while the cache manager itself runs is left out.

    The cache keys are file names without path separators, as
    [_generate_cache_key] makes them: [os.path.join] is the identity on
    them. One call of a method of [CacheManager] reads one value of the
    clock; the time a query takes is an outcome of the query function. The
    in-memory tier is Streamlit's [st.cache_data], which is not embedded;
    the rounded floats of [get_cache_stats] are given by the integers they
    are computed from. *)

From Stdlib Require Import ZArith List String Ascii Bool Lia Permutation.
From Stdlib Require Import DecimalString OrdersEx RelationClasses.
Import ListNotations.
Open Scope string_scope.
Open Scope Z_scope.

(** ** Text helpers *)

Definition double_quote : ascii := ascii_of_nat 34.
Definition single_quote : ascii := ascii_of_nat 39.
Definition backslash : ascii := ascii_of_nat 92.

Definition chr (c : ascii) : string := String c EmptyString.

Definition byte (c : ascii) : Z := Z.of_N (N_of_ascii c).

Fixpoint join (sep : string) (l : list string) : string :=
  match l with
  | [] => EmptyString
  | [x] => x
  | x :: l' => x ++ sep ++ join sep l'
  end.

Fixpoint contains (c : ascii) (s : string) : bool :=
  match s with
  | EmptyString => false
  | String d s' => Ascii.eqb c d || contains c s'
  end.

(** [s.endswith(suffix)] *)
Definition endswith (s suffix : string) : bool :=
  let n := String.length s in
  let m := String.length suffix in
  Nat.leb m n && String.eqb (substring (n - m) m s) suffix.

Definition hex_digit (n : Z) : ascii :=
  ascii_of_N (Z.to_N (if n <? 10 then 48 + n else 87 + n)).

(** Two lowercase hexadecimal digits of a byte. *)
Definition hex_byte (b : Z) : string :=
  String (hex_digit (b / 16)) (String (hex_digit (b mod 16)) EmptyString).

(** The decimal digits of an integer, with its sign. *)
Definition decimal (z : Z) : string := NilZero.string_of_int (Z.to_int z).

(** ** MD5 (RFC 1321), as [hashlib.md5(data).hexdigest()] *)

Module MD5.

Definition mask32 : Z := 0xffffffff.
Definition add32 (x y : Z) : Z := (x + y) mod 2 ^ 32.
Definition not32 (x : Z) : Z := Z.lxor x mask32.
Definition rotl32 (x s : Z) : Z :=
  Z.lor (Z.shiftl x s mod 2 ^ 32) (Z.shiftr x (32 - s)).

Definition K : list Z :=
  [ 0xd76aa478; 0xe8c7b756; 0x242070db; 0xc1bdceee;
    0xf57c0faf; 0x4787c62a; 0xa8304613; 0xfd469501;
    0x698098d8; 0x8b44f7af; 0xffff5bb1; 0x895cd7be;
    0x6b901122; 0xfd987193; 0xa679438e; 0x49b40821;
    0xf61e2562; 0xc040b340; 0x265e5a51; 0xe9b6c7aa;
    0xd62f105d; 0x02441453; 0xd8a1e681; 0xe7d3fbc8;
    0x21e1cde6; 0xc33707d6; 0xf4d50d87; 0x455a14ed;
    0xa9e3e905; 0xfcefa3f8; 0x676f02d9; 0x8d2a4c8a;
    0xfffa3942; 0x8771f681; 0x6d9d6122; 0xfde5380c;
    0xa4beea44; 0x4bdecfa9; 0xf6bb4b60; 0xbebfbc70;
    0x289b7ec6; 0xeaa127fa; 0xd4ef3085; 0x04881d05;
    0xd9d4d039; 0xe6db99e5; 0x1fa27cf8; 0xc4ac5665;
    0xf4292244; 0x432aff97; 0xab9423a7; 0xfc93a039;
    0x655b59c3; 0x8f0ccc92; 0xffeff47d; 0x85845dd1;
    0x6fa87e4f; 0xfe2ce6e0; 0xa3014314; 0x4e0811a1;
    0xf7537e82; 0xbd3af235; 0x2ad7d2bb; 0xeb86d391 ].

Definition shifts : list Z :=
  [ 7; 12; 17; 22; 7; 12; 17; 22; 7; 12; 17; 22; 7; 12; 17; 22;
    5; 9; 14; 20; 5; 9; 14; 20; 5; 9; 14; 20; 5; 9; 14; 20;
    4; 11; 16; 23; 4; 11; 16; 23; 4; 11; 16; 23; 4; 11; 16; 23;
    6; 10; 15; 21; 6; 10; 15; 21; 6; 10; 15; 21; 6; 10; 15; 21 ].

(** The message with its padding: a 1 bit, zeros up to 56 modulo 64, and
    the length in bits as 8 little-endian bytes. *)
Definition le_bytes (n : nat) (x : Z) : list Z :=
  map (fun i => Z.shiftr x (8 * Z.of_nat i) mod 256) (seq 0 n).

Definition pad (msg : list Z) : list Z :=
  let len := Z.of_nat (List.length msg) in
  let zeros := Z.to_nat ((55 - len) mod 64) in
  msg ++ [0x80] ++ repeat 0 zeros ++ le_bytes 8 ((8 * len) mod 2 ^ 64).

Definition le_word (bs : list Z) : Z :=
  fold_right (fun b acc => b + 256 * acc) 0 bs.

Fixpoint words (n : nat) (bs : list Z) : list Z :=
  match n with
  | O => []
  | S n' => le_word (firstn 4 bs) :: words n' (skipn 4 bs)
  end.

Definition state : Type := Z * Z * Z * Z.

Definition step (M : list Z) (st : state) (i : nat) : state :=
  let '(A, B, C, D) := st in
  let zi := Z.of_nat i in
  let '(F, g) :=
    if zi <? 16 then (Z.lor (Z.land B C) (Z.land (not32 B) D), zi)
    else if zi <? 32 then
      (Z.lor (Z.land D B) (Z.land (not32 D) C), (5 * zi + 1) mod 16)
    else if zi <? 48 then (Z.lxor B (Z.lxor C D), (3 * zi + 5) mod 16)
    else (Z.lxor C (Z.lor B (not32 D)), (7 * zi) mod 16) in
  let F' := add32 (add32 (add32 F A) (nth i K 0)) (nth (Z.to_nat g) M 0) in
  (D, add32 B (rotl32 F' (nth i shifts 0)), B, C).

Definition compress (st : state) (chunk : list Z) : state :=
  let M := words 16 chunk in
  let '(a0, b0, c0, d0) := st in
  let '(A, B, C, D) := fold_left (step M) (seq 0 64) st in
  (add32 a0 A, add32 b0 B, add32 c0 C, add32 d0 D).

Fixpoint chunks (n : nat) (bs : list Z) (st : state) : state :=
  match n with
  | O => st
  | S n' => chunks n' (skipn 64 bs) (compress st (firstn 64 bs))
  end.

Definition init : state := (0x67452301, 0xefcdab89, 0x98badcfe, 0x10325476).

Definition digest (msg : list Z) : list Z :=
  let padded := pad msg in
  let '(a, b, c, d) := chunks (List.length padded / 64) padded init in
  le_bytes 4 a ++ le_bytes 4 b ++ le_bytes 4 c ++ le_bytes 4 d.

Definition bytes_of_string (s : string) : list Z :=
  map (fun c => Z.of_N (N_of_ascii c)) (list_ascii_of_string s).

Definition hexdigest (s : string) : string :=
  String.concat EmptyString (map hex_byte (digest (bytes_of_string s))).

End MD5.

(** ** What a call returns or raises *)

(** The exceptions of the pure part of the program, which are raised to
    the caller: of [str] and [repr], of [str.format] and of the call of
    [get_query]. *)
Inductive py_error : Type :=
| ValueError (msg : string)
| KeyError (name : string)
| TypeError (msg : string).

(** A call returns, raises, or leaves the part of [str.format] that is
    embedded here. *)
Inductive outcome (A : Type) : Type :=
| Returns (a : A)
| Throws (e : py_error)
| NotModelled.
Arguments Returns {A} a.
Arguments Throws {A} e.
Arguments NotModelled {A}.

Definition and_then {A B : Type} (o : outcome A) (k : A -> outcome B)
  : outcome B :=
  match o with
  | Returns a => k a
  | Throws e => Throws e
  | NotModelled => NotModelled
  end.

(** The first of the [l] that does not return decides. *)
Fixpoint all_of {A : Type} (l : list (outcome A)) : outcome (list A) :=
  match l with
  | [] => Returns []
  | o :: l' =>
      and_then o (fun a => and_then (all_of l') (fun rest => Returns (a :: rest)))
  end.

(** ** The interpreter *)

(** [isprintable cp]: whether [str.isprintable] holds of the code point
    [cp], asked from 128 on (it is a table of the Unicode database the
    interpreter was built with). [int_max_str_digits]:
    [sys.get_int_max_str_digits()], 4300 unless it was changed, 0 where
    there is no limit; it is 0 or at least 640. *)
Record python : Type := {
  isprintable : Z -> bool;
  int_max_str_digits : Z
}.

(** [str(n)] and [repr(n)] of a Python [int]: past the limit on the digits
    it raises. *)
Definition str_int (py : python) (z : Z) : outcome string :=
  let limit := int_max_str_digits py in
  let digits := Z.of_nat (String.length (decimal (Z.abs z))) in
  if (0 <? limit) && (limit <? digits)
  then Throws (ValueError
                 ("Exceeds the limit (" ++ decimal limit
                  ++ " digits) for integer string conversion; "
                  ++ "use sys.set_int_max_str_digits() to increase the limit"))
  else Returns (decimal z).

(** ** Python values and their [repr] *)

(** The values a cached operation is called with. *)

Set Warnings "-register-all".
Inductive PyVal : Type :=
| PyNone
| PyBool (b : bool)
| PyInt (z : Z)
| PyStr (s : string)
| PyTuple (l : list PyVal)
| PyList (l : list PyVal)
| PyDict (items : list (PyVal * PyVal))
| PySet (elements : list PyVal)
| PyOther (repr str : string).
Set Warnings "register-all".

(** One ASCII character of [repr(str)] inside the quotes [q]. *)
Definition repr_ascii (q c : ascii) : string :=
  let n := byte c in
  if Ascii.eqb c backslash then String backslash (chr backslash)
  else if Ascii.eqb c q then String backslash (chr q)
  else if n =? 9 then String backslash "t"
  else if n =? 10 then String backslash "n"
  else if n =? 13 then String backslash "r"
  else if (n <? 32) || (n =? 127) then String backslash ("x" ++ hex_byte n)
  else chr c.

(** A character from 128 on, of code point [cp] and UTF-8 bytes [bytes]:
    it stays when it is printable and is escaped otherwise. *)
Definition repr_code_point (py : python) (cp : Z) (bytes : string) : string :=
  if isprintable py cp then bytes
  else if cp <? 256 then String backslash ("x" ++ hex_byte cp)
  else if cp <? 65536 then
    String backslash ("u" ++ hex_byte (cp / 256) ++ hex_byte (cp mod 256))
  else
    String backslash
      ("U" ++ hex_byte (cp / 16777216) ++ hex_byte ((cp / 65536) mod 256)
           ++ hex_byte ((cp / 256) mod 256) ++ hex_byte (cp mod 256)).

(** The payload of a continuation byte. *)
Definition continuation (c : ascii) : Z := byte c mod 64.

(** The characters of a text between the quotes [q]. A byte that starts no
    character of well-formed UTF-8 is passed on. *)
Fixpoint repr_chars (py : python) (q : ascii) (s : string) : string :=
  match s with
  | EmptyString => EmptyString
  | String c1 rest1 =>
      let b := byte c1 in
      if b <? 128 then repr_ascii q c1 ++ repr_chars py q rest1
      else if (192 <=? b) && (b <? 224) then
        match rest1 with
        | String c2 rest2 =>
            repr_code_point py (64 * (b - 192) + continuation c2)
              (String c1 (chr c2))
            ++ repr_chars py q rest2
        | _ => chr c1 ++ repr_chars py q rest1
        end
      else if (224 <=? b) && (b <? 240) then
        match rest1 with
        | String c2 (String c3 rest3) =>
            repr_code_point py
              (4096 * (b - 224) + 64 * continuation c2 + continuation c3)
              (String c1 (String c2 (chr c3)))
            ++ repr_chars py q rest3
        | _ => chr c1 ++ repr_chars py q rest1
        end
      else if (240 <=? b) && (b <? 248) then
        match rest1 with
        | String c2 (String c3 (String c4 rest4)) =>
            repr_code_point py
              (262144 * (b - 240) + 4096 * continuation c2
               + 64 * continuation c3 + continuation c4)
              (String c1 (String c2 (String c3 (chr c4))))
            ++ repr_chars py q rest4
        | _ => chr c1 ++ repr_chars py q rest1
        end
      else chr c1 ++ repr_chars py q rest1
  end.

(** [repr] of a [str]: single quotes, unless the text has a single quote
    and no double quote. *)
Definition repr_str (py : python) (s : string) : string :=
  let q := if contains single_quote s && negb (contains double_quote s)
           then double_quote else single_quote in
  String q (repr_chars py q s ++ chr q).

(** [repr(v)]; the elements are converted from left to right. *)
Fixpoint py_repr (py : python) (v : PyVal) : outcome string :=
  match v with
  | PyNone => Returns "None"
  | PyBool true => Returns "True"
  | PyBool false => Returns "False"
  | PyInt z => str_int py z
  | PyStr s => Returns (repr_str py s)
  | PyTuple l =>
      and_then (all_of (map (py_repr py) l)) (fun texts =>
        match texts with
        | [x] => Returns ("(" ++ x ++ ",)")
        | _ => Returns ("(" ++ join ", " texts ++ ")")
        end)
  | PyList l =>
      and_then (all_of (map (py_repr py) l)) (fun texts =>
        Returns ("[" ++ join ", " texts ++ "]"))
  | PyDict items =>
      and_then
        (all_of (map (fun item =>
                        match item with
                        | (k, x) =>
                            and_then (py_repr py k) (fun k' =>
                            and_then (py_repr py x) (fun x' =>
                            Returns (k' ++ ": " ++ x')))
                        end) items))
        (fun texts => Returns ("{" ++ join ", " texts ++ "}"))
  | PySet elements =>
      match elements with
      | [] => Returns "set()"
      | _ =>
          and_then (all_of (map (py_repr py) elements)) (fun texts =>
            Returns ("{" ++ join ", " texts ++ "}"))
      end
  | PyOther repr _ => Returns repr
  end.

(** [str(v)], which is [format(v, '')]. *)
Definition py_str (py : python) (v : PyVal) : outcome string :=
  match v with
  | PyStr s => Returns s
  | PyOther _ str => Returns str
  | _ => py_repr py v
  end.

(** ** The cache key *)

(** Keyword arguments: a Python [dict], names in insertion order. The names
    of a [dict] are distinct. *)
Definition kwargs : Type := list (string * PyVal).

(** The order of [sorted] on the [(name, value)] pairs of a [dict]: tuples
    compare by their first differing component, and the names differ; the
    order of two texts is that of their code points, which is the order of
    their UTF-8 bytes. *)
Definition item_le (x y : string * PyVal) : bool :=
  match String_as_OT.compare (fst x) (fst y) with
  | Gt => false
  | _ => true
  end.

Fixpoint insert_item (x : string * PyVal) (l : list (string * PyVal))
  : list (string * PyVal) :=
  match l with
  | [] => [x]
  | y :: l' => if item_le x y then x :: l else y :: insert_item x l'
  end.

(** [sorted(kwargs.items())] *)
Fixpoint sorted_items (kw : kwargs) : list (string * PyVal) :=
  match kw with
  | [] => []
  | x :: kw' => insert_item x (sorted_items kw')
  end.

Definition item_tuple (x : string * PyVal) : PyVal :=
  PyTuple [PyStr (fst x); snd x].

(** [str(args) + str(sorted(kwargs.items()))] *)
Definition key_string (py : python) (args : list PyVal) (kw : kwargs)
  : outcome string :=
  and_then (py_repr py (PyTuple args)) (fun positional =>
  and_then (py_repr py (PyList (map item_tuple (sorted_items kw))))
    (fun keywords => Returns (positional ++ keywords))).

(** [CacheManager._generate_cache_key]: the positional arguments arrive as
    the tuple [args], the keyword arguments as the dict [kw]. *)
Definition _generate_cache_key (py : python) (args : list PyVal)
    (kw : kwargs) : outcome string :=
  and_then (key_string py args kw) (fun key_string =>
    Returns (MD5.hexdigest key_string)).

(** ** Tabular results *)

(** A [polars.DataFrame]: named columns and rows; [is_empty] is
    [height == 0]. *)
Record DataFrame : Type := {
  df_columns : list string;
  df_rows : list (list PyVal)
}.

Definition is_empty (df : DataFrame) : bool :=
  match df_rows df with
  | [] => true
  | _ :: _ => false
  end.

(** ** The cache directory, the clock and the log *)

(** [CACHE_CONFIG["ttl"]] of [config/settings.py], in seconds. *)
Definition CACHE_CONFIG_ttl : Z := 3600.

(** The dict a cache file holds, as the code reads it: ['data'] by
    subscript, ['timestamp'] by [get] ([None] when absent), ['ttl'] by [get]
    with a default. [cd_data = None] is the Python [None]. Timestamps are
    microseconds since the epoch, ttls are seconds. *)
Record cache_data : Type := {
  cd_data : option DataFrame;
  cd_timestamp : option Z;
  cd_ttl : option Z
}.

(** The bytes of a regular file: [Corrupt] stands for any bytes on which
    [pickle.load] raises (an empty or truncated file, foreign bytes); a
    file that unpickles holds a dict with the entry ['data'], as every file
    that [save_to_disk_cache] writes does. *)
Inductive content : Type :=
| Corrupt
| Pickled (cd : cache_data).

(** What a name of the cache directory denotes. A sub-directory can be
    neither opened as a file nor removed with [os.remove]. Regular files of
    the cache directory can be created, overwritten and removed: the
    directory is the application's own ([ensure_cache_directory]). *)
Inductive node : Type :=
| Regular (c : content)
| Directory.

(** The exceptions met. [UnpicklingError] stands for what [pickle.load]
    raises on bytes that are not a complete pickle
    ([pickle.UnpicklingError], [EOFError]); [OverflowError] is what
    [timedelta(seconds=n)] raises when [n] is out of its range;
    [QueryError] stands for an [Exception] of a query function, and
    [Interruption] for an exception of a query function that is no
    subclass of [Exception]. *)
Inductive exn : Type :=
| FileNotFoundError (path : string)
| IsADirectoryError (path : string)
| UnpicklingError (path : string)
| OverflowError (seconds : Z)
| QueryError (msg : string)
| Interruption (name : string).

(** [isinstance(e, Exception)] *)
Definition is_Exception (e : exn) : bool :=
  match e with
  | Interruption _ => false
  | _ => true
  end.

(** A record of the module's [logger]: the level, the text and, for an
    error, the exception whose [str] ends the text. *)
Inductive log_record : Type :=
| INFO (msg : string)
| ERROR (msg : string) (e : exn).

(** [files]: the entries of [.streamlit_cache], by name, in listing order;
    every path the cache manager builds is [os.path.join(cache_dir, name)]
    and is represented by [name]. [clock]: what [datetime.now()] reads.
    [calls]: how many times the query function has been invoked. *)
Record world : Type := {
  files : list (string * node);
  clock : Z;
  log : list log_record;
  calls : nat
}.

Definition set_files (fs : list (string * node)) (w : world) : world :=
  {| files := fs; clock := clock w; log := log w; calls := calls w |}.

Definition set_clock (t : Z) (w : world) : world :=
  {| files := files w; clock := t; log := log w; calls := calls w |}.

Definition add_log (r : log_record) (w : world) : world :=
  {| files := files w; clock := clock w; log := log w ++ [r];
     calls := calls w |}.

Fixpoint lookup (name : string) (fs : list (string * node)) : option node :=
  match fs with
  | [] => None
  | (n, nd) :: fs' => if String.eqb name n then Some nd else lookup name fs'
  end.

Fixpoint remove_entry (name : string) (fs : list (string * node))
  : list (string * node) :=
  match fs with
  | [] => []
  | (n, nd) :: fs' =>
      if String.eqb name n then remove_entry name fs'
      else (n, nd) :: remove_entry name fs'
  end.

(** Writing under a name replaces the entry in place; a new name joins the
    listing at its end. *)
Fixpoint write_entry (name : string) (nd : node) (fs : list (string * node))
  : list (string * node) :=
  match fs with
  | [] => [(name, nd)]
  | (n, nd') :: fs' =>
      if String.eqb name n then (n, nd) :: fs'
      else (n, nd') :: write_entry name nd fs'
  end.

(** ** Computations that change the world and may raise *)

Inductive result (A : Type) : Type :=
| Ok (a : A)
| Raise (e : exn).
Arguments Ok {A} a.
Arguments Raise {A} e.

Definition M (A : Type) : Type := world -> result A * world.

Definition ret {A : Type} (a : A) : M A := fun w => (Ok a, w).

Definition raise {A : Type} (e : exn) : M A := fun w => (Raise e, w).

Definition bind {A B : Type} (m : M A) (k : A -> M B) : M B :=
  fun w =>
    match m w with
    | (Ok a, w') => k a w'
    | (Raise e, w') => (Raise e, w')
    end.

(** [try: m except Exception as e: handler(e)]; what [m] did to the world
    before it raised stays done, and an exception that is no [Exception]
    passes through. *)
Definition try_except {A : Type} (m : M A) (handler : exn -> M A) : M A :=
  fun w =>
    match m w with
    | (Ok a, w') => (Ok a, w')
    | (Raise e, w') =>
        if is_Exception e then handler e w' else (Raise e, w')
    end.

Declare Scope monad_scope.
Delimit Scope monad_scope with monad.
Notation "x <- m ;; k" := (bind m (fun x => k))
  (at level 61, m at next level, right associativity) : monad_scope.
Notation "m ;; k" := (bind m (fun _ => k))
  (at level 61, right associativity) : monad_scope.
Open Scope monad_scope.

(** [for x in l: acc = body(x, acc)] *)
Fixpoint for_each {A S : Type} (l : list A) (body : A -> S -> M S) (acc : S)
  : M S :=
  match l with
  | [] => ret acc
  | x :: l' => acc' <- body x acc ;; for_each l' body acc'
  end.

(** *** The operating system, [pickle], [datetime] and [logging] *)

Definition os_path_exists (path : string) : M bool :=
  fun w =>
    match lookup path (files w) with
    | Some _ => (Ok true, w)
    | None => (Ok false, w)
    end.

Definition os_listdir : M (list string) :=
  fun w => (Ok (map fst (files w)), w).

(** [with open(path, 'rb') as f: pickle.load(f)] *)
Definition pickle_load (path : string) : M cache_data :=
  fun w =>
    match lookup path (files w) with
    | None => (Raise (FileNotFoundError path), w)
    | Some Directory => (Raise (IsADirectoryError path), w)
    | Some (Regular Corrupt) => (Raise (UnpicklingError path), w)
    | Some (Regular (Pickled cd)) => (Ok cd, w)
    end.

(** [open(path, 'wb')]: the file is created or cut to length zero. *)
Definition open_wb (path : string) : M unit :=
  fun w =>
    match lookup path (files w) with
    | Some Directory => (Raise (IsADirectoryError path), w)
    | _ => (Ok tt, set_files (write_entry path (Regular Corrupt) (files w)) w)
    end.

(** [pickle.dump(obj, f)] into the file just opened, and its close. *)
Definition pickle_dump (path : string) (cd : cache_data) : M unit :=
  fun w =>
    (Ok tt, set_files (write_entry path (Regular (Pickled cd)) (files w)) w).

Definition os_remove (path : string) : M unit :=
  fun w =>
    match lookup path (files w) with
    | None => (Raise (FileNotFoundError path), w)
    | Some Directory => (Raise (IsADirectoryError path), w)
    | Some (Regular _) => (Ok tt, set_files (remove_entry path (files w)) w)
    end.

Definition datetime_now : M Z := fun w => (Ok (clock w), w).

(** The seconds [timedelta] takes: it normalises to days and seconds of
    the day and accepts up to 999999999 days on either side. *)
Definition timedelta_in_range (seconds : Z) : bool :=
  Z.abs (seconds / 86400) <=? 999999999.

(** [timedelta(seconds=n)], in microseconds. *)
Definition timedelta_seconds (n : Z) : M Z :=
  if timedelta_in_range n then ret (n * 1000000)
  else raise (OverflowError n).

Definition logger_info (msg : string) : M unit :=
  fun w => (Ok tt, add_log (INFO msg) w).

Definition logger_error (msg : string) (e : exn) : M unit :=
  fun w => (Ok tt, add_log (ERROR msg e) w).

(** ** CacheManager *)

(** [os.path.join(self.cache_dir, f"{cache_key}.pkl")], as the name in the
    cache directory, for a key that is a file name without a path
    separator. *)
Definition _get_cache_file_path (cache_key : string) : string :=
  cache_key ++ ".pkl".

(** [cache_data.get('ttl', CACHE_CONFIG["ttl"])] *)
Definition ttl_of (cd : cache_data) : Z :=
  match cd_ttl cd with
  | Some t => t
  | None => CACHE_CONFIG_ttl
  end.

(** [timestamp and datetime.now() - timestamp > timedelta(seconds=ttl_seconds)]:
    without a timestamp neither the clock is read nor the [timedelta]
    built. *)
Definition expired (cache_data : cache_data) : M bool :=
  match cd_timestamp cache_data with
  | None => ret false
  | Some timestamp =>
      now <- datetime_now ;;
      ttl <- timedelta_seconds (ttl_of cache_data) ;;
      ret (now - timestamp >? ttl)
  end.

(** [ttl_seconds or CACHE_CONFIG["ttl"]] *)
Definition ttl_or_default (ttl_seconds : option Z) : Z :=
  match ttl_seconds with
  | None => CACHE_CONFIG_ttl
  | Some t => if t =? 0 then CACHE_CONFIG_ttl else t
  end.

Definition save_to_disk_cache (key : string) (data : option DataFrame)
    (ttl_seconds : option Z) : M bool :=
  try_except
    (let cache_file := _get_cache_file_path key in
     now <- datetime_now ;;
     let cache_data :=
       {| cd_data := data;
          cd_timestamp := Some now;
          cd_ttl := Some (ttl_or_default ttl_seconds) |} in
     open_wb cache_file ;;
     pickle_dump cache_file cache_data ;;
     logger_info ("Data cached to disk with key: " ++ key) ;;
     ret true)
    (fun e =>
       logger_error "Failed to save to disk cache: " e ;;
       ret false).

Definition load_from_disk_cache (key : string) : M (option DataFrame) :=
  try_except
    (let cache_file := _get_cache_file_path key in
     present <- os_path_exists cache_file ;;
     if negb present then ret None
     else
       cache_data <- pickle_load cache_file ;;
       is_expired <- expired cache_data ;;
       if is_expired
       then os_remove cache_file ;; ret None
       else
         logger_info ("Data loaded from disk cache with key: " ++ key) ;;
         ret (cd_data cache_data))
    (fun e =>
       logger_error "Failed to load from disk cache: " e ;;
       ret None).

(** One turn of the loop of [clear_expired_cache]. *)
Definition clear_expired_entry (cache_file : string) (cleared_count : nat)
  : M nat :=
  let file_path := cache_file in
  try_except
    (cache_data <- pickle_load file_path ;;
     is_expired <- expired cache_data ;;
     if is_expired
     then os_remove file_path ;; ret (S cleared_count)
     else ret cleared_count)
    (fun _ => os_remove file_path ;; ret (S cleared_count)).

(** The listing and the loop of [clear_expired_cache]; the value is
    [cleared_count] at the end of the loop. *)
Definition clear_expired_pass : M nat :=
  names <- os_listdir ;;
  let cache_files := filter (fun f => endswith f ".pkl") names in
  for_each cache_files clear_expired_entry 0%nat.

(** [clear_expired_cache] has no [return]: its value is [None]. The count
    is at most the number of files listed, far from the limit on the
    digits of an integer, which is left out here. *)
Definition clear_expired_cache : M PyVal :=
  try_except
    (cleared_count <- clear_expired_pass ;;
     (if (0 <? cleared_count)%nat
      then logger_info ("Cleared " ++ decimal (Z.of_nat cleared_count)
                          ++ " expired cache files")
      else ret tt) ;;
     ret PyNone)
    (fun e =>
       logger_error "Failed to clear expired cache: " e ;;
       ret PyNone).

(** ** smart_cache_query *)

(** A query function: given its keyword arguments and the number of
    invocations made before this one, the time it takes and what it returns
    or raises. It does not touch the cache directory. *)
Definition query_function : Type :=
  kwargs -> nat -> Z * result (option DataFrame).

(** The call of [query_func] on the keyword arguments, counted. *)
Definition call (query_func : query_function) (kw : kwargs)
  : M (option DataFrame) :=
  fun w =>
    let '(elapsed, r) := query_func kw (calls w) in
    (r, {| files := files w; clock := clock w + elapsed; log := log w;
           calls := S (calls w) |}).

(** [kw] is the dict of the keyword arguments the function receives. *)
Definition smart_cache_query (query_func : query_function)
    (cache_key : string) (ttl : option Z) (kw : kwargs)
  : M (option DataFrame) :=
  cached_data <- load_from_disk_cache cache_key ;;
  match cached_data with
  | Some df => ret (Some df)
  | None =>
      try_except
        (result <- call query_func kw ;;
         (match result with
          | Some df =>
              if negb (is_empty df)
              then save_to_disk_cache cache_key result ttl ;; ret tt
              else ret tt
          | None => ret tt
          end) ;;
         ret result)
        (fun e =>
           logger_error "Query execution failed: " e ;;
           ret None)
  end.


(** ** Vocabulary of the properties *)

(** What the cache directory holds under a key. *)
Definition stored_at (key : string) (w : world) : option node :=
  lookup (_get_cache_file_path key) (files w).

(** The log records of the module. *)
Definition load_info (key : string) : log_record :=
  INFO ("Data loaded from disk cache with key: " ++ key).

Definition load_error (e : exn) : log_record :=
  ERROR "Failed to load from disk cache: " e.

Definition save_info (key : string) : log_record :=
  INFO ("Data cached to disk with key: " ++ key).

Definition save_error (e : exn) : log_record :=
  ERROR "Failed to save to disk cache: " e.

Definition query_error (e : exn) : log_record :=
  ERROR "Query execution failed: " e.

Definition cleared_info (cleared_count : nat) : log_record :=
  INFO ("Cleared " ++ decimal (Z.of_nat cleared_count)
          ++ " expired cache files").

Definition sweep_error (e : exn) : log_record :=
  ERROR "Failed to clear expired cache: " e.

(** The entry [save_to_disk_cache] builds at time [now]. *)
Definition fresh_entry (now : Z) (data : option DataFrame)
    (ttl_seconds : option Z) : cache_data :=
  {| cd_data := data;
     cd_timestamp := Some now;
     cd_ttl := Some (ttl_or_default ttl_seconds) |}.

(** The world a put leaves behind when the process stops after
    [open(cache_file, 'wb')] and before [pickle.dump] has written the whole
    entry. *)
Definition save_interrupted (key : string) (w : world) : world :=
  snd (open_wb (_get_cache_file_path key) w).

(** The world after the query function has run for [elapsed]. *)
Definition after_call (elapsed : Z) (w : world) : world :=
  {| files := files w; clock := clock w + elapsed; log := log w;
     calls := S (calls w) |}.


(** The entry has a timestamp and a ttl that [timedelta] refuses: the
    test of its age raises [OverflowError]. *)
Definition ttl_overflows (cd : cache_data) : bool :=
  match cd_timestamp cd with
  | None => false
  | Some _ => negb (timedelta_in_range (ttl_of cd))
  end.

(** The test of the age of the entry is made at [now] and holds: there is
    a timestamp, [timedelta] takes the ttl, and more than ttl seconds have
    passed since the timestamp. *)
Definition expired_at (now : Z) (cd : cache_data) : bool :=
  match cd_timestamp cd with
  | None => false
  | Some timestamp =>
      timedelta_in_range (ttl_of cd)
      && (now - timestamp >? ttl_of cd * 1000000)
  end.

(** A file [pickle_load] raises on. *)
Definition unreadable (nd : node) : bool :=
  match nd with
  | Regular (Pickled _) => false
  | Regular Corrupt => true
  | Directory => true
  end.

(** A readable entry whose time to live has elapsed at [now]. *)
Definition expired_node (now : Z) (nd : node) : bool :=
  match nd with
  | Regular (Pickled cd) => expired_at now cd
  | _ => false
  end.

(** The regular files a sweep at [now] removes: corrupt, expired, or
    with a ttl that [timedelta] refuses. *)
Definition doomed (now : Z) (fs : list (string * node)) (name : string)
  : bool :=
  match lookup name fs with
  | Some (Regular Corrupt) => true
  | Some (Regular (Pickled cd)) => expired_at now cd || ttl_overflows cd
  | _ => false
  end.

Definition swept (now : Z) (fs : list (string * node)) (name : string)
  : bool :=
  endswith name ".pkl" && doomed now fs name.

Definition cleared (now : Z) (fs : list (string * node)) : nat :=
  List.length (filter (swept now fs) (map fst fs)).

(** ** Sample worlds *)

Definition one_row : DataFrame :=
  {| df_columns := ["orders"]; df_rows := [[PyInt 42]] |}.

(** [pl.DataFrame()] *)
Definition no_rows : DataFrame := {| df_columns := []; df_rows := [] |}.

Definition empty_world : world :=
  {| files := []; clock := 0; log := []; calls := 0 |}.

Definition entry (timestamp ttl : Z) : node :=
  Regular (Pickled {| cd_data := Some one_row;
                      cd_timestamp := Some timestamp;
                      cd_ttl := Some ttl |}).

(** Two hours after the epoch: four entries written at time 0 with a ttl of
    one hour, six written after one hour and a half. *)
Definition ten_entries : world :=
  {| files :=
       [ ("e1.pkl", entry 0 3600); ("v1.pkl", entry 5400000000 3600);
         ("v2.pkl", entry 5400000000 3600); ("e2.pkl", entry 0 3600);
         ("v3.pkl", entry 5400000000 3600); ("e3.pkl", entry 0 3600);
         ("v4.pkl", entry 5400000000 3600); ("v5.pkl", entry 5400000000 3600);
         ("e4.pkl", entry 0 3600); ("v6.pkl", entry 5400000000 3600) ];
     clock := 7200000000;
     log := [];
     calls := 0 |}.

Definition six_valid : list (string * node) :=
  [ ("v1.pkl", entry 5400000000 3600); ("v2.pkl", entry 5400000000 3600);
    ("v3.pkl", entry 5400000000 3600); ("v4.pkl", entry 5400000000 3600);
    ("v5.pkl", entry 5400000000 3600); ("v6.pkl", entry 5400000000 3600) ].

(** A valid entry next to a file that does not unpickle. *)
Definition with_corrupt_file : world :=
  {| files := [("v1.pkl", entry 5400000000 3600); ("c1.pkl", Regular Corrupt)];
     clock := 7200000000;
     log := [];
     calls := 0 |}.

(** A sub-directory named like a cache file, listed before an expired
    entry. *)
Definition with_directory : world :=
  {| files := [("a.pkl", Directory); ("b.pkl", entry 0 3600)];
     clock := 7200000000;
     log := [];
     calls := 0 |}.


(** A valid entry under the key ["k"]. *)
Definition key_is_valid : world :=
  {| files := [("k.pkl", entry 0 3600)]; clock := 1000000; log := [];
     calls := 0 |}.

Definition key_is_corrupt : world :=
  {| files := [("k.pkl", Regular Corrupt)]; clock := 0; log := [];
     calls := 0 |}.

(** An entry written one second ago under the key ["k"], with the ttl
    [ttl]. *)
Definition key_with_ttl (ttl : Z) : world :=
  {| files := [("k.pkl", entry 0 ttl)]; clock := 1000000; log := [];
     calls := 0 |}.

(** A valid entry next to one written a second ago with a ttl of 10^14
    seconds, which [timedelta] refuses. *)
Definition with_far_ttl : world :=
  {| files := [("v1.pkl", entry 5400000000 3600);
               ("f1.pkl", entry 7199000000 100000000000000)];
     clock := 7200000000;
     log := [];
     calls := 0 |}.

(** An interpreter whose table knows the printable characters below
    U+0100, with the limit of 4300 digits. *)
Definition sample_python : python :=
  {| isprintable := fun cp => (161 <=? cp) && (cp <? 256) && negb (cp =? 173);
     int_max_str_digits := 4300 |}.

(** The text with the bytes [l]. *)
Definition bytes (l : list Z) : string :=
  string_of_list_ascii (map (fun b => ascii_of_N (Z.to_N b)) l).

(** Query functions: one row, no rows, an exception, and the exception by
    which Streamlit stops a script, which is no [Exception]. *)
Definition returns_one_row : query_function :=
  fun _ _ => (250000, Ok (Some one_row)).

Definition returns_no_rows : query_function :=
  fun _ _ => (250000, Ok (Some no_rows)).

Definition always_raises : query_function :=
  fun _ _ => (250000, Raise (QueryError "connection refused")).

Definition script_stopped : query_function :=
  fun _ _ => (250000, Raise (Interruption "StopException")).


(** ** Vocabulary of the further properties *)

(** A lowercase hexadecimal digit. *)
Definition is_hex_digit (c : ascii) : bool :=
  let n := Z.of_N (N_of_ascii c) in
  ((48 <=? n) && (n <=? 57)) || ((97 <=? n) && (n <=? 102)).

Fixpoint all_chars (p : ascii -> bool) (s : string) : bool :=
  match s with
  | EmptyString => true
  | String c s' => p c && all_chars p s'
  end.

(** The shape of the keys [_generate_cache_key] makes: 32 lowercase
    hexadecimal digits: no path separator, no dot and no upper case, so
    that two such keys that differ name two files of the cache
    directory. *)
Definition cache_key_shape (key : string) : bool :=
  (String.length key =? 32)%nat && all_chars is_hex_digit key.

(** A valid entry and a file that does not unpickle, under the keys of
    the calls without arguments and with [a=1, b=2]. *)
Definition two_keys : world :=
  {| files := [("11e7903cf562f028d788fc601ffc9a04.pkl", entry 5400000000 3600);
               ("db3f45d5285f7dcb9b302a182df6e937.pkl", Regular Corrupt)];
     clock := 7200000000;
     log := [];
     calls := 0 |}.

(** An entry as a foreign writer may leave it: no ['timestamp']. *)
Definition undated_entry : cache_data :=
  {| cd_data := Some one_row; cd_timestamp := None; cd_ttl := Some 1 |}.

Definition with_undated_entry : world :=
  {| files := [("u.pkl", Regular (Pickled undated_entry))];
     clock := 0; log := []; calls := 0 |}.

(** ** The rest of the cache manager *)

(** [initialize_cache]: the manager comes from [get_cache_manager], whose
    constructor only makes sure that the cache directory exists; the value
    returned is that manager. *)
Definition initialize_cache : M unit :=
  clear_expired_cache ;;
  logger_info "Cache system initialized successfully" ;;
  ret tt.

(** [timestamp and datetime.now() - timestamp <= timedelta(seconds=ttl_seconds)],
    the test of [get_cache_stats]. *)
Definition within_ttl (cache_data : cache_data) : M bool :=
  match cd_timestamp cache_data with
  | None => ret false
  | Some timestamp =>
      now <- datetime_now ;;
      ttl <- timedelta_seconds (ttl_of cache_data) ;;
      ret (now - timestamp <=? ttl)
  end.

(** [os.path.getsize(path)]: the sizes of the files are given by name, the
    contents of a file being known here only up to what they unpickle
    to. They are sizes of files, far below what a float can hold. *)
Definition os_path_getsize (size_of : string -> Z) (path : string) : M Z :=
  fun w =>
    match lookup path (files w) with
    | None => (Raise (FileNotFoundError path), w)
    | Some _ => (Ok (size_of path), w)
    end.

(** The integers of the dict [get_cache_stats] returns: ['total_files'],
    ['valid_files'], and the sum of the sizes in bytes, of which
    ['total_size_mb'] is the rounded quotient by [1024 * 1024]; ['hit_rate']
    is the rounded percentage of [valid_files] in [total_files], 0 when
    there is no file. *)
Record cache_stats : Type := {
  total_files : nat;
  valid_files : nat;
  total_size : Z
}.

(** One turn of the loop of [get_cache_stats]; the handler is
    [continue]. *)
Definition cache_stats_entry (cache_file : string) (valid_files : nat)
  : M nat :=
  let file_path := cache_file in
  try_except
    (cache_data <- pickle_load file_path ;;
     is_valid <- within_ttl cache_data ;;
     if is_valid
     then ret (S valid_files)
     else ret valid_files)
    (fun _ => ret valid_files).

(** [get_cache_stats]; [None] is the empty dict of the failure. *)
Definition get_cache_stats (size_of : string -> Z) : M (option cache_stats) :=
  try_except
    (names <- os_listdir ;;
     let cache_files := filter (fun f => endswith f ".pkl") names in
     let total_files := List.length cache_files in
     total_size <- for_each cache_files
                     (fun f acc => size <- os_path_getsize size_of f ;;
                                   ret (acc + size))
                     0 ;;
     valid_files <- for_each cache_files cache_stats_entry 0%nat ;;
     ret (Some {| total_files := total_files;
                  valid_files := valid_files;
                  total_size := total_size |}))
    (fun e =>
       logger_error "Failed to get cache stats: " e ;;
       ret None).

(** *** The caches of Streamlit *)

(** The process beside the cache directory: the entries of [st.cache_data]
    and of [st.cache_resource], by their keys. *)
Record app : Type := {
  disk : world;
  st_cache_data : list string;
  st_cache_resource : list string
}.

Definition AM (A : Type) : Type := app -> result A * app.

Definition on_disk {A : Type} (m : M A) : AM A :=
  fun a =>
    let '(r, w) := m (disk a) in
    (r, {| disk := w; st_cache_data := st_cache_data a;
           st_cache_resource := st_cache_resource a |}).

Definition app_bind {A B : Type} (m : AM A) (k : A -> AM B) : AM B :=
  fun a =>
    match m a with
    | (Ok x, a') => k x a'
    | (Raise e, a') => (Raise e, a')
    end.

Definition app_try_except {A : Type} (m : AM A) (handler : exn -> AM A)
  : AM A :=
  fun a =>
    match m a with
    | (Ok x, a') => (Ok x, a')
    | (Raise e, a') =>
        if is_Exception e then handler e a' else (Raise e, a')
    end.

(** [st.cache_data.clear()] *)
Definition st_cache_data_clear : AM unit :=
  fun a =>
    (Ok tt, {| disk := disk a; st_cache_data := [];
               st_cache_resource := st_cache_resource a |}).

(** [st.cache_resource.clear()] *)
Definition st_cache_resource_clear : AM unit :=
  fun a =>
    (Ok tt, {| disk := disk a; st_cache_data := st_cache_data a;
               st_cache_resource := [] |}).

(** The loop of [clear_all_cache]. *)
Definition remove_cache_files (cache_files : list string) : M unit :=
  for_each cache_files (fun cache_file (_ : unit) => os_remove cache_file) tt.

(** [clear_all_cache] has no [return]: its value is [None]. *)
Definition clear_all_cache : AM PyVal :=
  app_try_except
    (app_bind st_cache_data_clear (fun _ =>
     app_bind st_cache_resource_clear (fun _ =>
     app_bind (on_disk os_listdir) (fun names =>
     let cache_files := filter (fun f => endswith f ".pkl") names in
     app_bind (on_disk (remove_cache_files cache_files)) (fun _ =>
     app_bind (on_disk (logger_info "All cache cleared")) (fun _ =>
     fun a => (Ok PyNone, a)))))))
    (fun e =>
       app_bind (on_disk (logger_error "Failed to clear cache: " e)) (fun _ =>
       fun a => (Ok PyNone, a))).

(** A process with entries in both caches of Streamlit, over a directory. *)
Definition running (w : world) : app :=
  {| disk := w;
     st_cache_data := ["execute_query"; "cache_chart_data"];
     st_cache_resource := ["get_cache_manager"; "get_data_loader"] |}.

(** A directory with a note beside the cache files. *)
Definition with_note : world :=
  {| files := [("v1.pkl", entry 5400000000 3600); ("README.txt", Regular Corrupt);
               ("c1.pkl", Regular Corrupt)];
     clock := 7200000000;
     log := [];
     calls := 0 |}.

(** The sizes of the files of the samples: a kibibyte each. *)
Definition one_kib : string -> Z := fun _ => 1024.

(** The test of [get_cache_stats] is made at [now] and holds: there is a
    timestamp, [timedelta] takes the ttl, and at most ttl seconds have
    passed since the timestamp. *)
Definition valid_at (now : Z) (cd : cache_data) : bool :=
  match cd_timestamp cd with
  | None => false
  | Some timestamp =>
      timedelta_in_range (ttl_of cd)
      && (now - timestamp <=? ttl_of cd * 1000000)
  end.

(** The entries [get_cache_stats] counts as valid at [now]: readable, with
    a timestamp, within a ttl that [timedelta] takes. *)
Definition counted_valid (now : Z) (fs : list (string * node))
    (name : string) : bool :=
  match lookup name fs with
  | Some (Regular (Pickled cd)) => valid_at now cd
  | _ => false
  end.

(** The names [os.listdir] reports that end in [.pkl]. *)
Definition cache_files_of (w : world) : list string :=
  filter (fun f => endswith f ".pkl") (map fst (files w)).

Definition sum_sizes (size_of : string -> Z) (names : list string) : Z :=
  fold_right (fun f acc => size_of f + acc) 0 names.

(** The success record of [initialize_cache] and the records of
    [clear_all_cache]. *)
Definition initialized_info : log_record :=
  INFO "Cache system initialized successfully".

Definition all_cleared_info : log_record := INFO "All cache cleared".

Definition clear_all_error (e : exn) : log_record :=
  ERROR "Failed to clear cache: " e.

(** * The query templates and the data loader *)

(** ** Python dictionaries with string keys *)

(** A [dict] as its items in insertion order. [d.get(name)], [d[name] = v]
    (the value changes in place, a new key goes to the end) and
    [d.update(other)]. *)
Fixpoint dict_get {V : Type} (name : string) (d : list (string * V))
  : option V :=
  match d with
  | [] => None
  | (k, v) :: rest => if String.eqb k name then Some v else dict_get name rest
  end.

Fixpoint dict_set {V : Type} (d : list (string * V)) (name : string) (v : V)
  : list (string * V) :=
  match d with
  | [] => [(name, v)]
  | (k, x) :: rest =>
      if String.eqb k name then (k, v) :: rest
      else (k, x) :: dict_set rest name v
  end.

Definition dict_update {V : Type} (d other : list (string * V))
  : list (string * V) :=
  fold_left (fun acc item => dict_set acc (fst item) (snd item)) other d.

(** ** [str.format] with keyword arguments *)

(** The pieces [str.format] meets, from left to right: a character of
    literal text (a doubled brace stands for one brace), a replacement
    field [{name}], a place where the template is malformed, and a field
    with a conversion, a format specification, an attribute or an index,
    which are not embedded. *)
Inductive segment : Type :=
| Lit (c : ascii)
| Field (name : string)
| Malformed (msg : string)
| Unmodelled.

Inductive parse_mode : Type :=
| InText
| InField (name : string).

Fixpoint parse_template (mode : parse_mode) (s : string) : list segment :=
  match s with
  | EmptyString =>
      match mode with
      | InText => []
      | InField _ => [Malformed "expected '}' before end of string"]
      end
  | String c rest =>
      match mode with
      | InText =>
          if Ascii.eqb c "{" then
            match rest with
            | EmptyString =>
                [Malformed "Single '{' encountered in format string"]
            | String c' rest' =>
                if Ascii.eqb c' "{" then Lit "{" :: parse_template InText rest'
                else parse_template (InField "") rest
            end
          else if Ascii.eqb c "}" then
            match rest with
            | EmptyString =>
                [Malformed "Single '}' encountered in format string"]
            | String c' rest' =>
                if Ascii.eqb c' "}" then Lit "}" :: parse_template InText rest'
                else [Malformed "Single '}' encountered in format string"]
            end
          else Lit c :: parse_template InText rest
      | InField name =>
          if Ascii.eqb c "}" then Field name :: parse_template InText rest
          else if Ascii.eqb c "{" then
            [Malformed "unexpected '{' in field name"]
          else if Ascii.eqb c "!" || Ascii.eqb c ":"
                  || Ascii.eqb c "." || Ascii.eqb c "["
          then [Unmodelled]
          else parse_template (InField (name ++ String c "")) rest
      end
  end.

Definition is_digit (c : ascii) : bool :=
  let n := Z.of_N (N_of_ascii c) in (48 <=? n) && (n <=? 57).

Definition is_ascii (c : ascii) : bool :=
  Z.of_N (N_of_ascii c) <? 128.

(** A field name that is looked up in the keyword arguments: an empty
    name and a number stand for a positional argument, and digits outside
    ASCII are left out. *)
Definition keyword_name (name : string) : bool :=
  negb (String.eqb name "") && all_chars is_ascii name
  && negb (all_chars is_digit name).

(** The fields are looked up and converted one after the other, so the
    first field that is not bound or whose value has no text, or the first
    malformed place, decides the exception. *)
Fixpoint render (py : python) (kw : kwargs) (segs : list segment)
  : outcome string :=
  match segs with
  | [] => Returns ""
  | Lit c :: rest =>
      match render py kw rest with
      | Returns s => Returns (String c s)
      | other => other
      end
  | Field name :: rest =>
      if keyword_name name then
        match dict_get name kw with
        | None => Throws (KeyError name)
        | Some v =>
            and_then (py_str py v) (fun text =>
              match render py kw rest with
              | Returns s => Returns (text ++ s)
              | other => other
              end)
        end
      else NotModelled
  | Malformed msg :: _ => Throws (ValueError msg)
  | Unmodelled :: _ => NotModelled
  end.

(** [template.format( **kw )] *)
Definition format (py : python) (template : string) (kw : kwargs)
  : outcome string :=
  render py kw (parse_template InText template).

(** ** config/settings.py *)

(** [BQ_CONFIG['dataset']] *)
Definition BQ_CONFIG_dataset : string := "project-olist-470307.dbt_olist_stg".

(** [TABLES], for the project id that [get_project_id] found. *)
Definition TABLES (project_id : string) : kwargs :=
  map (fun name =>
         (name, PyStr (project_id ++ "." ++ BQ_CONFIG_dataset ++ "." ++ name)))
      ["fact_order_items"; "dim_customer"; "dim_orders"; "dim_product";
       "dim_seller"; "dim_payment"; "dim_order_reviews"; "dim_date";
       "dim_geolocation"].

(** ** config/queries.py *)

Definition EXECUTIVE_QUERIES : list (string * string) :=
[
  ("key_metrics",
"
        SELECT 
            -- On-time delivery rate
            ROUND(
                AVG(CASE 
                    WHEN o.order_delivered_customer_date <= o.order_estimated_delivery_date 
                    THEN 1.0 ELSE 0.0 
                END) * 100, 1
            ) as on_time_delivery_rate,
            
            -- Average rating
            ROUND(AVG(r.review_score), 2) as avg_rating,
            
            -- Total revenue
            ROUND(SUM(f.price + f.freight_value), 2) as total_revenue,
            
            -- Active customers
            COUNT(DISTINCT f.customer_sk) as active_customers,
            
            -- Order count
            COUNT(DISTINCT f.order_id) as total_orders
            
        FROM {fact_order_items} f
        LEFT JOIN {dim_orders} o ON f.order_sk = o.order_sk
        LEFT JOIN {dim_order_reviews} r ON f.order_sk = r.order_sk
        WHERE o.order_purchase_timestamp >= DATE_SUB(CURRENT_DATE(), INTERVAL 30 DAY)
    ");
  ("daily_trends",
"
        SELECT 
            d.date_value,
            COUNT(DISTINCT f.order_id) as daily_orders,
            ROUND(SUM(f.price + f.freight_value), 2) as daily_revenue,
            ROUND(AVG(r.review_score), 2) as daily_avg_rating,
            ROUND(
                AVG(CASE 
                    WHEN o.order_delivered_customer_date <= o.order_estimated_delivery_date 
                    THEN 1.0 ELSE 0.0 
                END) * 100, 1
            ) as daily_on_time_rate
            
        FROM {fact_order_items} f
        LEFT JOIN {dim_orders} o ON f.order_sk = o.order_sk
        LEFT JOIN {dim_order_reviews} r ON f.order_sk = r.order_sk
        LEFT JOIN {dim_date} d ON f.order_date_sk = d.date_sk
        WHERE d.date_value >= DATE_SUB(CURRENT_DATE(), INTERVAL 90 DAY)
        GROUP BY d.date_value
        ORDER BY d.date_value
    ");
  ("geographic_performance",
"
        SELECT 
            c.customer_state,
            COUNT(DISTINCT f.order_id) as order_count,
            ROUND(AVG(r.review_score), 2) as avg_rating,
            ROUND(
                AVG(CASE 
                    WHEN o.order_delivered_customer_date <= o.order_estimated_delivery_date 
                    THEN 1.0 ELSE 0.0 
                END) * 100, 1
            ) as on_time_rate,
            ROUND(SUM(f.price + f.freight_value), 2) as total_revenue
            
        FROM {fact_order_items} f
        LEFT JOIN {dim_customer} c ON f.customer_sk = c.customer_sk
        LEFT JOIN {dim_orders} o ON f.order_sk = o.order_sk
        LEFT JOIN {dim_order_reviews} r ON f.order_sk = r.order_sk
        WHERE o.order_purchase_timestamp >= DATE_SUB(CURRENT_DATE(), INTERVAL 90 DAY)
        GROUP BY c.customer_state
        ORDER BY order_count DESC
    ")
].

Definition DELIVERY_QUERIES : list (string * string) :=
[
  ("delivery_metrics",
"
        SELECT 
            COUNT(*) as total_orders,
            SUM(CASE 
                WHEN o.order_delivered_customer_date <= o.order_estimated_delivery_date 
                THEN 1 ELSE 0 
            END) as on_time_orders,
            ROUND(
                AVG(CASE 
                    WHEN o.order_delivered_customer_date <= o.order_estimated_delivery_date 
                    THEN 1.0 ELSE 0.0 
                END) * 100, 2
            ) as on_time_percentage,
            ROUND(
                AVG(DATE_DIFF(
                    o.order_delivered_customer_date, 
                    o.order_purchase_timestamp, 
                    DAY
                )), 1
            ) as avg_delivery_days,
            ROUND(
                AVG(DATE_DIFF(
                    o.order_delivered_customer_date, 
                    o.order_estimated_delivery_date, 
                    DAY
                )), 1
            ) as avg_delay_days
            
        FROM {fact_order_items} f
        JOIN {dim_orders} o ON f.order_sk = o.order_sk
        WHERE o.order_delivered_customer_date IS NOT NULL
        AND o.order_purchase_timestamp >= '{start_date}'
        AND o.order_purchase_timestamp <= '{end_date}'
    ");
  ("delivery_by_state",
"
        SELECT 
            c.customer_state,
            s.seller_state,
            COUNT(*) as order_count,
            ROUND(
                AVG(CASE 
                    WHEN o.order_delivered_customer_date <= o.order_estimated_delivery_date 
                    THEN 1.0 ELSE 0.0 
                END) * 100, 1
            ) as on_time_rate,
            ROUND(
                AVG(DATE_DIFF(
                    o.order_delivered_customer_date, 
                    o.order_purchase_timestamp, 
                    DAY
                )), 1
            ) as avg_delivery_days
            
        FROM {fact_order_items} f
        JOIN {dim_orders} o ON f.order_sk = o.order_sk
        JOIN {dim_customer} c ON f.customer_sk = c.customer_sk
        JOIN {dim_seller} s ON f.seller_sk = s.seller_sk
        WHERE o.order_delivered_customer_date IS NOT NULL
        AND o.order_purchase_timestamp >= '{start_date}'
        AND o.order_purchase_timestamp <= '{end_date}'
        GROUP BY c.customer_state, s.seller_state
        HAVING order_count >= 10
        ORDER BY order_count DESC
    ");
  ("delivery_time_distribution",
"
        SELECT 
            CASE 
                WHEN DATE_DIFF(o.order_delivered_customer_date, o.order_purchase_timestamp, DAY) <= 7 
                THEN '1-7 days'
                WHEN DATE_DIFF(o.order_delivered_customer_date, o.order_purchase_timestamp, DAY) <= 14 
                THEN '8-14 days'
                WHEN DATE_DIFF(o.order_delivered_customer_date, o.order_purchase_timestamp, DAY) <= 21 
                THEN '15-21 days'
                WHEN DATE_DIFF(o.order_delivered_customer_date, o.order_purchase_timestamp, DAY) <= 30 
                THEN '22-30 days'
                ELSE '30+ days'
            END as delivery_time_bucket,
            COUNT(*) as order_count,
            ROUND(COUNT(*) * 100.0 / SUM(COUNT(*)) OVER(), 1) as percentage
            
        FROM {fact_order_items} f
        JOIN {dim_orders} o ON f.order_sk = o.order_sk
        WHERE o.order_delivered_customer_date IS NOT NULL
        AND o.order_purchase_timestamp >= '{start_date}'
        AND o.order_purchase_timestamp <= '{end_date}'
        GROUP BY delivery_time_bucket
        ORDER BY 
            CASE delivery_time_bucket
                WHEN '1-7 days' THEN 1
                WHEN '8-14 days' THEN 2
                WHEN '15-21 days' THEN 3
                WHEN '22-30 days' THEN 4
                WHEN '30+ days' THEN 5
            END
    ")
].

Definition SATISFACTION_QUERIES : list (string * string) :=
[
  ("rating_analysis",
"
        SELECT 
            r.review_score,
            COUNT(*) as review_count,
            ROUND(COUNT(*) * 100.0 / SUM(COUNT(*)) OVER(), 1) as percentage,
            ROUND(
                AVG(CASE 
                    WHEN o.order_delivered_customer_date <= o.order_estimated_delivery_date 
                    THEN 1.0 ELSE 0.0 
                END) * 100, 1
            ) as on_time_rate
            
        FROM {fact_order_items} f
        JOIN {dim_order_reviews} r ON f.order_sk = r.order_sk
        JOIN {dim_orders} o ON f.order_sk = o.order_sk
        WHERE r.review_score IS NOT NULL
        AND o.order_purchase_timestamp >= '{start_date}'
        AND o.order_purchase_timestamp <= '{end_date}'
        GROUP BY r.review_score
        ORDER BY r.review_score
    ");
  ("satisfaction_vs_delivery",
"
        SELECT 
            CASE 
                WHEN o.order_delivered_customer_date <= o.order_estimated_delivery_date 
                THEN 'On Time'
                ELSE 'Delayed'
            END as delivery_status,
            ROUND(AVG(r.review_score), 2) as avg_rating,
            COUNT(*) as review_count,
            COUNTIF(r.review_score >= 4) as positive_reviews,
            COUNTIF(r.review_score <= 2) as negative_reviews
            
        FROM {fact_order_items} f
        JOIN {dim_order_reviews} r ON f.order_sk = r.order_sk
        JOIN {dim_orders} o ON f.order_sk = o.order_sk
        WHERE r.review_score IS NOT NULL
        AND o.order_delivered_customer_date IS NOT NULL
        AND o.order_purchase_timestamp >= '{start_date}'
        AND o.order_purchase_timestamp <= '{end_date}'
        GROUP BY delivery_status
    ");
  ("category_satisfaction",
"
        SELECT 
            p.product_category_name_english as category,
            ROUND(AVG(r.review_score), 2) as avg_rating,
            COUNT(*) as review_count,
            ROUND(
                AVG(CASE 
                    WHEN o.order_delivered_customer_date <= o.order_estimated_delivery_date 
                    THEN 1.0 ELSE 0.0 
                END) * 100, 1
            ) as on_time_rate
            
        FROM {fact_order_items} f
        JOIN {dim_order_reviews} r ON f.order_sk = r.order_sk
        JOIN {dim_orders} o ON f.order_sk = o.order_sk
        JOIN {dim_product} p ON f.product_sk = p.product_sk
        WHERE r.review_score IS NOT NULL
        AND p.product_category_name_english IS NOT NULL
        AND o.order_purchase_timestamp >= '{start_date}'
        AND o.order_purchase_timestamp <= '{end_date}'
        GROUP BY p.product_category_name_english
        HAVING review_count >= 50
        ORDER BY avg_rating DESC
    ")
].

Definition PRODUCT_QUERIES : list (string * string) :=
[
  ("weight_impact",
"
        SELECT 
            CASE 
                WHEN p.product_weight_g <= 500 THEN '0-500g'
                WHEN p.product_weight_g <= 1000 THEN '501-1000g'
                WHEN p.product_weight_g <= 2000 THEN '1-2kg'
                WHEN p.product_weight_g <= 5000 THEN '2-5kg'
                ELSE '5kg+'
            END as weight_category,
            COUNT(*) as order_count,
            ROUND(AVG(DATE_DIFF(o.order_delivered_customer_date, o.order_purchase_timestamp, DAY)), 1) as avg_delivery_days,
            ROUND(AVG(r.review_score), 2) as avg_rating,
            ROUND(
                AVG(CASE 
                    WHEN o.order_delivered_customer_date <= o.order_estimated_delivery_date 
                    THEN 1.0 ELSE 0.0 
                END) * 100, 1
            ) as on_time_rate
            
        FROM {fact_order_items} f
        JOIN {dim_product} p ON f.product_sk = p.product_sk
        JOIN {dim_orders} o ON f.order_sk = o.order_sk
        LEFT JOIN {dim_order_reviews} r ON f.order_sk = r.order_sk
        WHERE p.product_weight_g IS NOT NULL
        AND o.order_delivered_customer_date IS NOT NULL
        AND o.order_purchase_timestamp >= '{start_date}'
        AND o.order_purchase_timestamp <= '{end_date}'
        GROUP BY weight_category
        ORDER BY 
            CASE weight_category
                WHEN '0-500g' THEN 1
                WHEN '501-1000g' THEN 2
                WHEN '1-2kg' THEN 3
                WHEN '2-5kg' THEN 4
                WHEN '5kg+' THEN 5
            END
    ");
  ("category_performance",
"
        SELECT 
            p.product_category_name_english as category,
            COUNT(*) as order_count,
            ROUND(SUM(f.price), 2) as total_revenue,
            ROUND(AVG(f.price), 2) as avg_price,
            ROUND(AVG(p.product_weight_g), 1) as avg_weight,
            ROUND(AVG(r.review_score), 2) as avg_rating,
            ROUND(
                AVG(CASE 
                    WHEN o.order_delivered_customer_date <= o.order_estimated_delivery_date 
                    THEN 1.0 ELSE 0.0 
                END) * 100, 1
            ) as on_time_rate
            
        FROM {fact_order_items} f
        JOIN {dim_product} p ON f.product_sk = p.product_sk
        JOIN {dim_orders} o ON f.order_sk = o.order_sk
        LEFT JOIN {dim_order_reviews} r ON f.order_sk = r.order_sk
        WHERE p.product_category_name_english IS NOT NULL
        AND o.order_purchase_timestamp >= '{start_date}'
        AND o.order_purchase_timestamp <= '{end_date}'
        GROUP BY p.product_category_name_english
        HAVING order_count >= 100
        ORDER BY order_count DESC
    ")
].

Definition PAYMENT_QUERIES : list (string * string) :=
[
  ("payment_method_analysis",
"
        SELECT 
            pm.payment_type,
            COUNT(*) as order_count,
            ROUND(SUM(f.price + f.freight_value), 2) as total_value,
            ROUND(AVG(f.price + f.freight_value), 2) as avg_order_value,
            ROUND(AVG(pm.payment_installments), 1) as avg_installments,
            ROUND(AVG(r.review_score), 2) as avg_rating
            
        FROM {fact_order_items} f
        JOIN {dim_payment} pm ON f.payment_sk = pm.payment_sk
        LEFT JOIN {dim_order_reviews} r ON f.order_sk = r.order_sk
        JOIN {dim_orders} o ON f.order_sk = o.order_sk
        WHERE pm.payment_type IS NOT NULL
        AND o.order_purchase_timestamp >= '{start_date}'
        AND o.order_purchase_timestamp <= '{end_date}'
        GROUP BY pm.payment_type
        ORDER BY order_count DESC
    ");
  ("installment_analysis",
"
        SELECT 
            pm.payment_installments,
            COUNT(*) as order_count,
            ROUND(AVG(f.price + f.freight_value), 2) as avg_order_value,
            ROUND(AVG(r.review_score), 2) as avg_rating
            
        FROM {fact_order_items} f
        JOIN {dim_payment} pm ON f.payment_sk = pm.payment_sk
        LEFT JOIN {dim_order_reviews} r ON f.order_sk = r.order_sk
        JOIN {dim_orders} o ON f.order_sk = o.order_sk
        WHERE pm.payment_installments IS NOT NULL
        AND pm.payment_installments <= 24
        AND o.order_purchase_timestamp >= '{start_date}'
        AND o.order_purchase_timestamp <= '{end_date}'
        GROUP BY pm.payment_installments
        ORDER BY pm.payment_installments
    ")
].

Definition query_maps : list (string * list (string * string)) :=
  [("executive", EXECUTIVE_QUERIES);
   ("delivery", DELIVERY_QUERIES);
   ("satisfaction", SATISFACTION_QUERIES);
   ("product", PRODUCT_QUERIES);
   ("payment", PAYMENT_QUERIES)].

(** The call [get_query(category, query_name, **kw)] binds its two
    parameters by position: a keyword argument with the name of one of
    them is refused, the first such in the order of [kw]. *)
Definition signature_error (kw : kwargs) : option py_error :=
  match find (fun item => String.eqb (fst item) "category"
                          || String.eqb (fst item) "query_name") kw with
  | Some item =>
      Some (TypeError ("get_query() got multiple values for argument '"
                       ++ fst item ++ "'"))
  | None => None
  end.

(** [get_query]: the table names are written over the caller's arguments
    before the template is filled in. *)
Definition get_query (py : python) (project_id category query_name : string)
    (kw : kwargs) : outcome string :=
  match signature_error kw with
  | Some e => Throws e
  | None =>
      match dict_get category query_maps with
      | None => Throws (ValueError ("Unknown query category: " ++ category))
      | Some queries =>
          match dict_get query_name queries with
          | None =>
              Throws (ValueError ("Unknown query name: " ++ query_name
                                  ++ " in category: " ++ category))
          | Some query_template =>
              format py query_template (dict_update kw (TABLES project_id))
          end
      end
  end.

(** ** data/data_loader.py *)

(** What the page and the log receive. *)
Inductive page_event : Type :=
| LoggerInfo (msg : string)
| LoggerError (msg : string)
| StError (msg : string).

(** The answer of a library call that the loader wraps in [try]: the
    message of the [Exception] it raised, or its frame. An exception that
    is no [Exception] passes the handler of [execute_query] and ends the
    run; such runs are left out. *)
Inductive answer : Type :=
| Failed (msg : string)
| Answered (df : DataFrame).

(** The loader and the libraries it calls. [client] is [None] when the
    client could not be built. [configure_job] stands for the two lines
    that build the [QueryJobConfig] and set its timeout: [None] when the
    installed library accepts them, the message of its exception
    otherwise. [run_query] stands for
    [client.query(query, job_config).result().to_dataframe()],
    [from_pandas] for [pl.from_pandas]. *)
Record BigQueryDataLoader : Type := {
  project_id : string;
  client : option (string -> answer);
  configure_job : option string;
  from_pandas : DataFrame -> answer
}.

(** [df_pandas.empty]: some axis has length 0. *)
Definition pandas_empty (df : DataFrame) : bool :=
  match df_columns df, df_rows df with
  | _ :: _, _ :: _ => false
  | _, _ => true
  end.

Definition executing : page_event := LoggerInfo "Executing BigQuery...".

(** What the handler of [execute_query] does with the message of the
    exception. *)
Definition failure_events (msg : string) : list page_event :=
  [LoggerError ("Query execution failed: " ++ msg);
   StError ("Database query failed: " ++ msg)].

Definition query_done (df : DataFrame) : option DataFrame * list page_event :=
  (Some df,
   [executing;
    LoggerInfo ("Query executed successfully, returned "
                ++ decimal (Z.of_nat (List.length (df_rows df)))
                ++ " rows")]).

(** One run of the body of [execute_query], which is what a call does
    when Streamlit's [st.cache_data], put around it, has no entry for
    the query; that cache is Streamlit's and is not embedded. *)
Definition execute_query (self : BigQueryDataLoader) (query : string)
    (use_polars : bool) : option DataFrame * list page_event :=
  match client self with
  | None => (None, [LoggerError "BigQuery client not initialized"])
  | Some run_query =>
      match configure_job self with
      | Some msg => (None, failure_events msg)
      | None =>
          match run_query query with
          | Failed msg => (None, executing :: failure_events msg)
          | Answered df_pandas =>
              if use_polars then
                if pandas_empty df_pandas then (Some no_rows, [executing])
                else
                  match from_pandas self df_pandas with
                  | Failed msg => (None, executing :: failure_events msg)
                  | Answered df => query_done df
                  end
              else query_done df_pandas
          end
      end
  end.


Definition date_range (start_date end_date : string) : kwargs :=
  [("start_date", PyStr start_date); ("end_date", PyStr end_date)].
















(** ** Samples for the query templates and the loader *)

(** A loader without a client, one whose library refuses the job
    configuration, one whose queries fail, and one whose queries return a
    frame with columns and no rows. *)
Definition pass_frame (df : DataFrame) : answer := Answered df.

Definition no_client : BigQueryDataLoader :=
  {| project_id := "dsai-468212"; client := None; configure_job := None;
     from_pandas := pass_frame |}.

Definition refused_configuration : BigQueryDataLoader :=
  {| project_id := "dsai-468212";
     client := Some (fun _ => Answered one_row);
     configure_job := Some "Property timeout is unknown";
     from_pandas := pass_frame |}.

Definition failing_client : BigQueryDataLoader :=
  {| project_id := "dsai-468212";
     client := Some (fun _ => Failed "timeout");
     configure_job := None;
     from_pandas := pass_frame |}.

Definition columns_only : DataFrame :=
  {| df_columns := ["order_id"]; df_rows := [] |}.

Definition empty_answer_client : BigQueryDataLoader :=
  {| project_id := "dsai-468212";
     client := Some (fun _ => Answered columns_only);
     configure_job := None;
     from_pandas := pass_frame |}.

Definition one_row_client : BigQueryDataLoader :=
  {| project_id := "dsai-468212";
     client := Some (fun _ => Answered one_row);
     configure_job := None;
     from_pandas := pass_frame |}.

(** ** Vocabulary of the properties of the templates *)

(** The template that [get_query] fills in, if there is one. *)
Definition query_template (category query_name : string) : option string :=
  match dict_get category query_maps with
  | None => None
  | Some queries => dict_get query_name queries
  end.

Definition table_names : list string := map fst (TABLES "").

Definition name_among (name : string) (names : list string) : bool :=
  existsb (String.eqb name) names.

(** Every segment is literal text or a keyword field among [names]. *)
Fixpoint fields_among (names : list string) (segs : list segment) : bool :=
  match segs with
  | [] => true
  | Lit _ :: rest => fields_among names rest
  | Field name :: rest =>
      keyword_name name && name_among name names && fields_among names rest
  | _ => false
  end.

(** The segments before and after the first field [name]. *)
Fixpoint split_at_field (name : string) (segs : list segment)
  : option (list segment * list segment) :=
  match segs with
  | [] => None
  | seg :: rest =>
      let later :=
        match split_at_field name rest with
        | Some (a, b) => Some (seg :: a, b)
        | None => None
        end in
      match seg with
      | Field n => if String.eqb n name then Some ([], rest) else later
      | _ => later
      end
  end.

(** Text and table fields, [{start_date}], text and table fields,
    [{end_date}], text and table fields. *)
Definition dated_shape (segs : list segment) : bool :=
  match split_at_field "start_date" segs with
  | Some (a, rest) =>
      match split_at_field "end_date" rest with
      | Some (b, c) =>
          fields_among table_names a && fields_among table_names b
          && fields_among table_names c
      | None => false
      end
  | None => false
  end.

(** Category, name and template of every query of [query_maps]. *)
Definition all_queries : list (string * string * string) :=
  flat_map (fun cq => map (fun q => (fst cq, fst q, snd q)) (snd cq))
           query_maps.

Definition query_shape (q : string * string * string) : bool :=
  let segs := parse_template InText (snd q) in
  if String.eqb (fst (fst q)) "executive" then fields_among table_names segs
  else dated_shape segs.

(** Keyword arguments that name a table and an argument no template has,
    beside the two dates. *)
Definition overriding_arguments : kwargs :=
  [("dim_orders", PyStr "elsewhere.orders");
   ("start_date", PyStr "2018-01-01");
   ("limit", PyInt 5);
   ("end_date", PyStr "2018-02-01")].

(** What a query with dates is, whose fixed texts are [pre], [mid] and
    [post]: the dates are looked up and converted in their order. *)
Definition dated_text (py : python) (pre mid post : string) (kw : kwargs)
  : outcome string :=
  match dict_get "start_date" kw with
  | None => Throws (KeyError "start_date")
  | Some v1 =>
      and_then (py_str py v1) (fun start_date =>
        match dict_get "end_date" kw with
        | None => Throws (KeyError "end_date")
        | Some v2 =>
            and_then (py_str py v2) (fun end_date =>
              Returns (pre ++ start_date ++ mid ++ end_date ++ post))
        end)
  end.
(** * Properties *)

(** ** The cache key *)

Section KeyOrder.

Local Abbreviation name_lt := String_as_OT.lt.

Lemma name_lt_irrefl (a : string) : ~ name_lt a a.
Proof. exact (StrictOrder_Irreflexive a). Qed.

Lemma name_lt_trans (a b c : string) :
  name_lt a b -> name_lt b c -> name_lt a c.
Proof. exact (StrictOrder_Transitive a b c). Qed.

Lemma name_lt_asym (a b : string) : name_lt a b -> name_lt b a -> False.
Proof.
  intros H1 H2. exact (name_lt_irrefl a (name_lt_trans _ _ _ H1 H2)).
Qed.

Lemma name_lt_trichotomy (a b : string) :
  name_lt a b \/ a = b \/ name_lt b a.
Proof.
  destruct (String_as_OT.compare_spec a b); auto.
Qed.

Lemma item_le_true (x y : string * PyVal) :
  item_le x y = true <-> ~ name_lt (fst y) (fst x).
Proof.
  unfold item_le.
  destruct (String_as_OT.compare_spec (fst x) (fst y)) as [E | L | G].
  - split; [intros _ | reflexivity].
    rewrite E. apply name_lt_irrefl.
  - split; [intros _ | reflexivity].
    intros L'. exact (name_lt_asym _ _ L L').
  - split; [discriminate | intros N; contradiction].
Qed.

Lemma item_le_false (x y : string * PyVal) :
  item_le x y = false <-> name_lt (fst y) (fst x).
Proof.
  unfold item_le.
  destruct (String_as_OT.compare_spec (fst x) (fst y)) as [E | L | G].
  - split; [discriminate |].
    rewrite E. intros L. destruct (name_lt_irrefl _ L).
  - split; [discriminate |].
    intros L'. destruct (name_lt_asym _ _ L L').
  - split; [intros _; assumption | reflexivity].
Qed.

(** Two insertions of items with different names commute. *)
Lemma insert_item_comm (x y : string * PyVal) (l : list (string * PyVal)) :
  fst x <> fst y ->
  insert_item x (insert_item y l) = insert_item y (insert_item x l).
Proof.
  intros Hxy. induction l as [| z l IH]; simpl.
  - destruct (item_le x y) eqn:Exy, (item_le y x) eqn:Eyx; try reflexivity.
    + apply item_le_true in Exy, Eyx.
      destruct (name_lt_trichotomy (fst x) (fst y)) as [H | [H | H]];
        contradiction.
    + apply item_le_false in Exy, Eyx. destruct (name_lt_asym _ _ Exy Eyx).
  - destruct (item_le y z) eqn:Eyz, (item_le x z) eqn:Exz; simpl;
      rewrite ?Eyz, ?Exz;
      destruct (item_le x y) eqn:Exy, (item_le y x) eqn:Eyx;
      try reflexivity;
      try (rewrite IH; reflexivity);
      exfalso;
      repeat match goal with
             | H : item_le _ _ = true |- _ => apply item_le_true in H
             | H : item_le _ _ = false |- _ => apply item_le_false in H
             end.
    all: destruct (name_lt_trichotomy (fst x) (fst y)) as [H | [H | H]];
      try contradiction.
    all: try (eapply name_lt_asym; eassumption).
    all: try solve
      [ match goal with
        | N : ~ name_lt _ _ |- _ =>
            apply N; eapply name_lt_trans; eassumption
        end ].
Qed.

Lemma sorted_items_permutation (kw1 kw2 : kwargs) :
  Permutation kw1 kw2 ->
  NoDup (map fst kw1) ->
  sorted_items kw1 = sorted_items kw2.
Proof.
  induction 1 as [| x l l' HP IH | x y l | l l' l'' HP1 IH1 HP2 IH2];
    intros ND; simpl.
  - reflexivity.
  - inversion ND; subst. rewrite IH by assumption. reflexivity.
  - apply insert_item_comm.
    simpl in ND. inversion ND as [| ? ? Hnotin _]; subst.
    intros E. apply Hnotin. left. symmetry. exact E.
  - rewrite IH1 by assumption. apply IH2.
    eapply Permutation_NoDup; [| exact ND].
    apply Permutation_map. exact HP1.
Qed.

End KeyOrder.

(** C2, as the code has it. The order in which the keyword arguments were
    passed never matters: two dicts with the same items in different
    insertion orders give the same key, or the same exception, in every
    interpreter and whatever the values are. The key is made from
    [str(args)], so it is a function of the texts of the arguments and not
    of the arguments up to equality: see
    [generate_cache_key_not_canonical]. *)
Theorem generate_cache_key_order_independent
    (py : python) (args : list PyVal) (kw1 kw2 : kwargs) :
  NoDup (map fst kw1) ->
  Permutation kw1 kw2 ->
  key_string py args kw1 = key_string py args kw2 /\
  _generate_cache_key py args kw1 = _generate_cache_key py args kw2.
Proof.
  intros ND HP.
  assert (E : key_string py args kw1 = key_string py args kw2).
  { unfold key_string. rewrite (sorted_items_permutation kw1 kw2 HP ND).
    reflexivity. }
  split; [exact E |].
  unfold _generate_cache_key. rewrite E. reflexivity.
Qed.

(** The keys of [{a: 1, b: 2}] and [{b: 2, a: 1}]. *)
Lemma generate_cache_key_a_b_witness :
  NoDup (map fst [("a", PyInt 1); ("b", PyInt 2)]) /\
  Permutation [("a", PyInt 1); ("b", PyInt 2)] [("b", PyInt 2); ("a", PyInt 1)] /\
  _generate_cache_key sample_python [] [("a", PyInt 1); ("b", PyInt 2)]
  = _generate_cache_key sample_python [] [("b", PyInt 2); ("a", PyInt 1)].
Proof.
  assert (ND : NoDup (map fst [("a", PyInt 1); ("b", PyInt 2)])).
  { simpl. constructor.
    - intros [H | []]. discriminate H.
    - constructor; [intros [] | constructor]. }
  assert (HP : Permutation [("a", PyInt 1); ("b", PyInt 2)]
                           [("b", PyInt 2); ("a", PyInt 1)]).
  { apply perm_swap. }
  split; [exact ND |]. split; [exact HP |].
  exact (proj2 (generate_cache_key_order_independent sample_python [] _ _
                  ND HP)).
Defined.

Example key_a_b :
  _generate_cache_key sample_python [] [("b", PyInt 2); ("a", PyInt 1)]
  = Returns "db3f45d5285f7dcb9b302a182df6e937".
Proof. vm_compute. reflexivity. Qed.

(** Against C2 as stated. Equal arguments do not always give equal keys.
    A set of two texts is the same set in every process, but the order in
    which a process iterates over it follows the hash seed of the process,
    and the key follows that order: after a restart the same call may have
    another key. And two dicts that are equal, with their items inserted in
    different orders, give different keys when they are passed as the value
    of one keyword argument, in one and the same process. *)
Lemma generate_cache_key_not_canonical :
  Permutation [PyStr "a"; PyStr "b"] [PyStr "b"; PyStr "a"] /\
  _generate_cache_key sample_python [PySet [PyStr "a"; PyStr "b"]] []
  = Returns "5a0d5d5cdcf577a561b8757c81126740" /\
  _generate_cache_key sample_python [PySet [PyStr "b"; PyStr "a"]] []
  = Returns "b507efc8b14e37131e1aaaa965c47fb3" /\
  Permutation [(PyStr "a", PyInt 1); (PyStr "b", PyInt 2)]
              [(PyStr "b", PyInt 2); (PyStr "a", PyInt 1)] /\
  _generate_cache_key sample_python []
    [("f", PyDict [(PyStr "a", PyInt 1); (PyStr "b", PyInt 2)])]
  = Returns "fecc35935f7f63a21fab85e409d6f79a" /\
  _generate_cache_key sample_python []
    [("f", PyDict [(PyStr "b", PyInt 2); (PyStr "a", PyInt 1)])]
  = Returns "2e2df5306d025cec4ebc2e8c37f89fa6" /\
  _generate_cache_key sample_python [PySet [PyStr "a"; PyStr "b"]] []
  <> _generate_cache_key sample_python [PySet [PyStr "b"; PyStr "a"]] [] /\
  _generate_cache_key sample_python []
    [("f", PyDict [(PyStr "a", PyInt 1); (PyStr "b", PyInt 2)])]
  <> _generate_cache_key sample_python []
       [("f", PyDict [(PyStr "b", PyInt 2); (PyStr "a", PyInt 1)])].
Proof.
  split; [apply perm_swap |]. split; [vm_compute; reflexivity |].
  split; [vm_compute; reflexivity |]. split; [apply perm_swap |].
  split; [vm_compute; reflexivity |]. split; [vm_compute; reflexivity |].
  split; vm_compute; discriminate.
Qed.

Example md5_empty : MD5.hexdigest "" = "d41d8cd98f00b204e9800998ecf8427e".
Proof. vm_compute. reflexivity. Qed.

Example md5_abc : MD5.hexdigest "abc" = "900150983cd24fb0d6963f7d28e17f72".
Proof. vm_compute. reflexivity. Qed.

Example md5_two_blocks :
  MD5.hexdigest
    "aaaaaaaaaaaaaaaaaaaaaaaaaaaaaaaaaaaaaaaaaaaaaaaaaaaaaaaaaaaaaaaaaaaaaaaaaaaaaaaaaaaaaaaaaaaaaaaaaaaa"
  = "36a92cc94a9e0fa21f625f8bfb007adf".
Proof. vm_compute. reflexivity. Qed.

Example key_no_arguments :
  _generate_cache_key sample_python [] []
  = Returns "11e7903cf562f028d788fc601ffc9a04".
Proof. vm_compute. reflexivity. Qed.

Example key_string_mixed :
  key_string sample_python [PyStr "orders"; PyInt 7]
             [("start", PyStr "2018-01-01"); ("end", PyNone)]
  = Returns "('orders', 7)[('end', None), ('start', '2018-01-01')]".
Proof. vm_compute. reflexivity. Qed.

Example key_mixed :
  _generate_cache_key sample_python [PyStr "orders"; PyInt 7]
                      [("start", PyStr "2018-01-01"); ("end", PyNone)]
  = Returns "0721f3badda678c7f7d57f0afdc82fbc".
Proof. vm_compute. reflexivity. Qed.

(** A printable character outside ASCII stays as it is (the a with tilde
    of a city name), a no-break space is escaped. *)
Example key_city :
  key_string sample_python [PyStr ("S" ++ bytes [195; 163] ++ "o Paulo")] []
  = Returns ("('S" ++ bytes [195; 163] ++ "o Paulo',)[]") /\
  _generate_cache_key sample_python
    [PyStr ("S" ++ bytes [195; 163] ++ "o Paulo")] []
  = Returns "7de7b8868122e0b8577b03e32999eac6".
Proof. vm_compute. split; reflexivity. Qed.

Example key_no_break_space :
  key_string sample_python [PyStr ("a" ++ bytes [194; 160] ++ "b")] []
  = Returns ("('a" ++ String backslash "xa0b',)[]") /\
  _generate_cache_key sample_python [PyStr ("a" ++ bytes [194; 160] ++ "b")] []
  = Returns "49cd6becfec02596763bd8c2787a47d8".
Proof. vm_compute. split; reflexivity. Qed.

(** Characters of three and four bytes that are not printable: a line
    separator and a tag. *)
Example key_escapes :
  key_string sample_python
    [PyStr (bytes [226; 128; 168]); PyStr (bytes [243; 160; 128; 129])] []
  = Returns ("('" ++ String backslash "u2028', '"
             ++ String backslash "U000e0001')[]").
Proof. vm_compute. reflexivity. Qed.

(** A dict, an empty set and a float among the arguments. *)
Example key_containers :
  key_string sample_python
    [PyDict [(PyOther "1.5" "1.5", PyNone)]; PySet []; PySet [PyInt 1; PyInt 2]]
    [("year", PyInt 2018); ("city", PyStr "Curitiba")]
  = Returns
      "({1.5: None}, set(), {1, 2})[('city', 'Curitiba'), ('year', 2018)]".
Proof. vm_compute. reflexivity. Qed.

(** An integer of 4301 digits is past the limit. *)
Example key_long_integer :
  _generate_cache_key sample_python [PyInt (10 ^ 4300)] []
  = Throws (ValueError
      "Exceeds the limit (4300 digits) for integer string conversion; use sys.set_int_max_str_digits() to increase the limit") /\
  exists key, _generate_cache_key sample_python [PyInt (10 ^ 4299)] []
              = Returns key.
Proof. vm_compute. split; [reflexivity | eexists; reflexivity]. Qed.

(** ** The directory as a finite map *)

Lemma lookup_remove_same (name : string) (fs : list (string * node)) :
  lookup name (remove_entry name fs) = None.
Proof.
  induction fs as [| [n nd] fs IH]; simpl; [reflexivity |].
  destruct (String.eqb name n) eqn:E; simpl; [exact IH |].
  rewrite E. exact IH.
Qed.

Lemma lookup_remove_other (name other : string) (fs : list (string * node)) :
  name <> other ->
  lookup other (remove_entry name fs) = lookup other fs.
Proof.
  intros Hne. induction fs as [| [n nd] fs IH]; simpl; [reflexivity |].
  destruct (String.eqb name n) eqn:E; simpl.
  - apply String.eqb_eq in E. subst n.
    destruct (String.eqb other name) eqn:E'; [| exact IH].
    apply String.eqb_eq in E'. subst other. contradiction.
  - rewrite IH. reflexivity.
Qed.

Lemma lookup_write_same (name : string) (nd : node)
    (fs : list (string * node)) :
  lookup name (write_entry name nd fs) = Some nd.
Proof.
  induction fs as [| [n nd'] fs IH]; simpl.
  - rewrite String.eqb_refl. reflexivity.
  - destruct (String.eqb name n) eqn:E; simpl; rewrite E; [reflexivity |].
    exact IH.
Qed.

Lemma lookup_write_other (name other : string) (nd : node)
    (fs : list (string * node)) :
  name <> other ->
  lookup other (write_entry name nd fs) = lookup other fs.
Proof.
  intros Hne. induction fs as [| [n nd'] fs IH]; simpl.
  - destruct (String.eqb other name) eqn:E; [| reflexivity].
    apply String.eqb_eq in E. subst other. contradiction.
  - destruct (String.eqb name n) eqn:E; simpl.
    + apply String.eqb_eq in E. subst n.
      destruct (String.eqb other name) eqn:E'; [| reflexivity].
      apply String.eqb_eq in E'. subst other. contradiction.
    + rewrite IH. reflexivity.
Qed.

Lemma write_entry_twice (name : string) (nd1 nd2 : node)
    (fs : list (string * node)) :
  write_entry name nd2 (write_entry name nd1 fs) = write_entry name nd2 fs.
Proof.
  induction fs as [| [n nd'] fs IH]; simpl.
  - rewrite String.eqb_refl. reflexivity.
  - destruct (String.eqb name n) eqn:E; simpl; rewrite E; [reflexivity |].
    rewrite IH. reflexivity.
Qed.

Lemma lookup_remove_cases (name other : string) (fs : list (string * node)) :
  lookup other (remove_entry name fs) = None \/
  lookup other (remove_entry name fs) = lookup other fs.
Proof.
  destruct (String.eqb name other) eqn:E.
  - apply String.eqb_eq in E. subst other. left. apply lookup_remove_same.
  - apply String.eqb_neq in E. right. apply lookup_remove_other. exact E.
Qed.

Lemma lookup_in_names (name : string) (fs : list (string * node)) :
  In name (map fst fs) <-> lookup name fs <> None.
Proof.
  induction fs as [| [n nd] fs IH]; simpl.
  - split; [intros [] | intros H; apply H; reflexivity].
  - destruct (String.eqb name n) eqn:E.
    + apply String.eqb_eq in E. subst n.
      split; [discriminate | intros _; left; reflexivity].
    + apply String.eqb_neq in E. rewrite <- IH.
      split; [intros [H | H]; [congruence | exact H] | intros H; right; exact H].
  Qed.

(** ** [load_from_disk_cache] and [save_to_disk_cache], case by case *)

Ltac run :=
  unfold load_from_disk_cache, save_to_disk_cache, clear_expired_entry,
    expired, timedelta_seconds,
    try_except, bind, ret, raise, os_path_exists, pickle_load, open_wb,
    pickle_dump, os_remove, datetime_now, logger_info, logger_error, call,
    stored_at;
  simpl.

(** The test of the age of an entry, by its three outcomes. *)
Lemma expired_overflows (cd : cache_data) (w : world) :
  ttl_overflows cd = true ->
  expired cd w = (Raise (OverflowError (ttl_of cd)), w).
Proof.
  unfold ttl_overflows, expired, timedelta_seconds, bind, datetime_now,
    raise.
  destruct (cd_timestamp cd) as [ts |]; [| discriminate].
  destruct (timedelta_in_range (ttl_of cd)); [discriminate | reflexivity].
Qed.

Lemma expired_tested (cd : cache_data) (w : world) :
  ttl_overflows cd = false ->
  expired cd w = (Ok (expired_at (clock w) cd), w).
Proof.
  unfold ttl_overflows, expired, expired_at, timedelta_seconds, bind,
    datetime_now, ret.
  destruct (cd_timestamp cd) as [ts |]; [| reflexivity].
  destruct (timedelta_in_range (ttl_of cd)); [reflexivity | discriminate].
Qed.

Lemma expired_at_in_range (now : Z) (cd : cache_data) :
  expired_at now cd = true -> ttl_overflows cd = false.
Proof.
  unfold expired_at, ttl_overflows.
  destruct (cd_timestamp cd) as [ts |]; [| reflexivity].
  destruct (timedelta_in_range (ttl_of cd)); [reflexivity | discriminate].
Qed.

Lemma load_absent (key : string) (w : world) :
  stored_at key w = None ->
  load_from_disk_cache key w = (Ok None, w).
Proof. unfold stored_at. intros H. run. rewrite H. reflexivity. Qed.

Lemma load_corrupt (key : string) (w : world) :
  stored_at key w = Some (Regular Corrupt) ->
  load_from_disk_cache key w
  = (Ok None,
     add_log (load_error (UnpicklingError (_get_cache_file_path key))) w).
Proof.
  unfold stored_at. intros H. run. rewrite H. simpl. rewrite H. reflexivity.
Qed.

Lemma load_directory (key : string) (w : world) :
  stored_at key w = Some Directory ->
  load_from_disk_cache key w
  = (Ok None,
     add_log (load_error (IsADirectoryError (_get_cache_file_path key))) w).
Proof.
  unfold stored_at. intros H. run. rewrite H. simpl. rewrite H. reflexivity.
Qed.

Lemma load_pickled (key : string) (w : world) (cd : cache_data) :
  stored_at key w = Some (Regular (Pickled cd)) ->
  load_from_disk_cache key w
  = match expired cd w with
    | (Ok true, w1) =>
        (Ok None, set_files (remove_entry (_get_cache_file_path key) (files w1)) w1)
    | (Ok false, w1) => (Ok (cd_data cd), add_log (load_info key) w1)
    | (Raise e, w1) =>
        if is_Exception e then (Ok None, add_log (load_error e) w1)
        else (Raise e, w1)
    end.
Proof.
  unfold stored_at. intros H.
  unfold load_from_disk_cache, try_except, bind, os_path_exists, pickle_load.
  rewrite H. simpl. rewrite H.
  destruct (expired cd w) as [[[|] | e] w1] eqn:E; try reflexivity.
  assert (Hw : w1 = w).
  { destruct (ttl_overflows cd) eqn:O.
    - rewrite (expired_overflows cd w O) in E. congruence.
    - rewrite (expired_tested cd w O) in E. congruence. }
  subst w1. unfold os_remove, ret. rewrite H. reflexivity.
Qed.

Lemma load_expired (key : string) (w : world) (cd : cache_data) :
  stored_at key w = Some (Regular (Pickled cd)) ->
  expired_at (clock w) cd = true ->
  load_from_disk_cache key w
  = (Ok None, set_files (remove_entry (_get_cache_file_path key) (files w)) w).
Proof.
  intros H E. rewrite (load_pickled key w cd H).
  rewrite (expired_tested cd w (expired_at_in_range _ _ E)), E. reflexivity.
Qed.

Lemma load_fresh (key : string) (w : world) (cd : cache_data) :
  stored_at key w = Some (Regular (Pickled cd)) ->
  expired_at (clock w) cd = false ->
  ttl_overflows cd = false ->
  load_from_disk_cache key w = (Ok (cd_data cd), add_log (load_info key) w).
Proof.
  intros H E O. rewrite (load_pickled key w cd H).
  rewrite (expired_tested cd w O), E. reflexivity.
Qed.

Lemma load_overflow (key : string) (w : world) (cd : cache_data) :
  stored_at key w = Some (Regular (Pickled cd)) ->
  ttl_overflows cd = true ->
  load_from_disk_cache key w
  = (Ok None, add_log (load_error (OverflowError (ttl_of cd))) w).
Proof.
  intros H O. rewrite (load_pickled key w cd H).
  rewrite (expired_overflows cd w O). reflexivity.
Qed.

Lemma save_written (key : string) (w : world) (data : option DataFrame)
    (ttl_seconds : option Z) :
  stored_at key w <> Some Directory ->
  save_to_disk_cache key data ttl_seconds w
  = (Ok true,
     add_log (save_info key)
       (set_files
          (write_entry (_get_cache_file_path key)
             (Regular (Pickled (fresh_entry (clock w) data ttl_seconds)))
             (files w))
          w)).
Proof.
  unfold stored_at. intros H. run.
  destruct (lookup (_get_cache_file_path key) (files w)) as [[c |] |] eqn:E;
    try (exfalso; apply H; reflexivity);
    simpl; unfold add_log, set_files; simpl;
    rewrite write_entry_twice; reflexivity.
Qed.

Lemma save_directory (key : string) (w : world) (data : option DataFrame)
    (ttl_seconds : option Z) :
  stored_at key w = Some Directory ->
  save_to_disk_cache key data ttl_seconds w
  = (Ok false,
     add_log (save_error (IsADirectoryError (_get_cache_file_path key))) w).
Proof. unfold stored_at. intros H. run. rewrite H. reflexivity. Qed.

(** [load_from_disk_cache] never raises; it leaves the clock and the call
    counter alone, and every name of the directory holds afterwards what it
    held before, or nothing. *)
Lemma load_frame (key : string) (w : world) :
  exists (r : option DataFrame) (w' : world),
    load_from_disk_cache key w = (Ok r, w') /\
    clock w' = clock w /\ calls w' = calls w /\
    (files w' = files w \/
     files w' = remove_entry (_get_cache_file_path key) (files w)).
Proof.
  destruct (stored_at key w) as [[[| cd] |] |] eqn:E.
  - eexists _, _. rewrite (load_corrupt _ _ E). repeat split. left. reflexivity.
  - destruct (ttl_overflows cd) eqn:O.
    + eexists _, _. rewrite (load_overflow _ _ _ E O). repeat split.
      left. reflexivity.
    + destruct (expired_at (clock w) cd) eqn:X.
      * eexists _, _. rewrite (load_expired _ _ _ E X). repeat split.
        right. reflexivity.
      * eexists _, _. rewrite (load_fresh _ _ _ E X O). repeat split.
        left. reflexivity.
  - eexists _, _. rewrite (load_directory _ _ E). repeat split.
    left. reflexivity.
  - eexists _, _. rewrite (load_absent _ _ E). repeat split. left. reflexivity.
Qed.

(** The two tests in numbers: the ttl is in seconds, the clock in
    microseconds. *)
Lemma expired_at_spec (now timestamp : Z) (cd : cache_data) :
  cd_timestamp cd = Some timestamp ->
  timedelta_in_range (ttl_of cd) = true ->
  ttl_overflows cd = false /\
  (expired_at now cd = true <-> now - timestamp > ttl_of cd * 1000000) /\
  (expired_at now cd = false <-> now - timestamp <= ttl_of cd * 1000000).
Proof.
  intros H R. unfold expired_at, ttl_overflows. rewrite H, R. simpl.
  rewrite Z.gtb_ltb. split; [reflexivity |]. split.
  - rewrite Z.ltb_lt. lia.
  - rewrite Z.ltb_ge. lia.
Qed.

Lemma ttl_overflows_spec (timestamp : Z) (cd : cache_data) :
  cd_timestamp cd = Some timestamp ->
  timedelta_in_range (ttl_of cd) = false ->
  ttl_overflows cd = true.
Proof.
  intros H R. unfold ttl_overflows. rewrite H, R. reflexivity.
Qed.

(** The range of [timedelta], in seconds. *)
Lemma timedelta_in_range_spec (seconds : Z) :
  timedelta_in_range seconds = true
  <-> -86399999913600 <= seconds <= 86399999999999.
Proof.
  unfold timedelta_in_range. rewrite Z.leb_le.
  pose proof (Z.div_mod seconds 86400 ltac:(lia)) as D.
  pose proof (Z.mod_pos_bound seconds 86400 ltac:(lia)) as B.
  split; intros H; lia.
Qed.

(** ** Expiry on lookup *)

(** C3, as the code has it. A stored entry with a timestamp whose ttl is
    in the range of [timedelta] (from -86399999913600 to 86399999999999
    seconds): when it is older than its ttl, more than ttl times 1000000
    microseconds after its timestamp, the lookup returns [None] and removes
    the file, and touches nothing else; within its ttl the lookup returns
    the stored data and the directory stays as it is. With a ttl outside
    that range the lookup returns [None] at any age, logs the
    [OverflowError] and leaves the file where it is. *)
Theorem load_from_disk_cache_ttl
    (key : string) (cd : cache_data) (timestamp : Z) (w : world) :
  stored_at key w = Some (Regular (Pickled cd)) ->
  cd_timestamp cd = Some timestamp ->
  (-86399999913600 <= ttl_of cd <= 86399999999999 ->
   (clock w - timestamp > ttl_of cd * 1000000 ->
    load_from_disk_cache key w
    = (Ok None,
       set_files (remove_entry (_get_cache_file_path key) (files w)) w) /\
    stored_at key (snd (load_from_disk_cache key w)) = None /\
    forall other, other <> _get_cache_file_path key ->
      lookup other (files (snd (load_from_disk_cache key w)))
      = lookup other (files w))
   /\
   (clock w - timestamp <= ttl_of cd * 1000000 ->
    load_from_disk_cache key w
    = (Ok (cd_data cd), add_log (load_info key) w) /\
    files (snd (load_from_disk_cache key w)) = files w))
  /\
  (ttl_of cd < -86399999913600 \/ 86399999999999 < ttl_of cd ->
   load_from_disk_cache key w
   = (Ok None, add_log (load_error (OverflowError (ttl_of cd))) w) /\
   stored_at key (snd (load_from_disk_cache key w))
   = Some (Regular (Pickled cd))).
Proof.
  intros Hst Hts. split.
  - intros Hrange. apply timedelta_in_range_spec in Hrange.
    destruct (expired_at_spec (clock w) timestamp cd Hts Hrange)
      as [O [Hexp Hfresh]].
    split; intros Hage.
    + apply Hexp in Hage. rewrite (load_expired key w cd Hst Hage). simpl.
      split; [reflexivity |]. split.
      * unfold stored_at. simpl. apply lookup_remove_same.
      * intros other Hne. apply lookup_remove_other. congruence.
    + apply Hfresh in Hage. rewrite (load_fresh key w cd Hst Hage O).
      split; reflexivity.
  - intros Hout.
    assert (R : timedelta_in_range (ttl_of cd) = false).
    { destruct (timedelta_in_range (ttl_of cd)) eqn:R; [| reflexivity].
      apply timedelta_in_range_spec in R. lia. }
    rewrite (load_overflow key w cd Hst (ttl_overflows_spec _ _ Hts R)).
    split; [reflexivity | exact Hst].
Qed.

(** A put with a ttl of one second, read back after 1.1 seconds and after
    0.9 seconds. *)
Lemma load_from_disk_cache_ttl_witness :
  let w0 := snd (save_to_disk_cache "k" (Some one_row) (Some 1) empty_world) in
  stored_at "k" w0
  = Some (Regular (Pickled (fresh_entry 0 (Some one_row) (Some 1)))) /\
  fst (load_from_disk_cache "k" (set_clock 1100000 w0)) = Ok None /\
  stored_at "k" (snd (load_from_disk_cache "k" (set_clock 1100000 w0))) = None /\
  fst (load_from_disk_cache "k" (set_clock 900000 w0)) = Ok (Some one_row).
Proof.
  intros w0.
  assert (Hst : forall t, stored_at "k" (set_clock t w0)
                = Some (Regular (Pickled (fresh_entry 0 (Some one_row) (Some 1))))).
  { reflexivity. }
  assert (Hts : cd_timestamp (fresh_entry 0 (Some one_row) (Some 1)) = Some 0).
  { reflexivity. }
  destruct (load_from_disk_cache_ttl "k" _ 0 (set_clock 1100000 w0)
              (Hst 1100000) Hts) as [Hin _].
  destruct Hin as [Hexp _]; [vm_compute; split; discriminate |].
  destruct Hexp as [E [Hgone _]]; [vm_compute; reflexivity |].
  destruct (load_from_disk_cache_ttl "k" _ 0 (set_clock 900000 w0)
              (Hst 900000) Hts) as [Hin' _].
  destruct Hin' as [_ Hfresh]; [vm_compute; split; discriminate |].
  destruct Hfresh as [E' _]; [vm_compute; discriminate |].
  split; [exact (Hst 0) |]. split; [rewrite E; reflexivity |].
  split; [exact Hgone | rewrite E'; reflexivity].
Defined.

(** Against C3 as stated. An entry written one second ago with a ttl of
    10^14 seconds is within its ttl, and the lookup returns [None]. An
    entry written one second ago with a ttl of -10^14 seconds is older
    than its ttl, and the lookup, which returns [None], does not remove
    the file. *)
Lemma load_from_disk_cache_ttl_out_of_range :
  stored_at "k" (key_with_ttl 100000000000000)
  = Some (entry 0 100000000000000) /\
  clock (key_with_ttl 100000000000000) - 0 <= 100000000000000 * 1000000 /\
  fst (load_from_disk_cache "k" (key_with_ttl 100000000000000)) = Ok None /\
  clock (key_with_ttl (-100000000000000)) - 0
  > -100000000000000 * 1000000 /\
  fst (load_from_disk_cache "k" (key_with_ttl (-100000000000000))) = Ok None /\
  stored_at "k"
    (snd (load_from_disk_cache "k" (key_with_ttl (-100000000000000))))
  = Some (entry 0 (-100000000000000)).
Proof.
  split; [reflexivity |]. split; [vm_compute; discriminate |].
  split; [reflexivity |]. split; [vm_compute; reflexivity |].
  split; reflexivity.
Qed.

(** ** Writing an entry *)

(** A completed put goes through the state of the interrupted one. *)
Lemma save_through_interrupted (key : string) (w : world)
    (data : option DataFrame) (ttl_seconds : option Z) :
  stored_at key w <> Some Directory ->
  save_to_disk_cache key data ttl_seconds w
  = (Ok true,
     add_log (save_info key)
       (snd (pickle_dump (_get_cache_file_path key)
               (fresh_entry (clock w) data ttl_seconds)
               (save_interrupted key w)))).
Proof.
  unfold stored_at, save_interrupted. intros H. run.
  destruct (lookup (_get_cache_file_path key) (files w)) as [[c |] |] eqn:E;
    try (exfalso; apply H; reflexivity); reflexivity.
Qed.

(** C4, as the code has it. The put is not atomic: the file is opened for
    writing under its final name, which cuts it to length zero, and the
    entry is dumped into it. Where the name can be written (it is not a
    sub-directory), a completed put returns [True] and leaves under the key
    the entry [{data, timestamp = now, ttl}], the ttl being the default
    when none or 0 was given, and no other name changes; a put interrupted
    after the open leaves under the final name a file that does not
    unpickle, whatever was there before, and a lookup of the key then
    reports nothing. *)
Theorem save_to_disk_cache_direct_write
    (key : string) (data : option DataFrame) (ttl_seconds : option Z)
    (w : world) :
  stored_at key w <> Some Directory ->
  fst (save_to_disk_cache key data ttl_seconds w) = Ok true /\
  stored_at key (snd (save_to_disk_cache key data ttl_seconds w))
  = Some (Regular (Pickled
       {| cd_data := data;
          cd_timestamp := Some (clock w);
          cd_ttl := Some (ttl_or_default ttl_seconds) |})) /\
  (forall other, other <> _get_cache_file_path key ->
     lookup other (files (snd (save_to_disk_cache key data ttl_seconds w)))
     = lookup other (files w)) /\
  stored_at key (save_interrupted key w) = Some (Regular Corrupt) /\
  fst (load_from_disk_cache key (save_interrupted key w)) = Ok None /\
  snd (save_to_disk_cache key data ttl_seconds w)
  = add_log (save_info key)
      (snd (pickle_dump (_get_cache_file_path key)
              (fresh_entry (clock w) data ttl_seconds)
              (save_interrupted key w))).
Proof.
  intros H.
  assert (Hint : stored_at key (save_interrupted key w)
                 = Some (Regular Corrupt)).
  { unfold save_interrupted, stored_at, open_wb in *.
    destruct (lookup (_get_cache_file_path key) (files w)) as [[c |] |] eqn:E;
      try (exfalso; apply H; reflexivity);
      simpl; apply lookup_write_same. }
  rewrite (save_written key w data ttl_seconds H). simpl.
  split; [reflexivity |]. split; [| split; [| split; [| split]]].
  - unfold stored_at. simpl. apply lookup_write_same.
  - intros other Hne. apply lookup_write_other. congruence.
  - exact Hint.
  - rewrite (load_corrupt _ _ Hint). reflexivity.
  - pose proof (save_through_interrupted key w data ttl_seconds H) as E.
    rewrite (save_written key w data ttl_seconds H) in E.
    exact (f_equal snd E).
Qed.

(** A put without ttl over a valid entry, completed and interrupted. *)
Lemma save_to_disk_cache_direct_write_witness :
  stored_at "k" key_is_valid = Some (entry 0 3600) /\
  stored_at "k" (snd (save_to_disk_cache "k" (Some no_rows) None key_is_valid))
  = Some (Regular (Pickled {| cd_data := Some no_rows;
                              cd_timestamp := Some 1000000;
                              cd_ttl := Some 3600 |})) /\
  stored_at "k" (save_interrupted "k" key_is_valid) = Some (Regular Corrupt).
Proof.
  assert (H : stored_at "k" key_is_valid <> Some Directory).
  { vm_compute. discriminate. }
  destruct (save_to_disk_cache_direct_write "k" (Some no_rows) None
              key_is_valid H) as [_ [Hst [_ [Hint _]]]].
  split; [reflexivity |]. split; [exact Hst | exact Hint].
Defined.

(** Against C4 as stated. A put over a valid entry, stopped after the
    open: the final name holds a file of length zero, neither the old entry
    nor the new one. And a put with a ttl of 0 stores the default ttl. *)
Lemma save_to_disk_cache_not_atomic :
  stored_at "k" key_is_valid = Some (entry 0 3600) /\
  stored_at "k" (save_interrupted "k" key_is_valid) = Some (Regular Corrupt) /\
  stored_at "k" (save_interrupted "k" key_is_valid)
  <> stored_at "k" key_is_valid /\
  (forall cd, stored_at "k" (save_interrupted "k" key_is_valid)
              <> Some (Regular (Pickled cd))) /\
  stored_at "k" (snd (save_to_disk_cache "k" (Some one_row) (Some 0) empty_world))
  <> Some (Regular (Pickled {| cd_data := Some one_row;
                               cd_timestamp := Some 0;
                               cd_ttl := Some 0 |})).
Proof.
  split; [reflexivity |]. split; [reflexivity |].
  split; [vm_compute; discriminate |].
  split; [intros cd; vm_compute; discriminate | vm_compute; discriminate].
Qed.

(** ** [smart_cache_query], case by case *)

Lemma smart_cache_query_hit (q : query_function) (key : string)
    (ttl : option Z) (kw : kwargs) (w w' : world) (df : DataFrame) :
  load_from_disk_cache key w = (Ok (Some df), w') ->
  smart_cache_query q key ttl kw w = (Ok (Some df), w').
Proof. intros H. unfold smart_cache_query, bind. rewrite H. reflexivity. Qed.

Lemma smart_cache_query_raises (q : query_function) (key : string)
    (ttl : option Z) (kw : kwargs) (w w' : world) (elapsed : Z) (e : exn) :
  load_from_disk_cache key w = (Ok None, w') ->
  q kw (calls w') = (elapsed, Raise e) ->
  smart_cache_query q key ttl kw w
  = if is_Exception e
    then (Ok None, add_log (query_error e) (after_call elapsed w'))
    else (Raise e, after_call elapsed w').
Proof.
  intros H Hq. unfold smart_cache_query, bind, try_except, call.
  rewrite H, Hq. destruct (is_Exception e); reflexivity.
Qed.

Lemma smart_cache_query_not_saved (q : query_function) (key : string)
    (ttl : option Z) (kw : kwargs) (w w' : world) (elapsed : Z)
    (r : option DataFrame) :
  load_from_disk_cache key w = (Ok None, w') ->
  q kw (calls w') = (elapsed, Ok r) ->
  match r with Some df => is_empty df = true | None => True end ->
  smart_cache_query q key ttl kw w = (Ok r, after_call elapsed w').
Proof.
  intros H Hq Hr. unfold smart_cache_query, bind, try_except, call.
  rewrite H, Hq. destruct r as [df |]; [rewrite Hr |]; reflexivity.
Qed.

Lemma save_never_raises (key : string) (data : option DataFrame)
    (ttl : option Z) (w : world) :
  exists b : bool,
    save_to_disk_cache key data ttl w
    = (Ok b, snd (save_to_disk_cache key data ttl w)).
Proof.
  destruct (stored_at key w) as [[c |] |] eqn:E.
  - exists true. rewrite save_written by (rewrite E; discriminate). reflexivity.
  - exists false. rewrite (save_directory _ _ _ _ E). reflexivity.
  - exists true. rewrite save_written by (rewrite E; discriminate). reflexivity.
Qed.

Lemma smart_cache_query_saved (q : query_function) (key : string)
    (ttl : option Z) (kw : kwargs) (w w' : world) (elapsed : Z)
    (df : DataFrame) :
  load_from_disk_cache key w = (Ok None, w') ->
  q kw (calls w') = (elapsed, Ok (Some df)) ->
  is_empty df = false ->
  smart_cache_query q key ttl kw w
  = (Ok (Some df),
     snd (save_to_disk_cache key (Some df) ttl (after_call elapsed w'))).
Proof.
  intros H Hq Hr. unfold smart_cache_query, bind, try_except, call.
  rewrite H, Hq, Hr. simpl. fold (after_call elapsed w').
  destruct (save_never_raises key (Some df) ttl (after_call elapsed w'))
    as [b E].
  rewrite E. reflexivity.
Qed.

(** A lookup that misses leaves a directory on which the lookup misses
    again, at any reading of the clock. *)
Lemma load_miss_again (key : string) (w w' w'' : world) :
  load_from_disk_cache key w = (Ok None, w') ->
  files w'' = files w' ->
  fst (load_from_disk_cache key w'') = Ok None.
Proof.
  intros H Hfiles.
  assert (Hst : stored_at key w'' = stored_at key w').
  { unfold stored_at. rewrite Hfiles. reflexivity. }
  destruct (stored_at key w) as [[[| cd] |] |] eqn:E.
  - rewrite (load_corrupt _ _ E) in H. inversion H; subst w'.
    rewrite load_corrupt; [reflexivity |]. rewrite Hst. exact E.
  - destruct (ttl_overflows cd) eqn:O.
    + rewrite (load_overflow _ _ _ E O) in H. inversion H; subst w'.
      rewrite (load_overflow key w'' cd); [reflexivity | | exact O].
      rewrite Hst. exact E.
    + destruct (expired_at (clock w) cd) eqn:X.
      * rewrite (load_expired _ _ _ E X) in H. inversion H; subst w'.
        rewrite load_absent; [reflexivity |].
        rewrite Hst. unfold stored_at. simpl. apply lookup_remove_same.
      * rewrite (load_fresh _ _ _ E X O) in H. inversion H as [[Hd Hw]].
        subst w'.
        assert (E' : stored_at key w'' = Some (Regular (Pickled cd))).
        { rewrite Hst. exact E. }
        destruct (expired_at (clock w'') cd) eqn:X'.
        -- rewrite (load_expired _ _ _ E' X'). simpl. congruence.
        -- rewrite (load_fresh _ _ _ E' X' O). simpl. congruence.
  - rewrite (load_directory _ _ E) in H. inversion H; subst w'.
    rewrite load_directory; [reflexivity |]. rewrite Hst. exact E.
  - rewrite (load_absent _ _ E) in H. inversion H; subst w'.
    rewrite load_absent; [reflexivity |]. rewrite Hst. exact E.
Qed.

Lemma load_result (key : string) (w : world) :
  load_from_disk_cache key w
  = (fst (load_from_disk_cache key w), snd (load_from_disk_cache key w)).
Proof. destruct (load_from_disk_cache key w). reflexivity. Qed.

Lemma load_frame_snd (key : string) (w : world) :
  clock (snd (load_from_disk_cache key w)) = clock w /\
  calls (snd (load_from_disk_cache key w)) = calls w /\
  (files (snd (load_from_disk_cache key w)) = files w \/
   files (snd (load_from_disk_cache key w))
   = remove_entry (_get_cache_file_path key) (files w)).
Proof.
  destruct (load_frame key w) as [r [w' [E [Hc [Hn Hf]]]]].
  rewrite E. simpl. auto.
Qed.

Lemma save_frame (key : string) (data : option DataFrame) (ttl : option Z)
    (w : world) :
  calls (snd (save_to_disk_cache key data ttl w)) = calls w /\
  clock (snd (save_to_disk_cache key data ttl w)) = clock w.
Proof.
  destruct (stored_at key w) as [[c |] |] eqn:E.
  - rewrite save_written by (rewrite E; discriminate). split; reflexivity.
  - rewrite (save_directory _ _ _ _ E). split; reflexivity.
  - rewrite save_written by (rewrite E; discriminate). split; reflexivity.
Qed.

(** A fetch that misses invokes the query function, once. *)
Lemma smart_cache_query_miss_invokes (q : query_function) (key : string)
    (ttl : option Z) (kw : kwargs) (w : world) :
  fst (load_from_disk_cache key w) = Ok None ->
  calls (snd (smart_cache_query q key ttl kw w)) = S (calls w).
Proof.
  intros Hmiss.
  pose proof (load_result key w) as Hl. rewrite Hmiss in Hl.
  destruct (load_frame_snd key w) as [_ [Hn _]].
  set (wl := snd (load_from_disk_cache key w)) in *.
  destruct (q kw (calls wl)) as [elapsed [[df |] | e]] eqn:Hq.
  - destruct (is_empty df) eqn:Hempty.
    + rewrite (smart_cache_query_not_saved q key ttl kw w wl elapsed
                 (Some df) Hl Hq Hempty).
      simpl. congruence.
    + rewrite (smart_cache_query_saved q key ttl kw w wl elapsed df Hl Hq
                 Hempty).
      simpl. rewrite (proj1 (save_frame _ _ _ _)). simpl. congruence.
  - rewrite (smart_cache_query_not_saved q key ttl kw w wl elapsed None Hl Hq I).
    simpl. congruence.
  - rewrite (smart_cache_query_raises q key ttl kw w wl elapsed e Hl Hq).
    destruct (is_Exception e); simpl; congruence.
Qed.

(** ** Write-through *)




(** ** Failures are not cached *)

(** C8. A fetch whose query function is invoked and raises returns [None]
    when what is raised is an [Exception], and raises it on otherwise; in
    both cases it writes nothing: every name of the cache directory holds
    what the lookup left there, which is what it held before or nothing.
    The next fetch with the same arguments, at any time, invokes the query
    function again. *)
Theorem smart_cache_query_failure_not_cached
    (q : query_function) (key : string) (ttl : option Z) (kw : kwargs)
    (e : exn) (elapsed : Z) (w : world) :
  fst (load_from_disk_cache key w) = Ok None ->
  q kw (calls w) = (elapsed, Raise e) ->
  fst (smart_cache_query q key ttl kw w)
  = (if is_Exception e then Ok None else Raise e) /\
  calls (snd (smart_cache_query q key ttl kw w)) = S (calls w) /\
  files (snd (smart_cache_query q key ttl kw w))
  = files (snd (load_from_disk_cache key w)) /\
  (forall name,
     lookup name (files (snd (smart_cache_query q key ttl kw w))) = None \/
     lookup name (files (snd (smart_cache_query q key ttl kw w)))
     = lookup name (files w)) /\
  forall t : Z,
    calls (snd (smart_cache_query q key ttl kw
                  (set_clock t (snd (smart_cache_query q key ttl kw w)))))
    = S (S (calls w)).
Proof.
  intros Hmiss Hq.
  pose proof (load_result key w) as Hl. rewrite Hmiss in Hl.
  destruct (load_frame_snd key w) as [Hc [Hn Hf]].
  set (wl := snd (load_from_disk_cache key w)) in *.
  assert (Hq' : q kw (calls wl) = (elapsed, Raise e)).
  { rewrite Hn. exact Hq. }
  rewrite (smart_cache_query_raises q key ttl kw w wl elapsed e Hl Hq').
  assert (Hfiles : files (snd (if is_Exception e
                               then (@Ok (option DataFrame) None,
                                     add_log (query_error e)
                                       (after_call elapsed wl))
                               else (Raise e, after_call elapsed wl)))
                   = files wl).
  { destruct (is_Exception e); reflexivity. }
  assert (Hcalls : calls (snd (if is_Exception e
                               then (@Ok (option DataFrame) None,
                                     add_log (query_error e)
                                       (after_call elapsed wl))
                               else (Raise e, after_call elapsed wl)))
                   = S (calls wl)).
  { destruct (is_Exception e); reflexivity. }
  split; [destruct (is_Exception e); reflexivity |].
  split; [congruence |].
  split; [exact Hfiles |]. split.
  - intros name. rewrite Hfiles. destruct Hf as [Hf | Hf]; rewrite Hf.
    + right. reflexivity.
    + apply lookup_remove_cases.
  - intros t.
    rewrite smart_cache_query_miss_invokes.
    + simpl. congruence.
    + apply (load_miss_again key w wl). exact Hl. exact Hfiles.
Qed.

(** A query function that raises at every call, on an empty cache. *)
Lemma smart_cache_query_failure_not_cached_witness :
  let w1 := snd (smart_cache_query always_raises "k" None [] empty_world) in
  fst (smart_cache_query always_raises "k" None [] empty_world) = Ok None /\
  files w1 = [] /\
  calls (snd (smart_cache_query always_raises "k" None [] (set_clock 500000 w1)))
  = 2%nat.
Proof.
  intros w1.
  assert (Hmiss : fst (load_from_disk_cache "k" empty_world) = Ok None).
  { reflexivity. }
  assert (Hq : always_raises [] (calls empty_world)
               = (250000, Raise (QueryError "connection refused"))).
  { reflexivity. }
  destruct (smart_cache_query_failure_not_cached always_raises "k" None []
              _ _ empty_world Hmiss Hq) as [Hnone [_ [Hfiles [_ Hagain]]]].
  split; [exact Hnone |]. split; [exact Hfiles | exact (Hagain 500000)].
Defined.

(** ** Empty results *)

(** C9, as the code has it. On a fetch that misses, an empty result is
    handed to the caller as it is, an empty frame and not [None], but it is
    not written to the cache: the directory is as the lookup left it, and
    the next fetch with the same arguments invokes the query function
    again. A query function that raises an [Exception], and one that
    returns [None], both make the fetch return [None]; an exception that is
    no [Exception] is raised on to the caller. *)
Theorem smart_cache_query_empty_result
    (q : query_function) (key : string) (ttl : option Z) (kw : kwargs)
    (elapsed : Z) (w : world) :
  fst (load_from_disk_cache key w) = Ok None ->
  (forall df : DataFrame,
     q kw (calls w) = (elapsed, Ok (Some df)) ->
     is_empty df = true ->
     fst (smart_cache_query q key ttl kw w) = Ok (Some df) /\
     fst (smart_cache_query q key ttl kw w) <> Ok None /\
     files (snd (smart_cache_query q key ttl kw w))
     = files (snd (load_from_disk_cache key w)) /\
     forall t : Z,
       calls (snd (smart_cache_query q key ttl kw
                     (set_clock t (snd (smart_cache_query q key ttl kw w)))))
       = S (S (calls w))) /\
  (forall e : exn,
     q kw (calls w) = (elapsed, Raise e) ->
     fst (smart_cache_query q key ttl kw w)
     = (if is_Exception e then Ok None else Raise e)) /\
  (q kw (calls w) = (elapsed, Ok None) ->
   fst (smart_cache_query q key ttl kw w) = Ok None).
Proof.
  intros Hmiss.
  pose proof (load_result key w) as Hl. rewrite Hmiss in Hl.
  destruct (load_frame_snd key w) as [Hc [Hn Hf]].
  set (wl := snd (load_from_disk_cache key w)) in *.
  split; [| split].
  - intros df Hq Hempty.
    assert (Hq' : q kw (calls wl) = (elapsed, Ok (Some df))).
    { rewrite Hn. exact Hq. }
    rewrite (smart_cache_query_not_saved q key ttl kw w wl elapsed (Some df)
               Hl Hq' Hempty).
    simpl. split; [reflexivity |]. split; [discriminate |].
    split; [reflexivity |].
    intros t. rewrite smart_cache_query_miss_invokes.
    + simpl. congruence.
    + apply (load_miss_again key w wl). exact Hl. reflexivity.
  - intros e Hq.
    assert (Hq' : q kw (calls wl) = (elapsed, Raise e)).
    { rewrite Hn. exact Hq. }
    rewrite (smart_cache_query_raises q key ttl kw w wl elapsed e Hl Hq').
    destruct (is_Exception e); reflexivity.
  - intros Hq.
    assert (Hq' : q kw (calls wl) = (elapsed, Ok None)).
    { rewrite Hn. exact Hq. }
    rewrite (smart_cache_query_not_saved q key ttl kw w wl elapsed None Hl
               Hq' I).
    reflexivity.
Qed.

(** A query function that returns no rows, on an empty cache. *)
Lemma smart_cache_query_empty_result_witness :
  let w1 := snd (smart_cache_query returns_no_rows "k" None [] empty_world) in
  fst (smart_cache_query returns_no_rows "k" None [] empty_world)
  = Ok (Some no_rows) /\
  files w1 = [] /\
  calls (snd (smart_cache_query returns_no_rows "k" None []
                (set_clock 500000 w1))) = 2%nat.
Proof.
  intros w1.
  assert (Hmiss : fst (load_from_disk_cache "k" empty_world) = Ok None).
  { reflexivity. }
  destruct (smart_cache_query_empty_result returns_no_rows "k" None []
              250000 empty_world Hmiss) as [Hempty _].
  destruct (Hempty no_rows eq_refl eq_refl) as [Hres [_ [Hfiles Hagain]]].
  split; [exact Hres |]. split; [exact Hfiles | exact (Hagain 500000)].
Defined.

(** Against C9 as stated. An empty result is not cached like another
    payload: after a fetch that returned it, the cache directory is empty
    and the next fetch, a moment later, invokes the query function again;
    with a result of one row the same two fetches invoke it once. *)
Lemma smart_cache_query_does_not_cache_empty_result :
  let w1 := snd (smart_cache_query returns_no_rows "k" None [] empty_world) in
  let w1' := snd (smart_cache_query returns_one_row "k" None [] empty_world) in
  fst (smart_cache_query returns_no_rows "k" None [] empty_world)
  = Ok (Some no_rows) /\
  stored_at "k" w1 = None /\
  calls (snd (smart_cache_query returns_no_rows "k" None []
                (set_clock 500000 w1))) = 2%nat /\
  stored_at "k" w1' <> None /\
  calls (snd (smart_cache_query returns_one_row "k" None []
                (set_clock 500000 w1'))) = 1%nat.
Proof.
  vm_compute. repeat split; try reflexivity. discriminate.
Qed.

(** ** Unreadable files on lookup *)

(** C5, as the code has it. A lookup of a key whose file is corrupt or
    cannot be opened logs the failure and returns [None], and leaves the
    file where it is: the next lookup of the key fails in the same way.
    A corrupt file is replaced when a fetch of that key obtains a result
    that is not empty and writes it over the file. *)
Theorem load_from_disk_cache_unreadable
    (key : string) (nd : node) (w : world) :
  stored_at key w = Some nd ->
  unreadable nd = true ->
  (exists e : exn,
     load_from_disk_cache key w = (Ok None, add_log (load_error e) w) /\
     files (snd (load_from_disk_cache key w)) = files w /\
     stored_at key (snd (load_from_disk_cache key w)) = Some nd /\
     forall t : Z,
       load_from_disk_cache key
         (set_clock t (snd (load_from_disk_cache key w)))
       = (Ok None,
          add_log (load_error e)
            (set_clock t (snd (load_from_disk_cache key w))))) /\
  forall (q : query_function) (ttl : option Z) (kw : kwargs)
         (df : DataFrame) (elapsed : Z),
    nd = Regular Corrupt ->
    q kw (calls w) = (elapsed, Ok (Some df)) ->
    is_empty df = false ->
    fst (smart_cache_query q key ttl kw w) = Ok (Some df) /\
    stored_at key (snd (smart_cache_query q key ttl kw w))
    = Some (Regular (Pickled
         (fresh_entry (clock w + elapsed) (Some df) ttl))).
Proof.
  intros Hst Hun. split.
  - destruct nd as [[| cd] |]; try discriminate Hun.
    + exists (UnpicklingError (_get_cache_file_path key)).
      rewrite (load_corrupt key w Hst). simpl.
      repeat split; try exact Hst.
      intros t. apply load_corrupt. exact Hst.
    + exists (IsADirectoryError (_get_cache_file_path key)).
      rewrite (load_directory key w Hst). simpl.
      repeat split; try exact Hst.
      intros t. apply load_directory. exact Hst.
  - intros q ttl kw df elapsed Hnd Hq Hne. subst nd.
    pose proof (load_corrupt key w Hst) as Hl.
    set (wl := add_log (load_error
                          (UnpicklingError (_get_cache_file_path key))) w)
      in *.
    assert (Hdir : stored_at key (after_call elapsed wl) <> Some Directory).
    { unfold stored_at in *. simpl. rewrite Hst. discriminate. }
    rewrite (smart_cache_query_saved q key ttl kw w wl elapsed df Hl Hq Hne).
    rewrite (save_written key _ (Some df) ttl Hdir). simpl.
    split; [reflexivity |].
    unfold stored_at. simpl. apply lookup_write_same.
Qed.

(** A corrupt file under the key: the lookup keeps it, the fetch writes
    over it. *)
Lemma load_from_disk_cache_unreadable_witness :
  stored_at "k" key_is_corrupt = Some (Regular Corrupt) /\
  fst (load_from_disk_cache "k" key_is_corrupt) = Ok None /\
  files (snd (load_from_disk_cache "k" key_is_corrupt))
  = [("k.pkl", Regular Corrupt)] /\
  stored_at "k" (snd (smart_cache_query returns_one_row "k" None []
                        key_is_corrupt))
  = Some (Regular (Pickled (fresh_entry 250000 (Some one_row) None))).
Proof.
  assert (Hst : stored_at "k" key_is_corrupt = Some (Regular Corrupt)).
  { reflexivity. }
  destruct (load_from_disk_cache_unreadable "k" _ key_is_corrupt Hst eq_refl)
    as [[e [E [Hfiles _]]] Hheal].
  destruct (Hheal returns_one_row None [] one_row 250000 eq_refl eq_refl
              eq_refl) as [_ Hstored].
  split; [exact Hst |]. split; [rewrite E; reflexivity |].
  split; [exact Hfiles | exact Hstored].
Defined.

(** Against C5 as stated: after the lookup of a key whose file does not
    unpickle, the file is still there. *)
Lemma load_from_disk_cache_keeps_corrupt_file :
  stored_at "k" key_is_corrupt = Some (Regular Corrupt) /\
  fst (load_from_disk_cache "k" key_is_corrupt) = Ok None /\
  stored_at "k" (snd (load_from_disk_cache "k" key_is_corrupt)) <> None.
Proof.
  split; [reflexivity |]. split; [reflexivity |]. vm_compute. discriminate.
Qed.

(** ** The sweep *)

Lemma world_eta (w : world) : set_files (files w) w = w.
Proof. destruct w. reflexivity. Qed.

(** One turn of the loop, by what the name denotes. *)
Lemma clear_entry_directory (name : string) (acc : nat)
    (fs : list (string * node)) (w : world) :
  lookup name fs = Some Directory ->
  clear_expired_entry name acc (set_files fs w)
  = (Raise (IsADirectoryError name), set_files fs w).
Proof. intros H. run. rewrite H. simpl. rewrite H. reflexivity. Qed.

Lemma clear_entry_doomed (name : string) (acc : nat)
    (fs : list (string * node)) (w : world) (c : content) :
  lookup name fs = Some (Regular c) ->
  doomed (clock w) fs name = true ->
  clear_expired_entry name acc (set_files fs w)
  = (Ok (S acc), set_files (remove_entry name fs) w).
Proof.
  unfold doomed. intros H D. rewrite H in D.
  unfold clear_expired_entry, try_except, bind, pickle_load. simpl.
  rewrite H. destruct c as [| cd]; simpl.
  - unfold os_remove, ret. simpl. rewrite H. reflexivity.
  - destruct (ttl_overflows cd) eqn:O.
    + rewrite (expired_overflows cd _ O). simpl.
      unfold os_remove, ret. simpl. rewrite H. reflexivity.
    + rewrite (expired_tested cd _ O). simpl.
      rewrite orb_false_r in D. rewrite D.
      unfold os_remove, ret. simpl. rewrite H. reflexivity.
Qed.

Lemma clear_entry_kept (name : string) (acc : nat)
    (fs : list (string * node)) (w : world) (c : content) :
  lookup name fs = Some (Regular c) ->
  doomed (clock w) fs name = false ->
  clear_expired_entry name acc (set_files fs w) = (Ok acc, set_files fs w).
Proof.
  unfold doomed. intros H D. rewrite H in D.
  destruct c as [| cd]; [discriminate D |].
  apply orb_false_iff in D. destruct D as [X O].
  unfold clear_expired_entry, try_except, bind, pickle_load. simpl.
  rewrite H. rewrite (expired_tested cd _ O). simpl. rewrite X.
  reflexivity.
Qed.

(** One turn of the loop leaves the directory as it is or without the
    name, and what it raises, if it raises, is an [Exception]. *)
Lemma clear_entry_cases (name : string) (acc : nat) (w : world) :
  exists r fs',
    clear_expired_entry name acc w = (r, set_files fs' w) /\
    (fs' = files w \/ fs' = remove_entry name (files w)) /\
    match r with
    | Ok _ => True
    | Raise e => is_Exception e = true
    end.
Proof.
  replace (clear_expired_entry name acc w)
    with (clear_expired_entry name acc (set_files (files w) w))
    by (rewrite world_eta; reflexivity).
  destruct (lookup name (files w)) as [[c |] |] eqn:E.
  - destruct (doomed (clock w) (files w) name) eqn:D.
    + exists (Ok (S acc)), (remove_entry name (files w)).
      rewrite (clear_entry_doomed name acc _ w c E D). auto.
    + exists (Ok acc), (files w).
      rewrite (clear_entry_kept name acc _ w c E D). auto.
  - exists (Raise (IsADirectoryError name)), (files w).
    rewrite (clear_entry_directory name acc _ w E). auto.
  - exists (Raise (FileNotFoundError name)), (files w).
    split; [| auto]. run. rewrite E. simpl. rewrite E. reflexivity.
Qed.

Lemma clear_loop_cases (ns : list string) :
  forall (acc : nat) (w : world),
    exists r fs',
      for_each ns clear_expired_entry acc w = (r, set_files fs' w) /\
      match r with
      | Ok _ => True
      | Raise e => is_Exception e = true
      end.
Proof.
  induction ns as [| n ns IH]; intros acc w; simpl.
  - exists (Ok acc), (files w). rewrite world_eta. split; [reflexivity | exact I].
  - destruct (clear_entry_cases n acc w) as [r [fs1 [E [_ Hr]]]].
    unfold bind. rewrite E. destruct r as [acc' | e].
    + destruct (IH acc' (set_files fs1 w)) as [r' [fs' [E' Hr']]].
      exists r', fs'. split; [exact E' | exact Hr'].
    + exists (Raise e), fs1. split; [reflexivity | exact Hr].
Qed.

(** [clear_expired_cache] returns [None], whatever the directory holds. *)
Lemma clear_expired_cache_returns (w : world) :
  clear_expired_cache w = (Ok PyNone, snd (clear_expired_cache w)).
Proof.
  unfold clear_expired_cache, try_except, bind.
  destruct (clear_loop_cases
              (filter (fun f => endswith f ".pkl") (map fst (files w)))
              0%nat w) as [r [fs' [E Hr]]].
  unfold clear_expired_pass, bind, os_listdir. rewrite E.
  destruct r as [n | e].
  - destruct (0 <? n)%nat; reflexivity.
  - rewrite Hr. reflexivity.
Qed.

Lemma doomed_remove_other (now : Z) (fs : list (string * node))
    (name other : string) :
  name <> other ->
  doomed now (remove_entry name fs) other = doomed now fs other.
Proof.
  intros Hne. unfold doomed. rewrite lookup_remove_other by exact Hne.
  reflexivity.
Qed.

Lemma filter_doomed_remove (now : Z) (fs : list (string * node))
    (name : string) (ns : list string) :
  ~ In name ns ->
  filter (doomed now (remove_entry name fs)) ns = filter (doomed now fs) ns.
Proof.
  intros Hnotin. apply filter_ext_in. intros other Hin.
  apply doomed_remove_other. intros E. subst other. contradiction.
Qed.

(** The loop over names that are regular files: it runs to its end, counts
    the corrupt and the expired files and removes exactly them. *)
Lemma clear_loop_completes (ns : list string) :
  forall (fs : list (string * node)) (acc : nat) (w : world),
    NoDup ns ->
    (forall n, In n ns -> lookup n fs <> None) ->
    (forall n, In n ns -> lookup n fs <> Some Directory) ->
    exists fs' : list (string * node),
      for_each ns clear_expired_entry acc (set_files fs w)
      = (Ok (acc + List.length (filter (doomed (clock w) fs) ns))%nat,
         set_files fs' w) /\
      (forall name, In name ns -> doomed (clock w) fs name = true ->
                    lookup name fs' = None) /\
      (forall name, ~ In name ns \/ doomed (clock w) fs name = false ->
                    lookup name fs' = lookup name fs).
Proof.
  induction ns as [| n ns IH]; intros fs acc w ND Hpresent Hregular.
  - exists fs. simpl. rewrite Nat.add_0_r.
    split; [reflexivity |]. split; [intros name [] | reflexivity].
  - inversion ND as [| ? ? Hnotin ND']; subst.
    assert (Hn : exists c, lookup n fs = Some (Regular c)).
    { destruct (lookup n fs) as [[c |] |] eqn:E.
      - exists c. reflexivity.
      - destruct (Hregular n (or_introl eq_refl) E).
      - destruct (Hpresent n (or_introl eq_refl) E). }
    destruct Hn as [c Hc].
    destruct (doomed (clock w) fs n) eqn:D.
    + (* the file goes *)
      destruct (IH (remove_entry n fs) (S acc) w ND') as [fs' [E [Hgone Hkept]]].
      * intros m Hm. rewrite lookup_remove_other.
        -- apply Hpresent. right. exact Hm.
        -- intros Eq. subst m. contradiction.
      * intros m Hm. rewrite lookup_remove_other.
        -- apply Hregular. right. exact Hm.
        -- intros Eq. subst m. contradiction.
      * exists fs'. split; [| split].
        -- simpl. unfold bind at 1.
           rewrite (clear_entry_doomed n acc fs w c Hc D). rewrite E.
           rewrite D. simpl.
           rewrite (filter_doomed_remove _ _ _ _ Hnotin).
           f_equal. f_equal. lia.
        -- intros name [Hin | Hin] Dn.
           ++ subst name.
              rewrite Hkept by (left; exact Hnotin).
              apply lookup_remove_same.
           ++ apply Hgone; [exact Hin |].
              rewrite doomed_remove_other; [exact Dn |].
              intros Eq. subst name. contradiction.
        -- intros name Hname.
           assert (Hne : n <> name).
           { intros Eq. subst name. destruct Hname as [Hname | Hname].
             - apply Hname. left. reflexivity.
             - congruence. }
           rewrite Hkept.
           ++ apply lookup_remove_other. exact Hne.
           ++ destruct Hname as [Hname | Hname].
              ** left. intros Hin. apply Hname. right. exact Hin.
              ** right. rewrite doomed_remove_other by exact Hne. exact Hname.
    + (* the file stays *)
      destruct (IH fs acc w ND') as [fs' [E [Hgone Hkept]]].
      * intros m Hm. apply Hpresent. right. exact Hm.
      * intros m Hm. apply Hregular. right. exact Hm.
      * exists fs'. split; [| split].
        -- simpl. unfold bind at 1.
           rewrite (clear_entry_kept n acc fs w c Hc D). rewrite E.
           rewrite D. reflexivity.
        -- intros name [Hin | Hin] Dn.
           ++ subst name. congruence.
           ++ apply Hgone; assumption.
        -- intros name Hname.
           destruct (String.eqb n name) eqn:Eq.
           ++ apply String.eqb_eq in Eq. subst name.
              apply Hkept. right. exact D.
           ++ apply String.eqb_neq in Eq. apply Hkept.
              destruct Hname as [Hname | Hname].
              ** left. intros Hin. apply Hname. right. exact Hin.
              ** right. exact Hname.
Qed.

(** The loop over a listing with a sub-directory in it stops at one, with
    its [IsADirectoryError]. *)
Lemma clear_loop_aborts (ns : list string) :
  forall (fs : list (string * node)) (acc : nat) (w : world),
    NoDup ns ->
    (forall n, In n ns -> lookup n fs <> None) ->
    (exists d, In d ns /\ lookup d fs = Some Directory) ->
    exists (d : string) (fs' : list (string * node)),
      In d ns /\ lookup d fs = Some Directory /\
      for_each ns clear_expired_entry acc (set_files fs w)
      = (Raise (IsADirectoryError d), set_files fs' w) /\
      lookup d fs' = Some Directory.
Proof.
  induction ns as [| n ns IH]; intros fs acc w ND Hpresent [d [Hd Hdir]].
  - destruct Hd.
  - inversion ND as [| ? ? Hnotin ND']; subst.
    destruct (lookup n fs) as [[c |] |] eqn:E.
    + (* a regular file first: the directory is further on *)
      assert (Hd' : In d ns).
      { destruct Hd as [Hd | Hd]; [subst d; congruence | exact Hd]. }
      assert (Hne : n <> d) by (intros Eq; subst d; contradiction).
      destruct (doomed (clock w) fs n) eqn:D.
      * destruct (IH (remove_entry n fs) (S acc) w ND')
          as [d' [fs' [H1 [H2 [H3 H4]]]]].
        -- intros m Hm. rewrite lookup_remove_other.
           ++ apply Hpresent. right. exact Hm.
           ++ intros Eq. subst m. contradiction.
        -- exists d. split; [exact Hd' |].
           rewrite lookup_remove_other by exact Hne. exact Hdir.
        -- exists d', fs'. split; [right; exact H1 |]. split; [| split].
           ++ rewrite lookup_remove_other in H2; [exact H2 |].
              intros Eq. subst d'. contradiction.
           ++ simpl. unfold bind at 1.
              rewrite (clear_entry_doomed n acc fs w c E D). exact H3.
           ++ exact H4.
      * destruct (IH fs acc w ND') as [d' [fs' [H1 [H2 [H3 H4]]]]].
        -- intros m Hm. apply Hpresent. right. exact Hm.
        -- exists d. split; assumption.
        -- exists d', fs'. split; [right; exact H1 |]. split; [exact H2 |].
           split; [| exact H4].
           simpl. unfold bind at 1.
           rewrite (clear_entry_kept n acc fs w c E D). exact H3.
    + exists n, fs. split; [left; reflexivity |]. split; [exact E |].
      split; [| exact E].
      simpl. unfold bind at 1.
      rewrite (clear_entry_directory n acc fs w E). reflexivity.
    + destruct (Hpresent n (or_introl eq_refl) E).
Qed.

Lemma filter_swept (now : Z) (fs : list (string * node)) (names : list string) :
  filter (doomed now fs) (filter (fun f => endswith f ".pkl") names)
  = filter (swept now fs) names.
Proof.
  induction names as [| n names IH]; simpl; [reflexivity |].
  replace (swept now fs n) with (endswith n ".pkl" && doomed now fs n)
    by reflexivity.
  destruct (endswith n ".pkl"); simpl; rewrite IH; reflexivity.
Qed.

Lemma clear_expired_pass_loop (w : world) :
  clear_expired_pass w
  = for_each (filter (fun f => endswith f ".pkl") (map fst (files w)))
      clear_expired_entry 0%nat (set_files (files w) w).
Proof. rewrite world_eta. reflexivity. Qed.

Lemma cache_files_facts (w : world) :
  NoDup (map fst (files w)) ->
  NoDup (filter (fun f => endswith f ".pkl") (map fst (files w))) /\
  (forall n,
     In n (filter (fun f => endswith f ".pkl") (map fst (files w))) ->
     lookup n (files w) <> None).
Proof.
  intros ND. split.
  - apply NoDup_filter. exact ND.
  - intros n Hn. apply filter_In in Hn. apply lookup_in_names. apply Hn.
Qed.

(** A pass over a directory whose cache files are regular files. *)
Lemma clear_expired_pass_completes (w : world) :
  NoDup (map fst (files w)) ->
  (forall name, endswith name ".pkl" = true ->
                lookup name (files w) <> Some Directory) ->
  exists fs' : list (string * node),
    clear_expired_pass w
    = (Ok (cleared (clock w) (files w)), set_files fs' w) /\
    forall name,
      lookup name fs'
      = if swept (clock w) (files w) name then None
        else lookup name (files w).
Proof.
  intros ND Hregular.
  destruct (cache_files_facts w ND) as [ND' Hpresent].
  destruct (clear_loop_completes _ (files w) 0%nat w ND' Hpresent)
    as [fs' [E [Hgone Hkept]]].
  { intros n Hn. apply filter_In in Hn. apply Hregular. apply Hn. }
  exists fs'. split.
  - rewrite clear_expired_pass_loop, E. simpl. rewrite filter_swept.
    reflexivity.
  - intros name. unfold swept.
    destruct (endswith name ".pkl") eqn:P; simpl.
    + destruct (doomed (clock w) (files w) name) eqn:D.
      * apply Hgone; [| exact D].
        apply filter_In. split; [| exact P].
        apply lookup_in_names. unfold doomed in D.
        destruct (lookup name (files w)); [discriminate | discriminate D].
      * apply Hkept. right. exact D.
    + apply Hkept. left. intros Hin. apply filter_In in Hin.
      destruct Hin as [_ Hin]. congruence.
Qed.

(** A pass that runs to its end met no sub-directory among the cache
    files. *)
Lemma clear_expired_pass_completed (w w' : world) (n : nat) :
  NoDup (map fst (files w)) ->
  clear_expired_pass w = (Ok n, w') ->
  forall name, endswith name ".pkl" = true ->
               lookup name (files w) <> Some Directory.
Proof.
  intros ND E name P Hdir.
  destruct (cache_files_facts w ND) as [ND' Hpresent].
  destruct (clear_loop_aborts _ (files w) 0%nat w ND' Hpresent)
    as [d [fs' [_ [_ [E' _]]]]].
  { exists name. split; [| exact Hdir].
    apply filter_In. split; [| exact P].
    apply lookup_in_names. congruence. }
  rewrite clear_expired_pass_loop in E. congruence.
Qed.

Lemma clear_expired_cache_of_pass (w w' : world) (n : nat) :
  clear_expired_pass w = (Ok n, w') ->
  clear_expired_cache w
  = (Ok PyNone, if (0 <? n)%nat then add_log (cleared_info n) w' else w').
Proof.
  intros E. unfold clear_expired_cache, try_except, bind. rewrite E.
  destruct (0 <? n)%nat; reflexivity.
Qed.

(** A sweep over a directory with a sub-directory among its cache files
    ends in the outer handler: what it logs is the error. *)
Lemma clear_expired_cache_aborts (w : world) :
  NoDup (map fst (files w)) ->
  (exists name, endswith name ".pkl" = true /\
                lookup name (files w) = Some Directory) ->
  exists (d : string) (fs' : list (string * node)),
    lookup d (files w) = Some Directory /\
    clear_expired_cache w
    = (Ok PyNone,
       add_log (sweep_error (IsADirectoryError d)) (set_files fs' w)).
Proof.
  intros ND [name [P Hdir]].
  destruct (cache_files_facts w ND) as [ND' Hpresent].
  destruct (clear_loop_aborts _ (files w) 0%nat w ND' Hpresent)
    as [d [fs' [_ [Hd [E _]]]]].
  { exists name. split; [| exact Hdir].
    apply filter_In. split; [| exact P].
    apply lookup_in_names. congruence. }
  exists d, fs'. split; [exact Hd |].
  unfold clear_expired_cache, try_except, bind.
  rewrite clear_expired_pass_loop, E. reflexivity.
Qed.

Lemma for_each_app {A S : Type} (l1 l2 : list A) (body : A -> S -> M S)
    (acc : S) (w : world) :
  for_each (l1 ++ l2)%list body acc w
  = match for_each l1 body acc w with
    | (Ok acc', w') => for_each l2 body acc' w'
    | (Raise e, w') => (Raise e, w')
    end.
Proof.
  revert acc w. induction l1 as [| x l1 IH]; intros acc w; simpl.
  - reflexivity.
  - unfold bind. destruct (body x acc w) as [[acc' | e] w']; [apply IH |].
    reflexivity.
Qed.

Lemma lookup_app_notin (name : string) (l1 l2 : list (string * node)) :
  ~ In name (map fst l1) ->
  lookup name (l1 ++ l2)%list = lookup name l2.
Proof.
  induction l1 as [| [n nd] l1 IH]; intros Hnotin; simpl; [reflexivity |].
  destruct (String.eqb name n) eqn:E.
  - apply String.eqb_eq in E. subst n. exfalso. apply Hnotin. left.
    reflexivity.
  - apply IH. intros Hin. apply Hnotin. right. exact Hin.
Qed.

(** A sweep that meets a sub-directory [d] among the cache files stops
    there: the entries listed before [d] have been swept, [d] and every
    entry listed after it are as they were, expired or not, and the log has
    the error, not the count. *)
Lemma clear_expired_cache_stops_early (w : world)
    (before after : list (string * node)) (d : string) :
  files w = (before ++ (d, Directory) :: after)%list ->
  NoDup (map fst (files w)) ->
  endswith d ".pkl" = true ->
  (forall name, endswith name ".pkl" = true -> In name (map fst before) ->
                lookup name (files w) <> Some Directory) ->
  exists fs' : list (string * node),
    clear_expired_cache w
    = (Ok PyNone,
       add_log (sweep_error (IsADirectoryError d)) (set_files fs' w)) /\
    (forall name, In name (map fst before) ->
       lookup name fs'
       = if swept (clock w) (files w) name then None
         else lookup name (files w)) /\
    (forall name, ~ In name (map fst before) ->
       lookup name fs' = lookup name (files w)).
Proof.
  intros Hfiles ND P Hregular.
  assert (Hnames : map fst (files w)
                   = (map fst before ++ d :: map fst after)%list).
  { rewrite Hfiles, map_app. reflexivity. }
  assert (Hd_notin : ~ In d (map fst before)).
  { rewrite Hnames in ND. apply NoDup_remove_2 in ND.
    intros Hin. apply ND. apply in_or_app. left. exact Hin. }
  assert (Hd : lookup d (files w) = Some Directory).
  { rewrite Hfiles, (lookup_app_notin _ _ _ Hd_notin). simpl.
    rewrite String.eqb_refl. reflexivity. }
  set (ns1 := filter (fun f => endswith f ".pkl") (map fst before)).
  assert (ND1 : NoDup ns1).
  { apply NoDup_filter. rewrite Hnames in ND.
    apply NoDup_app_remove_r in ND. exact ND. }
  assert (Hin1 : forall n, In n ns1 ->
                   In n (map fst before) /\ endswith n ".pkl" = true).
  { intros n Hn. apply filter_In in Hn. exact Hn. }
  destruct (clear_loop_completes ns1 (files w) 0%nat w ND1)
    as [fs' [E [Hgone Hkept]]].
  { intros n Hn. apply lookup_in_names. rewrite Hnames.
    apply in_or_app. left. apply Hin1. exact Hn. }
  { intros n Hn. destruct (Hin1 n Hn) as [Hb Hp]. apply Hregular; assumption. }
  exists fs'. split; [| split].
  - unfold clear_expired_cache, try_except, bind.
    rewrite clear_expired_pass_loop, Hnames, filter_app. simpl. rewrite P.
    fold ns1. rewrite for_each_app, E. simpl. unfold bind.
    rewrite clear_entry_directory; [reflexivity |].
    rewrite Hkept; [exact Hd |].
    left. intros Hin. apply Hd_notin. apply Hin1. exact Hin.
  - intros name Hin. unfold swept.
    destruct (endswith name ".pkl") eqn:Pn; simpl.
    + destruct (doomed (clock w) (files w) name) eqn:D.
      * apply Hgone; [| exact D]. apply filter_In. split; assumption.
      * apply Hkept. right. exact D.
    + apply Hkept. left. intros Hn. destruct (Hin1 name Hn). congruence.
  - intros name Hnotin. apply Hkept. left. intros Hn.
    apply Hnotin. apply Hin1. exact Hn.
Qed.

Lemma names_distinct_ten : NoDup (map fst (files ten_entries)).
Proof.
  simpl. repeat (apply NoDup_cons; [simpl; intuition discriminate |]).
  apply NoDup_nil.
Qed.


(** What the sweep removes, in numbers. *)
Lemma swept_spec (now : Z) (fs : list (string * node)) (name : string) :
  swept now fs name = true <->
  endswith name ".pkl" = true /\
  (lookup name fs = Some (Regular Corrupt) \/
   exists cd timestamp,
     lookup name fs = Some (Regular (Pickled cd)) /\
     cd_timestamp cd = Some timestamp /\
     (now - timestamp > ttl_of cd * 1000000 \/
      ttl_of cd < -86399999913600 \/ 86399999999999 < ttl_of cd)).
Proof.
  unfold swept, doomed. rewrite andb_true_iff.
  split; intros [P H]; (split; [exact P |]).
  - destruct (lookup name fs) as [[[| cd] |] |]; try discriminate H.
    + left. reflexivity.
    + right. exists cd.
      destruct (cd_timestamp cd) as [ts |] eqn:T.
      * exists ts. split; [reflexivity |]. split; [reflexivity |].
        destruct (timedelta_in_range (ttl_of cd)) eqn:R.
        -- destruct (expired_at_spec now ts cd T R) as [O [Hexp _]].
           rewrite O, orb_false_r in H. left. apply Hexp. exact H.
        -- right.
           destruct (Z_lt_le_dec (ttl_of cd) (-86399999913600)) as [L | L];
             [left; exact L |].
           destruct (Z_lt_le_dec 86399999999999 (ttl_of cd)) as [G | G];
             [right; exact G |].
           assert (R' : timedelta_in_range (ttl_of cd) = true)
             by (apply timedelta_in_range_spec; lia).
           congruence.
      * unfold expired_at, ttl_overflows in H. rewrite T in H.
        discriminate H.
  - destruct H as [H | [cd [ts [H [T A]]]]]; rewrite H; [reflexivity |].
    destruct (timedelta_in_range (ttl_of cd)) eqn:R.
    + destruct (expired_at_spec now ts cd T R) as [O [Hexp _]].
      apply timedelta_in_range_spec in R.
      rewrite O, orb_false_r. apply Hexp. lia.
    + rewrite (ttl_overflows_spec ts cd T R). apply orb_true_r.
Qed.

(** C6, as the code has it. On a cache directory whose cache files are all
    regular files, [clear_expired_cache] goes through every [.pkl] entry
    and removes exactly those that do not unpickle, those older than their
    ttl (more than ttl times 1000000 microseconds after their timestamp),
    and those with a timestamp and a ttl outside the range of [timedelta],
    whatever their age; every other name keeps what it holds. It returns
    [None]: the number of files removed is not returned but logged, when
    it is positive. *)
Theorem clear_expired_cache_sweep (w : world) :
  NoDup (map fst (files w)) ->
  (forall name, endswith name ".pkl" = true ->
                lookup name (files w) <> Some Directory) ->
  fst (clear_expired_cache w) = Ok PyNone /\
  (forall name,
     lookup name (files (snd (clear_expired_cache w)))
     = if swept (clock w) (files w) name then None
       else lookup name (files w)) /\
  (forall name,
     swept (clock w) (files w) name = true <->
     endswith name ".pkl" = true /\
     (lookup name (files w) = Some (Regular Corrupt) \/
      exists cd timestamp,
        lookup name (files w) = Some (Regular (Pickled cd)) /\
        cd_timestamp cd = Some timestamp /\
        (clock w - timestamp > ttl_of cd * 1000000 \/
         ttl_of cd < -86399999913600 \/ 86399999999999 < ttl_of cd))) /\
  log (snd (clear_expired_cache w))
  = (log w ++ (if (0 <? cleared (clock w) (files w))%nat
               then [cleared_info (cleared (clock w) (files w))]
               else []))%list.
Proof.
  intros ND Hregular.
  destruct (clear_expired_pass_completes w ND Hregular) as [fs' [E Hfs]].
  rewrite (clear_expired_cache_of_pass w _ _ E).
  split; [reflexivity |].
  split; [| split; [intros name; apply swept_spec |]].
  - destruct (0 <? cleared (clock w) (files w))%nat; exact Hfs.
  - destruct (0 <? cleared (clock w) (files w))%nat; simpl;
      [reflexivity | rewrite app_nil_r; reflexivity].
Qed.

(** Four expired entries and six valid ones: the four go, the six stay,
    and the log has the count. *)
Lemma clear_expired_cache_sweep_witness :
  NoDup (map fst (files ten_entries)) /\
  cleared (clock ten_entries) (files ten_entries) = 4%nat /\
  fst (clear_expired_cache ten_entries) = Ok PyNone /\
  files (snd (clear_expired_cache ten_entries)) = six_valid /\
  log (snd (clear_expired_cache ten_entries))
  = [INFO "Cleared 4 expired cache files"].
Proof.
  assert (Hregular : forall name, endswith name ".pkl" = true ->
                       lookup name (files ten_entries) <> Some Directory).
  { intros name _. simpl.
    repeat match goal with
           | |- context [String.eqb name ?s] => destruct (String.eqb name s)
           end; discriminate. }
  destruct (clear_expired_cache_sweep ten_entries names_distinct_ten Hregular)
    as [Hret [_ [_ Hlog]]].
  split; [exact names_distinct_ten |]. split; [reflexivity |].
  split; [exact Hret |]. split; [reflexivity |].
  rewrite Hlog. reflexivity.
Defined.

(** Against C6 as stated. With four expired and six valid entries the
    sweep removes four files and returns [None], not 4. A file that does
    not unpickle is removed although no ttl of it has elapsed. And an
    entry written one second ago with a ttl of 10^14 seconds is removed
    and counted, although it is far from expired. *)
Lemma clear_expired_cache_returns_no_count :
  cleared (clock ten_entries) (files ten_entries) = 4%nat /\
  files (snd (clear_expired_cache ten_entries)) = six_valid /\
  fst (clear_expired_cache ten_entries) <> Ok (PyInt 4) /\
  stored_at "c1" with_corrupt_file = Some (Regular Corrupt) /\
  expired_node (clock with_corrupt_file) (Regular Corrupt) = false /\
  stored_at "c1" (snd (clear_expired_cache with_corrupt_file)) = None /\
  stored_at "f1" with_far_ttl = Some (entry 7199000000 100000000000000) /\
  clock with_far_ttl - 7199000000 <= 100000000000000 * 1000000 /\
  snd (clear_expired_cache with_far_ttl)
  = {| files := [("v1.pkl", entry 5400000000 3600)];
       clock := 7200000000;
       log := [INFO "Cleared 1 expired cache files"];
       calls := 0 |}.
Proof.
  split; [reflexivity |]. split; [reflexivity |].
  split; [vm_compute; discriminate |].
  split; [reflexivity |]. split; [reflexivity |]. split; [reflexivity |].
  split; [reflexivity |]. split; [vm_compute; discriminate | reflexivity].
Qed.

(** C7, at a failing input. A sub-directory [a.pkl] is listed before the
    expired entry [b.pkl]: opening [a.pkl] raises, the handler's
    [os.remove] raises too, and the sweep ends in the outer handler;
    [b.pkl] is never looked at and stays. *)
Theorem clear_expired_cache_stops_at_directory :
  clear_expired_cache with_directory
  = (Ok PyNone,
     add_log (sweep_error (IsADirectoryError "a.pkl")) with_directory) /\
  stored_at "b" with_directory = Some (entry 0 3600) /\
  expired_node (clock with_directory) (entry 0 3600) = true /\
  stored_at "b" (snd (clear_expired_cache with_directory))
  = Some (entry 0 3600).
Proof. repeat split; reflexivity. Qed.




(** * Further properties of the cache manager *)

(** ** Text *)

Lemma length_append (s t : string) :
  String.length (s ++ t) = (String.length s + String.length t)%nat.
Proof. induction s as [| c s IH]; simpl; [reflexivity | rewrite IH; reflexivity]. Qed.

Lemma substring_all (t : string) : substring 0 (String.length t) t = t.
Proof. induction t as [| c t IH]; simpl; [reflexivity | rewrite IH; reflexivity]. Qed.

Lemma substring_suffix (s t : string) :
  substring (String.length s) (String.length t) (s ++ t) = t.
Proof. induction s as [| c s IH]; simpl; [apply substring_all | exact IH]. Qed.

Lemma endswith_append (s t : string) : endswith (s ++ t) t = true.
Proof.
  unfold endswith. rewrite length_append.
  replace (String.length s + String.length t - String.length t)%nat
    with (String.length s) by lia.
  rewrite substring_suffix, String.eqb_refl.
  rewrite andb_true_r. apply Nat.leb_le. lia.
Qed.

Lemma append_cancel_right (s1 s2 t : string) : s1 ++ t = s2 ++ t -> s1 = s2.
Proof.
  revert s2. induction s1 as [| c s1 IH]; intros [| d s2] H; simpl in H.
  - reflexivity.
  - exfalso. apply (f_equal String.length) in H. simpl in H.
    rewrite length_append in H. lia.
  - exfalso. apply (f_equal String.length) in H. simpl in H.
    rewrite length_append in H. lia.
  - injection H as Hc Hs. rewrite Hc, (IH s2 Hs). reflexivity.
Qed.

Lemma cache_file_path_injective (k1 k2 : string) :
  _get_cache_file_path k1 = _get_cache_file_path k2 -> k1 = k2.
Proof. apply append_cancel_right. Qed.

Lemma cache_file_path_is_pkl (key : string) :
  endswith (_get_cache_file_path key) ".pkl" = true.
Proof. apply endswith_append. Qed.

(** ** The names of the directory stay distinct *)

Lemma remove_entry_names_in (name other : string) (fs : list (string * node)) :
  In other (map fst (remove_entry name fs)) -> In other (map fst fs).
Proof.
  induction fs as [| [n nd] fs IH]; simpl; [intros [] |].
  destruct (String.eqb name n); simpl.
  - intros H. right. apply IH. exact H.
  - intros [H | H]; [left; exact H | right; apply IH; exact H].
Qed.

Lemma remove_entry_nodup (name : string) (fs : list (string * node)) :
  NoDup (map fst fs) -> NoDup (map fst (remove_entry name fs)).
Proof.
  induction fs as [| [n nd] fs IH]; simpl; intros ND; [constructor |].
  inversion ND as [| ? ? Hnotin ND']; subst.
  destruct (String.eqb name n); simpl; [apply IH; exact ND' |].
  constructor; [| apply IH; exact ND'].
  intros Hin. apply Hnotin. eapply remove_entry_names_in. exact Hin.
Qed.

Lemma write_entry_names (name : string) (nd : node)
    (fs : list (string * node)) :
  map fst (write_entry name nd fs)
  = match lookup name fs with
    | Some _ => map fst fs
    | None => (map fst fs ++ [name])%list
    end.
Proof.
  induction fs as [| [n nd'] fs IH]; simpl; [reflexivity |].
  destruct (String.eqb name n) eqn:E; simpl.
  - apply String.eqb_eq in E. subst n. reflexivity.
  - rewrite IH. destruct (lookup name fs); reflexivity.
Qed.

Lemma write_entry_nodup (name : string) (nd : node)
    (fs : list (string * node)) :
  NoDup (map fst fs) -> NoDup (map fst (write_entry name nd fs)).
Proof.
  intros ND. rewrite write_entry_names.
  destruct (lookup name fs) eqn:E; [exact ND |].
  apply NoDup_app; [exact ND | repeat constructor; intros [] |].
  intros x Hx [Hx' | []]. subst x.
  apply lookup_in_names in Hx. congruence.
Qed.

(** ** Put and get *)

Lemma stored_after_save (key : string) (data : option DataFrame)
    (ttl : option Z) (w : world) :
  stored_at key w <> Some Directory ->
  stored_at key (snd (save_to_disk_cache key data ttl w))
  = Some (Regular (Pickled (fresh_entry (clock w) data ttl))).
Proof.
  intros H. rewrite (save_written key w data ttl H).
  unfold stored_at. simpl. apply lookup_write_same.
Qed.

Lemma fresh_entry_in_range (now t : Z) (data : option DataFrame)
    (ttl : option Z) :
  -86399999913600 <= ttl_or_default ttl <= 86399999999999 ->
  ttl_overflows (fresh_entry now data ttl) = false /\
  (expired_at t (fresh_entry now data ttl) = true <->
   t - now > ttl_or_default ttl * 1000000) /\
  (expired_at t (fresh_entry now data ttl) = false <->
   t - now <= ttl_or_default ttl * 1000000).
Proof.
  intros R. apply timedelta_in_range_spec in R.
  exact (expired_at_spec t now (fresh_entry now data ttl) eq_refl R).
Qed.

Lemma fresh_entry_out_of_range (now : Z) (data : option DataFrame)
    (ttl : option Z) :
  ttl_or_default ttl < -86399999913600
  \/ 86399999999999 < ttl_or_default ttl ->
  ttl_overflows (fresh_entry now data ttl) = true.
Proof.
  intros Hout. apply (ttl_overflows_spec now); [reflexivity |].
  change (ttl_of (fresh_entry now data ttl)) with (ttl_or_default ttl).
  destruct (timedelta_in_range (ttl_or_default ttl)) eqn:R; [| reflexivity].
  apply timedelta_in_range_spec in R. lia.
Qed.

(** X2. Put, then get. Where the key's file can be written and the ttl
    of the put (the default when none or 0 was given) is in the range of
    [timedelta], a get at time [t] after a put made at time [now] returns
    the data that was put, and keeps the file, exactly when [t - now] is at
    most ttl times 1000000 microseconds; later than that it returns [None]
    and the file is gone. A put with a ttl outside that range is accepted
    and stored, and every get of it returns [None] and logs the
    [OverflowError]. *)
Theorem save_then_load
    (key : string) (data : option DataFrame) (ttl : option Z) (t : Z)
    (w : world) :
  stored_at key w <> Some Directory ->
  let w1 := set_clock t (snd (save_to_disk_cache key data ttl w)) in
  (-86399999913600 <= ttl_or_default ttl <= 86399999999999 ->
   (t - clock w <= ttl_or_default ttl * 1000000 ->
    load_from_disk_cache key w1 = (Ok data, add_log (load_info key) w1)) /\
   (t - clock w > ttl_or_default ttl * 1000000 ->
    fst (load_from_disk_cache key w1) = Ok None /\
    stored_at key (snd (load_from_disk_cache key w1)) = None)) /\
  (ttl_or_default ttl < -86399999913600
   \/ 86399999999999 < ttl_or_default ttl ->
   fst (save_to_disk_cache key data ttl w) = Ok true /\
   load_from_disk_cache key w1
   = (Ok None,
      add_log (load_error (OverflowError (ttl_or_default ttl))) w1)).
Proof.
  intros H w1.
  assert (Hst : stored_at key w1
                = Some (Regular (Pickled (fresh_entry (clock w) data ttl)))).
  { exact (stored_after_save key data ttl w H). }
  split.
  - intros R.
    destruct (fresh_entry_in_range (clock w) t data ttl R)
      as [O [Hexp Hfresh]].
    split; intros Ht.
    + apply Hfresh in Ht. exact (load_fresh key w1 _ Hst Ht O).
    + apply Hexp in Ht. rewrite (load_expired key w1 _ Hst Ht). simpl.
      split; [reflexivity |]. unfold stored_at. simpl.
      apply lookup_remove_same.
  - intros Hout. split.
    + rewrite (save_written key w data ttl H). reflexivity.
    + exact (load_overflow key w1 _ Hst
               (fresh_entry_out_of_range (clock w) data ttl Hout)).
Qed.

(** A put with a ttl of two seconds, read after one second and after
    three. *)
Lemma save_then_load_witness :
  let w1 := snd (save_to_disk_cache "k" (Some one_row) (Some 2) empty_world) in
  fst (load_from_disk_cache "k" (set_clock 1000000 w1)) = Ok (Some one_row) /\
  fst (load_from_disk_cache "k" (set_clock 3000000 w1)) = Ok None.
Proof.
  intros w1.
  assert (H : stored_at "k" empty_world <> Some Directory).
  { vm_compute. discriminate. }
  destruct (save_then_load "k" (Some one_row) (Some 2) 1000000 empty_world H)
    as [Hin _].
  destruct Hin as [Hhit _]; [vm_compute; split; discriminate |].
  destruct (save_then_load "k" (Some one_row) (Some 2) 3000000 empty_world H)
    as [Hin' _].
  destruct Hin' as [_ Hmiss]; [vm_compute; split; discriminate |].
  subst w1. split.
  - rewrite Hhit; [reflexivity | vm_compute; discriminate].
  - apply Hmiss. vm_compute. reflexivity.
Defined.

(** X3. A put with a negative ttl is never served: the ttl is stored as
    given, and every get at or after the time of the put returns [None].
    The first such get removes the file when the ttl is in the range of
    [timedelta], and leaves it where it is when the ttl is below that
    range. *)
Theorem save_negative_ttl_never_served
    (key : string) (data : option DataFrame) (ttl t : Z) (w : world) :
  stored_at key w <> Some Directory ->
  ttl < 0 ->
  clock w <= t ->
  let w1 := set_clock t (snd (save_to_disk_cache key data (Some ttl) w)) in
  stored_at key w1
  = Some (Regular (Pickled {| cd_data := data;
                              cd_timestamp := Some (clock w);
                              cd_ttl := Some ttl |})) /\
  fst (load_from_disk_cache key w1) = Ok None /\
  (-86399999913600 <= ttl ->
   stored_at key (snd (load_from_disk_cache key w1)) = None) /\
  (ttl < -86399999913600 ->
   stored_at key (snd (load_from_disk_cache key w1)) = stored_at key w1).
Proof.
  intros H Hneg Ht w1.
  assert (Httl : ttl_or_default (Some ttl) = ttl).
  { unfold ttl_or_default. destruct (ttl =? 0) eqn:E; [| reflexivity].
    apply Z.eqb_eq in E. lia. }
  assert (Hst : stored_at key w1
                = Some (Regular (Pickled
                     (fresh_entry (clock w) data (Some ttl))))).
  { exact (stored_after_save key data (Some ttl) w H). }
  split.
  { rewrite Hst. unfold fresh_entry. rewrite Httl. reflexivity. }
  destruct (Z_lt_le_dec ttl (-86399999913600)) as [L | L].
  - assert (O : ttl_overflows (fresh_entry (clock w) data (Some ttl)) = true).
    { apply fresh_entry_out_of_range. rewrite Httl. left. exact L. }
    rewrite (load_overflow key w1 _ Hst O). simpl.
    split; [reflexivity |]. split; [intros L'; lia | intros _; reflexivity].
  - assert (R : -86399999913600 <= ttl_or_default (Some ttl)
                <= 86399999999999) by (rewrite Httl; lia).
    destruct (fresh_entry_in_range (clock w) t data (Some ttl) R)
      as [_ [Hexp _]].
    assert (X : expired_at (clock w1) (fresh_entry (clock w) data (Some ttl))
                = true).
    { apply Hexp. rewrite Httl. lia. }
    rewrite (load_expired key w1 _ Hst X). simpl.
    split; [reflexivity |]. split; [| intros L'; lia].
    intros _. unfold stored_at. simpl. apply lookup_remove_same.
Qed.

Lemma save_negative_ttl_never_served_witness :
  let w1 := snd (save_to_disk_cache "k" (Some one_row) (Some (-1)) empty_world) in
  fst (load_from_disk_cache "k" w1) = Ok None /\
  files (snd (load_from_disk_cache "k" w1)) = [].
Proof.
  intros w1.
  assert (H : stored_at "k" empty_world <> Some Directory).
  { vm_compute. discriminate. }
  destruct (save_negative_ttl_never_served "k" (Some one_row) (-1) 0
              empty_world H) as [_ [Hnone _]]; [lia | simpl; lia |].
  split; [exact Hnone | reflexivity].
Defined.

(** X4. A second put under a key replaces the first: the key holds the
    second data with the time and the ttl of the second put, and the
    directory has the same names as after the first. *)
Theorem save_overwrites
    (key : string) (data1 data2 : option DataFrame) (ttl1 ttl2 : option Z)
    (t : Z) (w : world) :
  stored_at key w <> Some Directory ->
  let w1 := snd (save_to_disk_cache key data1 ttl1 w) in
  let w2 := snd (save_to_disk_cache key data2 ttl2 (set_clock t w1)) in
  stored_at key w2 = Some (Regular (Pickled (fresh_entry t data2 ttl2))) /\
  map fst (files w2) = map fst (files w1).
Proof.
  intros H w1 w2.
  assert (Hst : stored_at key (set_clock t w1)
                = Some (Regular (Pickled (fresh_entry (clock w) data1 ttl1)))).
  { exact (stored_after_save key data1 ttl1 w H). }
  assert (H1 : stored_at key (set_clock t w1) <> Some Directory).
  { rewrite Hst. discriminate. }
  split.
  - exact (stored_after_save key data2 ttl2 (set_clock t w1) H1).
  - unfold w2. rewrite (save_written key _ data2 ttl2 H1). simpl.
    rewrite write_entry_names. unfold stored_at in Hst. simpl in Hst.
    rewrite Hst. reflexivity.
Qed.

Lemma save_overwrites_witness :
  let w1 := snd (save_to_disk_cache "k" (Some one_row) (Some 2) empty_world) in
  let w2 := snd (save_to_disk_cache "k" (Some no_rows) None
                   (set_clock 5000000 w1)) in
  stored_at "k" w2
  = Some (Regular (Pickled (fresh_entry 5000000 (Some no_rows) None))) /\
  map fst (files w2) = ["k.pkl"].
Proof.
  intros w1 w2.
  assert (H : stored_at "k" empty_world <> Some Directory).
  { vm_compute. discriminate. }
  destruct (save_overwrites "k" (Some one_row) (Some no_rows) (Some 2) None
              5000000 empty_world H) as [Hst Hnames].
  split; [exact Hst |]. subst w1 w2. rewrite Hnames. reflexivity.
Defined.

(** ** Keys do not interfere *)

Lemma load_frame_names (key name : string) (w : world) :
  name <> _get_cache_file_path key ->
  lookup name (files (snd (load_from_disk_cache key w)))
  = lookup name (files w).
Proof.
  intros Hne. destruct (load_frame_snd key w) as [_ [_ [Hf | Hf]]]; rewrite Hf.
  - reflexivity.
  - apply lookup_remove_other. congruence.
Qed.

Lemma save_frame_names (key name : string) (data : option DataFrame)
    (ttl : option Z) (w : world) :
  name <> _get_cache_file_path key ->
  lookup name (files (snd (save_to_disk_cache key data ttl w)))
  = lookup name (files w).
Proof.
  intros Hne. destruct (stored_at key w) as [[c |] |] eqn:E.
  - rewrite save_written by (rewrite E; discriminate). simpl.
    apply lookup_write_other. congruence.
  - rewrite (save_directory _ _ _ _ E). reflexivity.
  - rewrite save_written by (rewrite E; discriminate). simpl.
    apply lookup_write_other. congruence.
Qed.

(** What a fetch does, by the four ways it can go. *)
Lemma smart_cache_query_cases (q : query_function) (key : string)
    (ttl : option Z) (kw : kwargs) (w : world) :
  let wl := snd (load_from_disk_cache key w) in
  (exists df, load_from_disk_cache key w = (Ok (Some df), wl) /\
              smart_cache_query q key ttl kw w = (Ok (Some df), wl)) \/
  (load_from_disk_cache key w = (Ok None, wl) /\
   ((exists elapsed e,
       q kw (calls wl) = (elapsed, Raise e) /\
       smart_cache_query q key ttl kw w
       = (if is_Exception e
          then (Ok None, add_log (query_error e) (after_call elapsed wl))
          else (Raise e, after_call elapsed wl))) \/
    (exists elapsed r,
       q kw (calls wl) = (elapsed, Ok r) /\
       smart_cache_query q key ttl kw w = (Ok r, after_call elapsed wl)) \/
    (exists elapsed df,
       q kw (calls wl) = (elapsed, Ok (Some df)) /\
       is_empty df = false /\
       smart_cache_query q key ttl kw w
       = (Ok (Some df),
          snd (save_to_disk_cache key (Some df) ttl
                 (after_call elapsed wl)))))).
Proof.
  intros wl.
  destruct (load_frame key w) as [r [w' [E _]]].
  assert (Hwl : wl = w') by (unfold wl; rewrite E; reflexivity).
  rewrite <- Hwl in E. clear Hwl w'.
  destruct r as [df |].
  - left. exists df. split; [exact E |].
    exact (smart_cache_query_hit q key ttl kw w wl df E).
  - right. split; [exact E |].
    destruct (q kw (calls wl)) as [elapsed [[df |] | e]] eqn:Hq.
    + destruct (is_empty df) eqn:Hempty.
      * right. left. exists elapsed, (Some df). split; [reflexivity |].
        exact (smart_cache_query_not_saved q key ttl kw w wl elapsed
                 (Some df) E Hq Hempty).
      * right. right. exists elapsed, df.
        split; [reflexivity |]. split; [exact Hempty |].
        exact (smart_cache_query_saved q key ttl kw w wl elapsed df E Hq
                 Hempty).
    + right. left. exists elapsed, None. split; [reflexivity |].
      exact (smart_cache_query_not_saved q key ttl kw w wl elapsed None E Hq I).
    + left. exists elapsed, e. split; [reflexivity |].
      exact (smart_cache_query_raises q key ttl kw w wl elapsed e E Hq).
Qed.

Lemma smart_cache_query_frame_names (q : query_function) (key name : string)
    (ttl : option Z) (kw : kwargs) (w : world) :
  name <> _get_cache_file_path key ->
  lookup name (files (snd (smart_cache_query q key ttl kw w)))
  = lookup name (files w).
Proof.
  intros Hne.
  pose proof (load_frame_names key name w Hne) as Hl.
  destruct (smart_cache_query_cases q key ttl kw w)
    as [[df [_ E]] | [_ [[el [e [_ E]]] | [[el [r [_ E]]] | [el [df [_ [_ E]]]]]]]];
    rewrite E; simpl; try exact Hl.
  - destruct (is_Exception e); exact Hl.
  - rewrite save_frame_names by exact Hne. exact Hl.
Qed.

(** X5. The operations on one key leave every other key alone: for two
    different keys of the shape [_generate_cache_key] makes, after a get, a
    put or a fetch on one of them the directory holds under the other what
    it held before. *)
Theorem other_keys_untouched
    (q : query_function) (key other : string) (data : option DataFrame)
    (ttl : option Z) (kw : kwargs) (w : world) :
  cache_key_shape key = true ->
  cache_key_shape other = true ->
  other <> key ->
  stored_at other (snd (load_from_disk_cache key w)) = stored_at other w /\
  stored_at other (snd (save_to_disk_cache key data ttl w))
  = stored_at other w /\
  stored_at other (snd (smart_cache_query q key ttl kw w))
  = stored_at other w.
Proof.
  intros _ _ Hne.
  assert (Hp : _get_cache_file_path other <> _get_cache_file_path key).
  { intros E. apply Hne. apply cache_file_path_injective. exact E. }
  unfold stored_at. split; [| split].
  - apply load_frame_names. exact Hp.
  - apply save_frame_names. exact Hp.
  - apply smart_cache_query_frame_names. exact Hp.
Qed.

(** A fetch on the key of [a=1, b=2], whose file does not unpickle, beside
    the valid entry of the key of the call without arguments. *)
Lemma other_keys_untouched_witness :
  stored_at "11e7903cf562f028d788fc601ffc9a04"
    (snd (smart_cache_query returns_one_row
            "db3f45d5285f7dcb9b302a182df6e937" None [] two_keys))
  = Some (entry 5400000000 3600).
Proof.
  assert (Hne : "11e7903cf562f028d788fc601ffc9a04"
                <> "db3f45d5285f7dcb9b302a182df6e937") by discriminate.
  destruct (other_keys_untouched returns_one_row
              "db3f45d5285f7dcb9b302a182df6e937"
              "11e7903cf562f028d788fc601ffc9a04" None None []
              two_keys eq_refl eq_refl Hne) as [_ [_ H]].
  rewrite H. reflexivity.
Defined.

(** ** Which exceptions escape *)

(** X6. Among the exceptions that the calls of a fetch raise (those of
    the file system, of [pickle], of [timedelta] and of the query
    function; a signal that interrupts the process while the cache manager
    itself runs is not one of them), the fetch raises exactly when its
    lookup misses and the query function, invoked, raises an exception
    that is no [Exception]: that exception passes through
    [smart_cache_query] to the caller, with nothing logged and nothing
    written. An [Exception] of the query function never reaches the
    caller, and no exception of the file system, of [pickle] or of
    [timedelta] reaches the caller of the get, the put or the sweep. *)
Theorem only_interruptions_escape
    (q : query_function) (key : string) (data : option DataFrame)
    (ttl : option Z) (kw : kwargs) (w : world) :
  (forall e : exn,
     fst (smart_cache_query q key ttl kw w) = Raise e <->
     fst (load_from_disk_cache key w) = Ok None /\
     is_Exception e = false /\
     exists elapsed, q kw (calls w) = (elapsed, Raise e)) /\
  (forall e : exn,
     fst (smart_cache_query q key ttl kw w) = Raise e ->
     log (snd (smart_cache_query q key ttl kw w))
     = log (snd (load_from_disk_cache key w)) /\
     files (snd (smart_cache_query q key ttl kw w))
     = files (snd (load_from_disk_cache key w))) /\
  (exists r, fst (load_from_disk_cache key w) = Ok r) /\
  (exists b, fst (save_to_disk_cache key data ttl w) = Ok b) /\
  fst (clear_expired_cache w) = Ok PyNone.
Proof.
  assert (Hn : calls (snd (load_from_disk_cache key w)) = calls w).
  { apply load_frame_snd. }
  split; [| split; [| split; [| split]]].
  - intros e.
    destruct (smart_cache_query_cases q key ttl kw w)
      as [[df [L E]] | [L [[el [e' [Q E]]] | [[el [r [Q E]]]
                                              | [el [df [Q [_ E]]]]]]]];
      rewrite E; rewrite L; try rewrite Hn in Q; simpl.
    + split; [discriminate | intros [H _]; discriminate H].
    + destruct (is_Exception e') eqn:X; simpl.
      * split; [discriminate |].
        intros [_ [X' [el' Q']]]. rewrite Q in Q'.
        assert (e' = e) by congruence. subst e'. congruence.
      * split.
        -- intros H. assert (e' = e) by congruence. subst e'.
           split; [reflexivity |]. split; [exact X |].
           exists el. exact Q.
        -- intros [_ [_ [el' Q']]]. rewrite Q in Q'. congruence.
    + split; [discriminate |].
      intros [_ [_ [el' Q']]]. rewrite Q in Q'. discriminate Q'.
    + split; [discriminate |].
      intros [_ [_ [el' Q']]]. rewrite Q in Q'. discriminate Q'.
  - intros e.
    destruct (smart_cache_query_cases q key ttl kw w)
      as [[df [L E]] | [L [[el [e' [Q E]]] | [[el [r [Q E]]]
                                              | [el [df [Q [_ E]]]]]]]];
      rewrite E; simpl; try discriminate.
    destruct (is_Exception e'); simpl; [discriminate |].
    intros _. split; reflexivity.
  - destruct (load_frame key w) as [r [w' [E _]]].
    exists r. rewrite E. reflexivity.
  - destruct (save_never_raises key data ttl w) as [b E].
    exists b. rewrite E. reflexivity.
  - rewrite clear_expired_cache_returns. reflexivity.
Qed.

(** The query function stops the script, as [st.stop()] does: the fetch
    raises that on, and nothing is logged. *)
Lemma only_interruptions_escape_witness :
  smart_cache_query script_stopped "k" None [] empty_world
  = (Raise (Interruption "StopException"),
     {| files := []; clock := 250000; log := []; calls := 1 |}) /\
  fst (smart_cache_query always_raises "k" None [] empty_world) = Ok None.
Proof.
  destruct (only_interruptions_escape script_stopped "k" None None []
              empty_world) as [H _].
  destruct (H (Interruption "StopException")) as [_ H'].
  split; [| reflexivity].
  assert (E : fst (smart_cache_query script_stopped "k" None [] empty_world)
              = Raise (Interruption "StopException")).
  { apply H'. split; [reflexivity |]. split; [reflexivity |].
    exists 250000. reflexivity. }
  reflexivity.
Defined.

(** ** What a hit means *)

(** X7. A fetch invokes the query function at most once. When it
    returns without invoking it, the result is the data of an entry stored
    under the key that has not expired at the time of the fetch and whose
    ttl is in the range of [timedelta], and the directory is as it was: an
    entry past its ttl is never served. *)
Theorem smart_cache_query_serves_only_fresh
    (q : query_function) (key : string) (ttl : option Z) (kw : kwargs)
    (w : world) :
  (calls (snd (smart_cache_query q key ttl kw w)) = calls w \/
   calls (snd (smart_cache_query q key ttl kw w)) = S (calls w)) /\
  (calls (snd (smart_cache_query q key ttl kw w)) = calls w ->
   exists cd df,
     stored_at key w = Some (Regular (Pickled cd)) /\
     expired_at (clock w) cd = false /\
     ttl_overflows cd = false /\
     cd_data cd = Some df /\
     smart_cache_query q key ttl kw w
     = (Ok (Some df), add_log (load_info key) w)).
Proof.
  destruct (fst (load_from_disk_cache key w)) as [[df |] | e] eqn:Hl.
  - (* a hit *)
    assert (Hhit : exists cd,
               stored_at key w = Some (Regular (Pickled cd)) /\
               expired_at (clock w) cd = false /\
               ttl_overflows cd = false /\
               cd_data cd = Some df /\
               load_from_disk_cache key w
               = (Ok (Some df), add_log (load_info key) w)).
    { destruct (stored_at key w) as [[[| cd] |] |] eqn:E.
      - rewrite (load_corrupt _ _ E) in Hl. discriminate Hl.
      - destruct (ttl_overflows cd) eqn:O.
        { rewrite (load_overflow _ _ _ E O) in Hl. discriminate Hl. }
        destruct (expired_at (clock w) cd) eqn:X.
        + rewrite (load_expired _ _ _ E X) in Hl. discriminate Hl.
        + rewrite (load_fresh _ _ _ E X O) in Hl. simpl in Hl.
          exists cd. split; [reflexivity |]. split; [exact X |].
          split; [exact O |]. split; [congruence |].
          rewrite (load_fresh _ _ _ E X O). congruence.
      - rewrite (load_directory _ _ E) in Hl. discriminate Hl.
      - rewrite (load_absent _ _ E) in Hl. discriminate Hl. }
    destruct Hhit as [cd [Hst [X [O [Hd El]]]]].
    rewrite (smart_cache_query_hit q key ttl kw w _ df El). simpl.
    split; [left; reflexivity |].
    intros _. exists cd, df. repeat split; assumption.
  - (* a miss *)
    rewrite (smart_cache_query_miss_invokes q key ttl kw w Hl).
    split; [right; reflexivity |].
    intros H. exfalso. exact (n_Sn _ (eq_sym H)).
  - destruct (load_frame key w) as [r [w' [E _]]].
    rewrite E in Hl. discriminate Hl.
Qed.

(** A fetch on a valid entry: the query function is not invoked. *)
Lemma smart_cache_query_serves_only_fresh_witness :
  calls (snd (smart_cache_query always_raises "k" None [] key_is_valid))
  = calls key_is_valid /\
  fst (smart_cache_query always_raises "k" None [] key_is_valid)
  = Ok (Some one_row).
Proof.
  destruct (smart_cache_query_serves_only_fresh always_raises "k" None []
              key_is_valid) as [_ H].
  destruct (H eq_refl) as [cd [df [Hst [_ [_ [Hd E]]]]]].
  split; [reflexivity |]. rewrite E. simpl.
  assert (Hcd : Some (Regular (Pickled cd)) = Some (entry 0 3600)).
  { rewrite <- Hst. reflexivity. }
  injection Hcd as Hcd. subst cd. simpl in Hd. congruence.
Defined.

(** ** Sweeps, again *)

(** A loop over names that are regular files, none corrupt or expired,
    changes nothing. *)
Lemma clear_loop_nothing (ns : list string) :
  forall (acc : nat) (fs : list (string * node)) (w : world),
    (forall n, In n ns ->
       (exists c, lookup n fs = Some (Regular c)) /\
       doomed (clock w) fs n = false) ->
    for_each ns clear_expired_entry acc (set_files fs w)
    = (Ok acc, set_files fs w).
Proof.
  induction ns as [| n ns IH]; intros acc fs w H; simpl; [reflexivity |].
  destruct (H n (or_introl eq_refl)) as [[c Hc] D].
  unfold bind. rewrite (clear_entry_kept n acc fs w c Hc D).
  apply IH. intros m Hm. apply H. right. exact Hm.
Qed.

(** The directory a completed sweep leaves has nothing more to sweep at the
    same time. *)
Lemma swept_directory_is_clean (w : world) (fs' : list (string * node)) :
  (forall name, endswith name ".pkl" = true ->
                lookup name (files w) <> Some Directory) ->
  (forall name,
     lookup name fs'
     = if swept (clock w) (files w) name then None
       else lookup name (files w)) ->
  forall n,
    In n (filter (fun f => endswith f ".pkl") (map fst fs')) ->
    (exists c, lookup n fs' = Some (Regular c)) /\
    doomed (clock w) fs' n = false.
Proof.
  intros Hregular Hfs n Hn. apply filter_In in Hn. destruct Hn as [Hin P].
  apply lookup_in_names in Hin.
  pose proof (Hfs n) as E. unfold swept in E. rewrite P in E. simpl in E.
  destruct (doomed (clock w) (files w) n) eqn:D; [congruence |].
  unfold doomed in *. rewrite E.
  destruct (lookup n (files w)) as [[c |] |] eqn:L.
  - split; [exists c; reflexivity | exact D].
  - destruct (Hregular n P L).
  - congruence.
Qed.

(** X8. A sweep run again at the same time finds nothing to do: on a
    cache directory whose cache files are regular files, the second sweep
    leaves the directory, the log and everything else exactly as the first
    left them. *)
Theorem clear_expired_cache_idempotent (w : world) :
  NoDup (map fst (files w)) ->
  (forall name, endswith name ".pkl" = true ->
                lookup name (files w) <> Some Directory) ->
  clear_expired_cache (snd (clear_expired_cache w))
  = (Ok PyNone, snd (clear_expired_cache w)).
Proof.
  intros ND Hregular.
  destruct (clear_expired_pass_completes w ND Hregular) as [fs' [E Hfs]].
  rewrite (clear_expired_cache_of_pass w _ _ E).
  set (w1 := if (0 <? cleared (clock w) (files w))%nat
             then add_log (cleared_info (cleared (clock w) (files w)))
                    (set_files fs' w)
             else set_files fs' w).
  assert (Hfiles : files w1 = fs').
  { unfold w1. destruct (0 <? _)%nat; reflexivity. }
  assert (Hclock : clock w1 = clock w).
  { unfold w1. destruct (0 <? _)%nat; reflexivity. }
  simpl snd. fold w1.
  assert (E1 : clear_expired_pass w1 = (Ok 0%nat, w1)).
  { rewrite clear_expired_pass_loop, Hfiles.
    rewrite clear_loop_nothing.
    - rewrite <- Hfiles, world_eta. reflexivity.
    - rewrite Hclock. apply swept_directory_is_clean; assumption. }
  rewrite (clear_expired_cache_of_pass w1 _ _ E1). reflexivity.
Qed.

Lemma clear_expired_cache_idempotent_witness :
  clear_expired_cache (snd (clear_expired_cache ten_entries))
  = (Ok PyNone,
     {| files := six_valid; clock := 7200000000;
        log := [INFO "Cleared 4 expired cache files"]; calls := 0 |}).
Proof.
  assert (Hregular : forall name, endswith name ".pkl" = true ->
                       lookup name (files ten_entries) <> Some Directory).
  { intros name _. simpl.
    repeat match goal with
           | |- context [String.eqb name ?s] => destruct (String.eqb name s)
           end; discriminate. }
  rewrite (clear_expired_cache_idempotent ten_entries names_distinct_ten
             Hregular).
  reflexivity.
Defined.

(** X9. An entry without a timestamp never expires: at every time a get
    returns its data and keeps the file, whatever its ttl, and a sweep that
    completes keeps it too. *)
Theorem undated_entry_never_expires
    (key : string) (cd : cache_data) (t : Z) (w : world) :
  stored_at key w = Some (Regular (Pickled cd)) ->
  cd_timestamp cd = None ->
  load_from_disk_cache key (set_clock t w)
  = (Ok (cd_data cd), add_log (load_info key) (set_clock t w)) /\
  (NoDup (map fst (files w)) ->
   (forall name, endswith name ".pkl" = true ->
                 lookup name (files w) <> Some Directory) ->
   stored_at key (snd (clear_expired_cache (set_clock t w)))
   = Some (Regular (Pickled cd))).
Proof.
  intros Hst Hts.
  assert (X : forall now, expired_at now cd = false).
  { intros now. unfold expired_at. rewrite Hts. reflexivity. }
  assert (O : ttl_overflows cd = false).
  { unfold ttl_overflows. rewrite Hts. reflexivity. }
  split.
  - apply load_fresh; [exact Hst | apply X | exact O].
  - intros ND Hregular.
    destruct (clear_expired_pass_completes (set_clock t w) ND Hregular)
      as [fs' [E Hfs]].
    rewrite (clear_expired_cache_of_pass _ _ _ E).
    assert (Hkept : lookup (_get_cache_file_path key) fs'
                    = Some (Regular (Pickled cd))).
    { rewrite Hfs. unfold swept, doomed. simpl.
      unfold stored_at in Hst. rewrite Hst, X, O, andb_false_r.
      reflexivity. }
    unfold stored_at. destruct (0 <? _)%nat; exact Hkept.
Qed.

(** An entry without timestamp and with a ttl of one second, a year
    later. *)
Lemma undated_entry_never_expires_witness :
  fst (load_from_disk_cache "u" (set_clock 31536000000000 with_undated_entry))
  = Ok (Some one_row) /\
  files (snd (clear_expired_cache
                (set_clock 31536000000000 with_undated_entry)))
  = [("u.pkl", Regular (Pickled undated_entry))].
Proof.
  assert (Hst : stored_at "u" with_undated_entry
                = Some (Regular (Pickled undated_entry))) by reflexivity.
  destruct (undated_entry_never_expires "u" undated_entry 31536000000000
              with_undated_entry Hst eq_refl) as [Hload _].
  split; [rewrite Hload; reflexivity | reflexivity].
Defined.

(** X10. Put, then sweep. On a cache directory whose cache files are
    regular files, a sweep at time [t] after a put made at time [now] with a
    ttl in the range of [timedelta] removes the entry when [t - now]
    exceeds ttl times 1000000 microseconds, and keeps it as it was written
    otherwise; an entry put with a ttl outside that range is removed by
    the sweep at any time. *)
Theorem save_then_sweep
    (key : string) (data : option DataFrame) (ttl : option Z) (t : Z)
    (w : world) :
  NoDup (map fst (files w)) ->
  (forall name, endswith name ".pkl" = true ->
                lookup name (files w) <> Some Directory) ->
  let w1 := set_clock t (snd (save_to_disk_cache key data ttl w)) in
  (-86399999913600 <= ttl_or_default ttl <= 86399999999999 ->
   (t - clock w > ttl_or_default ttl * 1000000 ->
    stored_at key (snd (clear_expired_cache w1)) = None) /\
   (t - clock w <= ttl_or_default ttl * 1000000 ->
    stored_at key (snd (clear_expired_cache w1))
    = Some (Regular (Pickled (fresh_entry (clock w) data ttl))))) /\
  (ttl_or_default ttl < -86399999913600
   \/ 86399999999999 < ttl_or_default ttl ->
   stored_at key (snd (clear_expired_cache w1)) = None).
Proof.
  intros ND Hregular w1.
  assert (Hdir : stored_at key w <> Some Directory).
  { apply Hregular. apply cache_file_path_is_pkl. }
  assert (Hst : stored_at key w1
                = Some (Regular (Pickled (fresh_entry (clock w) data ttl)))).
  { exact (stored_after_save key data ttl w Hdir). }
  assert (ND1 : NoDup (map fst (files w1))).
  { unfold w1. rewrite (save_written key w data ttl Hdir). simpl.
    apply write_entry_nodup. exact ND. }
  assert (Hregular1 : forall name, endswith name ".pkl" = true ->
                        lookup name (files w1) <> Some Directory).
  { intros name P.
    destruct (String.eqb name (_get_cache_file_path key)) eqn:E.
    - apply String.eqb_eq in E. subst name.
      unfold stored_at in Hst. rewrite Hst. discriminate.
    - apply String.eqb_neq in E. unfold w1. simpl.
      rewrite save_frame_names by exact E. apply Hregular. exact P. }
  destruct (clear_expired_pass_completes w1 ND1 Hregular1) as [fs' [E Hfs]].
  rewrite (clear_expired_cache_of_pass _ _ _ E).
  assert (Hlookup : lookup (_get_cache_file_path key) fs'
                    = if expired_at t (fresh_entry (clock w) data ttl)
                         || ttl_overflows (fresh_entry (clock w) data ttl)
                      then None
                      else Some (Regular (Pickled
                             (fresh_entry (clock w) data ttl)))).
  { rewrite Hfs. unfold swept, doomed. rewrite cache_file_path_is_pkl.
    unfold stored_at in Hst. rewrite Hst. reflexivity. }
  split.
  - intros R.
    destruct (fresh_entry_in_range (clock w) t data ttl R)
      as [O [Hexp Hfresh]].
    rewrite O, orb_false_r in Hlookup.
    split; intros Ht.
    + apply Hexp in Ht. rewrite Ht in Hlookup.
      unfold stored_at. destruct (0 <? _)%nat; exact Hlookup.
    + apply Hfresh in Ht. rewrite Ht in Hlookup.
      unfold stored_at. destruct (0 <? _)%nat; exact Hlookup.
  - intros Hout.
    rewrite (fresh_entry_out_of_range (clock w) data ttl Hout), orb_true_r
      in Hlookup.
    unfold stored_at. destruct (0 <? _)%nat; exact Hlookup.
Qed.

(** A put with a ttl of two seconds, swept after three seconds. *)
Lemma save_then_sweep_witness :
  files (snd (clear_expired_cache
                (set_clock 3000000
                   (snd (save_to_disk_cache "k" (Some one_row) (Some 2)
                           empty_world))))) = [] /\
  stored_at "k"
    (snd (clear_expired_cache
            (set_clock 3000000
               (snd (save_to_disk_cache "k" (Some one_row) (Some 2)
                       empty_world))))) = None.
Proof.
  assert (ND : NoDup (map fst (files empty_world))) by constructor.
  assert (Hregular : forall name, endswith name ".pkl" = true ->
                       lookup name (files empty_world) <> Some Directory).
  { intros name _. discriminate. }
  destruct (save_then_sweep "k" (Some one_row) (Some 2) 3000000 empty_world
              ND Hregular) as [Hin _].
  destruct Hin as [Hgone _]; [vm_compute; split; discriminate |].
  split; [reflexivity |]. apply Hgone. vm_compute. reflexivity.
Defined.

(** * The rest of the cache manager *)

(** ** Start-up *)

Lemma initialize_cache_unfold (w : world) :
  initialize_cache w
  = (Ok tt, add_log initialized_info (snd (clear_expired_cache w))).
Proof.
  unfold initialize_cache, bind, logger_info, ret.
  rewrite clear_expired_cache_returns. reflexivity.
Qed.

(** X11. After [initialize_cache] on a cache directory whose cache files
    are regular files, a get of any key at that time either finds no file
    and changes nothing, or finds a readable entry within its ttl and
    returns its data: it meets no corrupt file and has nothing to evict. *)
Theorem initialize_cache_then_load (key : string) (w : world) :
  NoDup (map fst (files w)) ->
  (forall name, endswith name ".pkl" = true ->
                lookup name (files w) <> Some Directory) ->
  let w1 := snd (initialize_cache w) in
  fst (initialize_cache w) = Ok tt /\
  ((stored_at key w1 = None /\
    load_from_disk_cache key w1 = (Ok None, w1)) \/
   (exists cd,
      stored_at key w1 = Some (Regular (Pickled cd)) /\
      stored_at key w = Some (Regular (Pickled cd)) /\
      load_from_disk_cache key w1
      = (Ok (cd_data cd), add_log (load_info key) w1))).
Proof.
  intros ND Hregular w1. unfold w1. rewrite initialize_cache_unfold.
  simpl fst. simpl snd. split; [reflexivity |].
  destruct (clear_expired_pass_completes w ND Hregular) as [fs' [E Hfs]].
  rewrite (clear_expired_cache_of_pass w _ _ E). simpl snd.
  set (w2 := add_log initialized_info
               (if (0 <? cleared (clock w) (files w))%nat
                then add_log (cleared_info (cleared (clock w) (files w)))
                       (set_files fs' w)
                else set_files fs' w)).
  assert (Hfiles : files w2 = fs').
  { unfold w2. destruct (0 <? _)%nat; reflexivity. }
  assert (Hclock : clock w2 = clock w).
  { unfold w2. destruct (0 <? _)%nat; reflexivity. }
  assert (Hst : stored_at key w2
                = if swept (clock w) (files w) (_get_cache_file_path key)
                  then None else stored_at key w).
  { unfold stored_at. rewrite Hfiles. apply Hfs. }
  unfold swept, doomed in Hst. rewrite cache_file_path_is_pkl in Hst.
  simpl in Hst. fold (stored_at key w) in Hst.
  destruct (stored_at key w) as [[[| cd] |] |] eqn:L.
  - left. split; [exact Hst | apply load_absent; exact Hst].
  - destruct (expired_at (clock w) cd || ttl_overflows cd) eqn:D.
    + left. split; [exact Hst | apply load_absent; exact Hst].
    + apply orb_false_iff in D. destruct D as [X O].
      right. exists cd. split; [exact Hst |]. split; [reflexivity |].
      apply load_fresh; [exact Hst | rewrite Hclock; exact X | exact O].
  - exfalso. apply (Hregular (_get_cache_file_path key)).
    + apply cache_file_path_is_pkl.
    + exact L.
  - left. split; [exact Hst | apply load_absent; exact Hst].
Qed.

Lemma initialize_cache_then_load_witness :
  let w1 := snd (initialize_cache ten_entries) in
  stored_at "e1" w1 = None /\
  fst (load_from_disk_cache "e1" w1) = Ok None /\
  fst (load_from_disk_cache "v1" w1) = Ok (Some one_row).
Proof.
  intros w1.
  assert (Hregular : forall name, endswith name ".pkl" = true ->
                       lookup name (files ten_entries) <> Some Directory).
  { intros name _. simpl.
    repeat match goal with
           | |- context [String.eqb name ?s] => destruct (String.eqb name s)
           end; discriminate. }
  destruct (initialize_cache_then_load "e1" ten_entries names_distinct_ten
              Hregular) as [_ [[Hst Hl] | [cd [Hst _]]]].
  - split; [exact Hst |]. split; [subst w1; rewrite Hl |]; reflexivity.
  - exfalso. subst w1. vm_compute in Hst. discriminate Hst.
Defined.

(** X12. [initialize_cache] reports success whatever the sweep did: when
    a sub-directory among the cache files has cut the sweep short, the log
    gets the error of the sweep and, right after it, the record that the
    cache system was initialized successfully. *)
Theorem initialize_cache_reports_success (w : world) :
  NoDup (map fst (files w)) ->
  (exists name, endswith name ".pkl" = true /\
                lookup name (files w) = Some Directory) ->
  exists (d : string) (fs' : list (string * node)),
    lookup d (files w) = Some Directory /\
    initialize_cache w
    = (Ok tt,
       add_log initialized_info
         (add_log (sweep_error (IsADirectoryError d)) (set_files fs' w))).
Proof.
  intros ND Hdir.
  destruct (clear_expired_cache_aborts w ND Hdir) as [d [fs' [Hd E]]].
  exists d, fs'. split; [exact Hd |].
  rewrite initialize_cache_unfold, E. reflexivity.
Qed.

Lemma initialize_cache_reports_success_witness :
  log (snd (initialize_cache with_directory))
  = [sweep_error (IsADirectoryError "a.pkl"); initialized_info] /\
  stored_at "b" (snd (initialize_cache with_directory)) = Some (entry 0 3600).
Proof.
  assert (ND : NoDup (map fst (files with_directory))).
  { simpl. repeat (apply NoDup_cons; [simpl; intuition discriminate |]).
    apply NoDup_nil. }
  assert (Hdir : exists name, endswith name ".pkl" = true /\
                   lookup name (files with_directory) = Some Directory).
  { exists "a.pkl". split; reflexivity. }
  destruct (initialize_cache_reports_success with_directory ND Hdir)
    as [d [fs' [_ E]]].
  split; reflexivity.
Defined.

(** ** Statistics *)

(** The test of [get_cache_stats], by its outcomes. *)
Lemma within_ttl_cases (cd : cache_data) (w : world) :
  within_ttl cd w
  = if ttl_overflows cd then (Raise (OverflowError (ttl_of cd)), w)
    else (Ok (valid_at (clock w) cd), w).
Proof.
  unfold within_ttl, ttl_overflows, valid_at, timedelta_seconds, bind,
    datetime_now, ret, raise.
  destruct (cd_timestamp cd) as [ts |]; [| reflexivity].
  destruct (timedelta_in_range (ttl_of cd)); reflexivity.
Qed.

Lemma valid_at_in_range (now : Z) (cd : cache_data) :
  valid_at now cd = true -> ttl_overflows cd = false.
Proof.
  unfold valid_at, ttl_overflows.
  destruct (cd_timestamp cd) as [ts |]; [| reflexivity].
  destruct (timedelta_in_range (ttl_of cd)); [reflexivity | discriminate].
Qed.

Lemma stats_entry_step (name : string) (acc : nat) (w : world) :
  cache_stats_entry name acc w
  = (Ok (if counted_valid (clock w) (files w) name then S acc else acc), w).
Proof.
  unfold cache_stats_entry, counted_valid, try_except, bind, pickle_load.
  destruct (lookup name (files w)) as [[[| cd] |] |]; simpl; try reflexivity.
  rewrite within_ttl_cases.
  destruct (ttl_overflows cd) eqn:O; simpl.
  - destruct (valid_at (clock w) cd) eqn:V; [| reflexivity].
    apply valid_at_in_range in V. congruence.
  - destruct (valid_at (clock w) cd); reflexivity.
Qed.

Lemma stats_valid_loop (ns : list string) :
  forall (acc : nat) (w : world),
    for_each ns cache_stats_entry acc w
    = (Ok (acc + List.length
                  (filter (counted_valid (clock w) (files w)) ns))%nat, w).
Proof.
  induction ns as [| n ns IH]; intros acc w; simpl.
  - rewrite Nat.add_0_r. reflexivity.
  - unfold bind. rewrite stats_entry_step, IH.
    destruct (counted_valid (clock w) (files w) n); simpl;
      f_equal; f_equal; lia.
Qed.

Lemma stats_size_loop (size_of : string -> Z) (ns : list string) :
  forall (acc : Z) (w : world),
    (forall n, In n ns -> lookup n (files w) <> None) ->
    for_each ns
      (fun f acc => size <- os_path_getsize size_of f ;; ret (acc + size))
      acc w
    = (Ok (acc + sum_sizes size_of ns), w).
Proof.
  induction ns as [| n ns IH]; intros acc w H; simpl.
  - rewrite Z.add_0_r. reflexivity.
  - unfold bind at 1. unfold bind at 1. unfold os_path_getsize at 1.
    destruct (lookup n (files w)) eqn:E;
      [| destruct (H n (or_introl eq_refl) E)].
    unfold ret at 1. rewrite IH.
    + f_equal. f_equal. lia.
    + intros m Hm. apply H. right. exact Hm.
Qed.

Lemma cache_files_present (w : world) (n : string) :
  In n (cache_files_of w) -> lookup n (files w) <> None.
Proof.
  intros Hn. apply filter_In in Hn. apply lookup_in_names. apply Hn.
Qed.

Lemma get_cache_stats_closed_form (size_of : string -> Z) (w : world) :
  get_cache_stats size_of w
  = (Ok (Some
       {| total_files := List.length (cache_files_of w);
          valid_files :=
            List.length (filter (counted_valid (clock w) (files w))
                           (cache_files_of w));
          total_size := sum_sizes size_of (cache_files_of w) |}),
     w).
Proof.
  unfold get_cache_stats, try_except.
  unfold bind at 1. unfold os_listdir at 1. fold (cache_files_of w).
  unfold bind at 1.
  rewrite (stats_size_loop size_of (cache_files_of w) 0 w
             (cache_files_present w)).
  unfold bind at 1. rewrite stats_valid_loop. reflexivity.
Qed.



(** A valid entry beside one whose ttl [timedelta] refuses, and beside a
    sub-directory: two files, one valid. *)
Example get_cache_stats_far_ttl :
  fst (get_cache_stats one_kib with_far_ttl)
  = Ok (Some {| total_files := 2; valid_files := 1; total_size := 2048 |}) /\
  fst (get_cache_stats one_kib with_directory)
  = Ok (Some {| total_files := 2; valid_files := 0; total_size := 2048 |}).
Proof. split; reflexivity. Qed.

Lemma valid_at_dated (now : Z) (cd : cache_data) :
  cd_timestamp cd <> None ->
  ttl_overflows cd = false ->
  valid_at now cd = negb (expired_at now cd).
Proof.
  unfold valid_at, expired_at, ttl_overflows.
  destruct (cd_timestamp cd) as [ts |];
    [intros _ | intros H; destruct (H eq_refl)].
  destruct (timedelta_in_range (ttl_of cd)); [intros _ | discriminate].
  simpl. rewrite Z.gtb_ltb, Z.leb_antisym. reflexivity.
Qed.

Lemma filter_all {A : Type} (f : A -> bool) (l : list A) :
  (forall x, In x l -> f x = true) -> filter f l = l.
Proof.
  induction l as [| x l IH]; intros H; simpl; [reflexivity |].
  rewrite (H x (or_introl eq_refl)), IH; [reflexivity |].
  intros y Hy. apply H. right. exact Hy.
Qed.

(** X14. Sweep, then statistics. After a sweep at the same time, on a
    cache directory whose cache files are regular files and whose entries
    all carry a timestamp, every file counts as valid:
    [valid_files = total_files], the number of cache files the sweep
    left. *)
Theorem sweep_then_stats (size_of : string -> Z) (w : world) :
  NoDup (map fst (files w)) ->
  (forall name, endswith name ".pkl" = true ->
                lookup name (files w) <> Some Directory) ->
  (forall name cd, lookup name (files w) = Some (Regular (Pickled cd)) ->
                   cd_timestamp cd <> None) ->
  let w1 := snd (clear_expired_cache w) in
  fst (get_cache_stats size_of w1)
  = Ok (Some {| total_files := List.length (cache_files_of w1);
                valid_files := List.length (cache_files_of w1);
                total_size := sum_sizes size_of (cache_files_of w1) |}).
Proof.
  intros ND Hregular Hdated w1.
  destruct (clear_expired_pass_completes w ND Hregular) as [fs' [E Hfs]].
  assert (Hw1 : files w1 = fs' /\ clock w1 = clock w).
  { unfold w1. rewrite (clear_expired_cache_of_pass w _ _ E).
    destruct (0 <? _)%nat; split; reflexivity. }
  destruct Hw1 as [Hfiles Hclock].
  rewrite get_cache_stats_closed_form. simpl.
  rewrite filter_all; [reflexivity |].
  intros n Hn. unfold cache_files_of in Hn. rewrite Hfiles in Hn.
  destruct (swept_directory_is_clean w fs' Hregular Hfs n Hn) as [[c Hc] D].
  unfold counted_valid. rewrite Hfiles, Hclock, Hc.
  unfold doomed in D. rewrite Hc in D.
  destruct c as [| cd]; [discriminate D |].
  apply orb_false_iff in D. destruct D as [X O].
  rewrite valid_at_dated, X; [reflexivity | | exact O].
  apply (Hdated n). pose proof (Hfs n) as F. rewrite Hc in F.
  destruct (swept (clock w) (files w) n); [discriminate F |].
  symmetry. exact F.
Qed.

(** Four expired entries and six valid ones, swept: six files, six
    valid. *)
Lemma sweep_then_stats_witness :
  fst (get_cache_stats one_kib (snd (clear_expired_cache ten_entries)))
  = Ok (Some {| total_files := 6; valid_files := 6; total_size := 6144 |}).
Proof.
  assert (Hregular : forall name, endswith name ".pkl" = true ->
                       lookup name (files ten_entries) <> Some Directory).
  { intros name _. simpl.
    repeat match goal with
           | |- context [String.eqb name ?s] => destruct (String.eqb name s)
           end; discriminate. }
  assert (Hdated : forall name cd,
             lookup name (files ten_entries) = Some (Regular (Pickled cd)) ->
             cd_timestamp cd <> None).
  { intros name cd. simpl.
    repeat match goal with
           | |- context [String.eqb name ?s] => destruct (String.eqb name s)
           end;
      intros H; try discriminate H; injection H as H; subst cd; discriminate. }
  rewrite (sweep_then_stats one_kib ten_entries names_distinct_ten Hregular
             Hdated).
  reflexivity.
Defined.

(** ** Clearing everything *)

Lemma remove_loop_completes (ns : list string) :
  forall (fs : list (string * node)) (w : world),
    NoDup ns ->
    (forall n, In n ns -> exists c, lookup n fs = Some (Regular c)) ->
    exists fs' : list (string * node),
      remove_cache_files ns (set_files fs w) = (Ok tt, set_files fs' w) /\
      (forall name, In name ns -> lookup name fs' = None) /\
      (forall name, ~ In name ns -> lookup name fs' = lookup name fs).
Proof.
  unfold remove_cache_files.
  induction ns as [| n ns IH]; intros fs w ND H.
  - exists fs. split; [reflexivity |]. split; [intros name [] | reflexivity].
  - inversion ND as [| ? ? Hnotin ND']; subst.
    destruct (H n (or_introl eq_refl)) as [c Hc].
    destruct (IH (remove_entry n fs) w ND') as [fs' [E [Hgone Hkept]]].
    { intros m Hm. destruct (H m (or_intror Hm)) as [c' Hc'].
      exists c'. rewrite lookup_remove_other; [exact Hc' |].
      intros Eq. subst m. contradiction. }
    exists fs'. split; [| split].
    + simpl. unfold bind at 1. unfold os_remove at 1. simpl. rewrite Hc.
      exact E.
    + intros name [Hn | Hn].
      * subst name. rewrite Hkept by exact Hnotin. apply lookup_remove_same.
      * apply Hgone. exact Hn.
    + intros name Hn. rewrite Hkept.
      * apply lookup_remove_other. intros Eq. apply Hn. left. exact Eq.
      * intros Hin. apply Hn. right. exact Hin.
Qed.

Lemma remove_step_directory (d : string) (ns : list string)
    (fs : list (string * node)) (w : world) :
  lookup d fs = Some Directory ->
  remove_cache_files (d :: ns) (set_files fs w)
  = (Raise (IsADirectoryError d), set_files fs w).
Proof.
  intros H. unfold remove_cache_files. simpl.
  unfold bind, os_remove. simpl. rewrite H. reflexivity.
Qed.

Lemma clear_all_cache_unfold (a : app) :
  clear_all_cache a
  = match remove_cache_files (cache_files_of (disk a)) (disk a) with
    | (Ok _, w) =>
        (Ok PyNone,
         {| disk := add_log all_cleared_info w;
            st_cache_data := []; st_cache_resource := [] |})
    | (Raise e, w) =>
        if is_Exception e
        then (Ok PyNone,
              {| disk := add_log (clear_all_error e) w;
                 st_cache_data := []; st_cache_resource := [] |})
        else (Raise e,
              {| disk := w; st_cache_data := []; st_cache_resource := [] |})
    end.
Proof.
  unfold clear_all_cache, app_try_except, app_bind, st_cache_data_clear,
    st_cache_resource_clear, on_disk, os_listdir, cache_files_of. simpl.
  destruct (remove_cache_files _ (disk a)) as [[[] | e] w];
    [reflexivity |].
  destruct (is_Exception e); reflexivity.
Qed.

(** X15. [clear_all_cache] on a cache directory whose cache files are
    regular files empties both caches of Streamlit, removes every [.pkl]
    file and nothing else, and logs that all cache is cleared; the next
    fetch of any key is then a miss that invokes the query function. *)
Theorem clear_all_cache_clears (a : app) :
  NoDup (map fst (files (disk a))) ->
  (forall name, endswith name ".pkl" = true ->
                lookup name (files (disk a)) <> Some Directory) ->
  let a' := snd (clear_all_cache a) in
  fst (clear_all_cache a) = Ok PyNone /\
  st_cache_data a' = [] /\
  st_cache_resource a' = [] /\
  (forall name,
     lookup name (files (disk a'))
     = if endswith name ".pkl" then None
       else lookup name (files (disk a))) /\
  log (disk a') = (log (disk a) ++ [all_cleared_info])%list /\
  forall (q : query_function) (key : string) (ttl : option Z) (kw : kwargs),
    calls (snd (smart_cache_query q key ttl kw (disk a')))
    = S (calls (disk a)).
Proof.
  intros ND Hregular a'.
  destruct (cache_files_facts (disk a) ND) as [ND' Hpresent].
  fold (cache_files_of (disk a)) in ND', Hpresent.
  destruct (remove_loop_completes (cache_files_of (disk a)) (files (disk a))
              (disk a) ND') as [fs' [E [Hgone Hkept]]].
  { intros n Hn. pose proof (Hpresent n Hn) as Hp.
    apply filter_In in Hn. destruct Hn as [_ P].
    destruct (lookup n (files (disk a))) as [[c |] |] eqn:L.
    - exists c. reflexivity.
    - destruct (Hregular n P L).
    - destruct (Hp eq_refl). }
  rewrite world_eta in E.
  assert (Ha' : a' = {| disk := add_log all_cleared_info
                                  (set_files fs' (disk a));
                        st_cache_data := []; st_cache_resource := [] |}).
  { unfold a'. rewrite clear_all_cache_unfold, E. reflexivity. }
  assert (Hlookup : forall name,
             lookup name (files (disk a'))
             = if endswith name ".pkl" then None
               else lookup name (files (disk a))).
  { intros name. rewrite Ha'. simpl.
    destruct (endswith name ".pkl") eqn:P.
    - destruct (lookup name (files (disk a))) eqn:L.
      + apply Hgone. apply filter_In. split; [| exact P].
        apply lookup_in_names. congruence.
      + rewrite Hkept; [exact L |].
        intros Hin. apply (Hpresent name Hin). exact L.
    - apply Hkept. intros Hin. apply filter_In in Hin.
      destruct Hin as [_ Hin]. congruence. }
  split; [rewrite clear_all_cache_unfold, E; reflexivity |].
  split; [rewrite Ha'; reflexivity |].
  split; [rewrite Ha'; reflexivity |].
  split; [exact Hlookup |].
  split; [rewrite Ha'; reflexivity |].
  intros q key ttl kw.
  rewrite smart_cache_query_miss_invokes.
  - rewrite Ha'. reflexivity.
  - rewrite load_absent; [reflexivity |].
    unfold stored_at. rewrite Hlookup, cache_file_path_is_pkl. reflexivity.
Qed.

Lemma names_distinct_note : NoDup (map fst (files with_note)).
Proof.
  simpl. repeat (apply NoDup_cons; [simpl; intuition discriminate |]).
  apply NoDup_nil.
Qed.

(** A valid entry, a note and a corrupt file: the note stays. *)
Lemma clear_all_cache_clears_witness :
  snd (clear_all_cache (running with_note))
  = {| disk := {| files := [("README.txt", Regular Corrupt)];
                  clock := 7200000000;
                  log := [all_cleared_info];
                  calls := 0 |};
       st_cache_data := [];
       st_cache_resource := [] |} /\
  calls (snd (smart_cache_query returns_one_row "v1" None []
                (disk (snd (clear_all_cache (running with_note)))))) = 1%nat.
Proof.
  assert (Hregular : forall name, endswith name ".pkl" = true ->
                       lookup name (files (disk (running with_note)))
                       <> Some Directory).
  { intros name _. simpl.
    repeat match goal with
           | |- context [String.eqb name ?s] => destruct (String.eqb name s)
           end; discriminate. }
  destruct (clear_all_cache_clears (running with_note) names_distinct_note
              Hregular) as [_ [_ [_ [_ [_ Hmiss]]]]].
  split; [reflexivity |]. exact (Hmiss returns_one_row "v1" None []).
Defined.

(** X16. [clear_all_cache] stops at the first sub-directory among the
    cache files: the caches of Streamlit are emptied and the cache files
    listed before it are removed, but every entry listed after it stays and
    the log has the error instead of the record that all cache is cleared.
    An entry that stays is still served. *)
Theorem clear_all_cache_stops_at_directory (a : app)
    (before after : list (string * node)) (d : string) :
  files (disk a) = (before ++ (d, Directory) :: after)%list ->
  NoDup (map fst (files (disk a))) ->
  endswith d ".pkl" = true ->
  (forall name, endswith name ".pkl" = true -> In name (map fst before) ->
                lookup name (files (disk a)) <> Some Directory) ->
  let a' := snd (clear_all_cache a) in
  fst (clear_all_cache a) = Ok PyNone /\
  st_cache_data a' = [] /\
  st_cache_resource a' = [] /\
  (forall name, In name (map fst before) -> endswith name ".pkl" = true ->
                lookup name (files (disk a')) = None) /\
  (forall name, ~ In name (map fst before) ->
                lookup name (files (disk a'))
                = lookup name (files (disk a))) /\
  log (disk a')
  = (log (disk a) ++ [clear_all_error (IsADirectoryError d)])%list /\
  clock (disk a') = clock (disk a).
Proof.
  intros Hfiles ND P Hregular a'.
  assert (Hnames : map fst (files (disk a))
                   = (map fst before ++ d :: map fst after)%list).
  { rewrite Hfiles, map_app. reflexivity. }
  assert (Hd_notin : ~ In d (map fst before)).
  { rewrite Hnames in ND. apply NoDup_remove_2 in ND.
    intros Hin. apply ND. apply in_or_app. left. exact Hin. }
  assert (Hd : lookup d (files (disk a)) = Some Directory).
  { rewrite Hfiles, (lookup_app_notin _ _ _ Hd_notin). simpl.
    rewrite String.eqb_refl. reflexivity. }
  set (ns1 := filter (fun f => endswith f ".pkl") (map fst before)).
  assert (ND1 : NoDup ns1).
  { apply NoDup_filter. rewrite Hnames in ND.
    apply NoDup_app_remove_r in ND. exact ND. }
  assert (Hin1 : forall n, In n ns1 ->
                   In n (map fst before) /\ endswith n ".pkl" = true).
  { intros n Hn. apply filter_In in Hn. exact Hn. }
  destruct (remove_loop_completes ns1 (files (disk a)) (disk a) ND1)
    as [fs' [E [Hgone Hkept]]].
  { intros n Hn. destruct (Hin1 n Hn) as [Hb Hp].
    destruct (lookup n (files (disk a))) as [[c |] |] eqn:L.
    - exists c. reflexivity.
    - destruct (Hregular n Hp Hb L).
    - exfalso. assert (Hn' : In n (map fst (files (disk a)))).
      { rewrite Hnames. apply in_or_app. left. exact Hb. }
      apply lookup_in_names in Hn'. contradiction. }
  rewrite world_eta in E.
  assert (Eall : remove_cache_files (cache_files_of (disk a)) (disk a)
                 = (Raise (IsADirectoryError d), set_files fs' (disk a))).
  { unfold cache_files_of. rewrite Hnames, filter_app. simpl. rewrite P.
    fold ns1. unfold remove_cache_files. rewrite for_each_app.
    fold (remove_cache_files ns1). rewrite E.
    apply remove_step_directory.
    rewrite Hkept; [exact Hd |].
    intros Hin. apply Hd_notin. apply Hin1. exact Hin. }
  assert (Ha' : a' = {| disk := add_log (clear_all_error (IsADirectoryError d))
                                  (set_files fs' (disk a));
                        st_cache_data := []; st_cache_resource := [] |}).
  { unfold a'. rewrite clear_all_cache_unfold, Eall. reflexivity. }
  split; [rewrite clear_all_cache_unfold, Eall; reflexivity |].
  rewrite Ha'. simpl.
  split; [reflexivity |]. split; [reflexivity |].
  split; [| split; [| split; reflexivity]].
  - intros name Hb Hp. apply Hgone. apply filter_In. split; assumption.
  - intros name Hnotin. apply Hkept. intros Hin. apply Hnotin.
    apply Hin1. exact Hin.
Qed.

(** The sub-directory [a.pkl] is listed first: the entry [b.pkl] stays, and
    a fetch of the key ["b"] at the time of its write is a hit. *)
Lemma clear_all_cache_stops_at_directory_witness :
  let a' := snd (clear_all_cache (running with_directory)) in
  stored_at "b" (disk a') = Some (entry 0 3600) /\
  st_cache_data a' = [] /\
  log (disk a') = [clear_all_error (IsADirectoryError "a.pkl")] /\
  smart_cache_query always_raises "b" None [] (set_clock 0 (disk a'))
  = (Ok (Some one_row), add_log (load_info "b") (set_clock 0 (disk a'))).
Proof.
  intros a'.
  assert (ND : NoDup (map fst (files (disk (running with_directory))))).
  { simpl. repeat (apply NoDup_cons; [simpl; intuition discriminate |]).
    apply NoDup_nil. }
  destruct (clear_all_cache_stops_at_directory (running with_directory)
              [] [("b.pkl", entry 0 3600)] "a.pkl" eq_refl ND eq_refl)
    as [_ [Hdata [_ [_ [Hkept [Hlog _]]]]]].
  { intros name _ []. }
  split; [| split; [exact Hdata | split; [exact Hlog | reflexivity]]].
  unfold stored_at. subst a'. rewrite Hkept; [reflexivity | intros []].
Defined.

(** * The query templates and the data loader *)

(** ** Dictionaries *)

Lemma dict_get_In (V : Type) (k : string) (v : V) (d : list (string * V)) :
  dict_get k d = Some v -> In (k, v) d.
Proof.
  induction d as [|[k' x] d IH]; simpl; [discriminate|].
  destruct (String.eqb k' k) eqn:E.
  - apply String.eqb_eq in E. intros H. left. congruence.
  - intros H. right. exact (IH H).
Qed.

Lemma dict_get_set (V : Type) (d : list (string * V)) (k : string) (v : V)
    (n : string) :
  dict_get n (dict_set d k v)
  = if String.eqb k n then Some v else dict_get n d.
Proof.
  induction d as [|[k' x] d IH]; simpl; [reflexivity|].
  destruct (String.eqb k' k) eqn:E; simpl.
  - apply String.eqb_eq in E. subst k'.
    destruct (String.eqb k n); reflexivity.
  - rewrite IH. destruct (String.eqb k' n) eqn:E2; [|reflexivity].
    apply String.eqb_eq in E2. subst k'.
    rewrite String.eqb_sym, E. reflexivity.
Qed.

Lemma dict_get_app (V : Type) (a b : list (string * V)) (n : string) :
  dict_get n (a ++ b)%list
  = match dict_get n a with Some v => Some v | None => dict_get n b end.
Proof.
  induction a as [|[k x] a IH]; simpl; [reflexivity|].
  destruct (String.eqb k n); [reflexivity | exact IH].
Qed.

Lemma dict_get_update (V : Type) (other d : list (string * V)) (n : string) :
  dict_get n (dict_update d other)
  = match dict_get n (rev other) with
    | Some v => Some v
    | None => dict_get n d
    end.
Proof.
  unfold dict_update. revert d.
  induction other as [|[k x] other IH]; intros d; simpl; [reflexivity|].
  rewrite IH, dict_get_app, dict_get_set. simpl.
  destruct (dict_get n (rev other)); [reflexivity|].
  destruct (String.eqb k n); reflexivity.
Qed.

Lemma tables_lookup (p n : string) :
  name_among n table_names = true ->
  exists s, forall kw,
    dict_get n (dict_update kw (TABLES p)) = Some (PyStr s).
Proof.
  intros H.
  assert (E : exists s, dict_get n (rev (TABLES p)) = Some (PyStr s)).
  { unfold name_among, table_names in H. simpl in H.
    repeat (apply orb_true_iff in H;
            destruct H as [H|H];
            [apply String.eqb_eq in H; subst n; eexists; reflexivity|]).
    discriminate H. }
  destruct E as [v E]. exists v. intros kw.
  rewrite dict_get_update, E. reflexivity.
Qed.

Lemma dates_lookup (p : string) (kw : kwargs) :
  dict_get "start_date" (dict_update kw (TABLES p)) = dict_get "start_date" kw
  /\ dict_get "end_date" (dict_update kw (TABLES p)) = dict_get "end_date" kw.
Proof.
  split; rewrite dict_get_update; reflexivity.
Qed.

(** ** Rendering *)

Lemma string_append_assoc (a b c : string) : (a ++ b) ++ c = a ++ b ++ c.
Proof.
  induction a as [|x a IH]; simpl; [reflexivity | rewrite IH; reflexivity].
Qed.

Lemma render_lit (py : python) (kw : kwargs) (c : ascii)
    (rest : list segment) :
  render py kw (Lit c :: rest)
  = match render py kw rest with
    | Returns s => Returns (String c s)
    | other => other
    end.
Proof. reflexivity. Qed.

Lemma render_field (py : python) (kw : kwargs) (name : string)
    (rest : list segment) :
  keyword_name name = true ->
  render py kw (Field name :: rest)
  = match dict_get name kw with
    | None => Throws (KeyError name)
    | Some v =>
        and_then (py_str py v) (fun text =>
          match render py kw rest with
          | Returns s => Returns (text ++ s)
          | other => other
          end)
    end.
Proof. intros H. simpl. rewrite H. reflexivity. Qed.

Lemma render_app (py : python) (kw : kwargs) (a b : list segment) :
  render py kw (a ++ b)%list
  = match render py kw a with
    | Returns s =>
        match render py kw b with
        | Returns t => Returns (s ++ t)
        | other => other
        end
    | other => other
    end.
Proof.
  induction a as [|seg a IH]; simpl.
  - destruct (render py kw b); reflexivity.
  - destruct seg as [c|name|msg|]; try reflexivity.
    + rewrite IH. destruct (render py kw a); [|reflexivity..].
      destruct (render py kw b); reflexivity.
    + destruct (keyword_name name); [|reflexivity].
      destruct (dict_get name kw) as [v|]; [|reflexivity].
      destruct (py_str py v) as [text| |]; simpl; [|reflexivity..].
      rewrite IH. destruct (render py kw a) as [s| |]; [|reflexivity..].
      destruct (render py kw b) as [t| |]; [|reflexivity..].
      rewrite string_append_assoc. reflexivity.
Qed.

Lemma closed_render (p : string) (segs : list segment) :
  fields_among table_names segs = true ->
  exists s, forall py kw,
    render py (dict_update kw (TABLES p)) segs = Returns s.
Proof.
  induction segs as [|seg segs IH]; intros H.
  - exists "". reflexivity.
  - destruct seg as [c|name|msg|]; simpl in H; try discriminate H.
    + destruct (IH H) as [s Hs]. exists (String c s).
      intros py kw. rewrite render_lit, Hs. reflexivity.
    + apply andb_true_iff in H. destruct H as [H H3].
      apply andb_true_iff in H. destruct H as [H1 H2].
      destruct (IH H3) as [s Hs].
      destruct (tables_lookup p name H2) as [v Hv].
      exists (v ++ s). intros py kw.
      rewrite (render_field _ _ _ _ H1), Hv, Hs. reflexivity.
Qed.

Lemma split_at_field_spec (name : string) (segs a b : list segment) :
  split_at_field name segs = Some (a, b) ->
  segs = (a ++ Field name :: b)%list.
Proof.
  revert a b. induction segs as [|seg segs IH]; intros a b; simpl.
  - discriminate.
  - assert (L : match split_at_field name segs with
                | Some (a0, b0) => Some (seg :: a0, b0)
                | None => None
                end = Some (a, b) ->
                seg :: segs = (a ++ Field name :: b)%list).
    { destruct (split_at_field name segs) as [[a0 b0]|]; [|discriminate].
      intros H. assert (a = seg :: a0) by congruence.
      assert (b = b0) by congruence. subst a b.
      simpl. f_equal. apply IH. reflexivity. }
    destruct seg as [c|n|msg|]; try exact L.
    destruct (String.eqb n name) eqn:E; [|exact L].
    apply String.eqb_eq in E. subst n. intros H.
    assert (a = []) by congruence. assert (b = segs) by congruence.
    subst a b. reflexivity.
Qed.

Lemma dated_render (p : string) (segs : list segment) :
  dated_shape segs = true ->
  exists pre mid post, forall py kw,
    render py (dict_update kw (TABLES p)) segs
    = dated_text py pre mid post kw.
Proof.
  unfold dated_shape. intros H.
  destruct (split_at_field "start_date" segs) as [[a rest]|] eqn:S1;
    [|discriminate].
  destruct (split_at_field "end_date" rest) as [[b c]|] eqn:S2;
    [|discriminate].
  apply andb_true_iff in H. destruct H as [H Hc].
  apply andb_true_iff in H. destruct H as [Ha Hb].
  apply split_at_field_spec in S1. apply split_at_field_spec in S2.
  subst rest. subst segs.
  destruct (closed_render p a Ha) as [pre Hpre].
  destruct (closed_render p b Hb) as [mid Hmid].
  destruct (closed_render p c Hc) as [post Hpost].
  exists pre, mid, post. intros py kw. unfold dated_text.
  destruct (dates_lookup p kw) as [D1 D2].
  specialize (Hpre py kw). specialize (Hmid py kw). specialize (Hpost py kw).
  set (K := dict_update kw (TABLES p)) in *.
  rewrite render_app, Hpre.
  rewrite (render_field _ _ "start_date" _ eq_refl).
  rewrite D1. destruct (dict_get "start_date" kw) as [v1|]; [|reflexivity].
  destruct (py_str py v1) as [s1| |]; simpl; [|reflexivity..].
  rewrite render_app, Hmid.
  rewrite (render_field _ _ "end_date" _ eq_refl).
  rewrite D2. destruct (dict_get "end_date" kw) as [v2|]; [|reflexivity].
  destruct (py_str py v2) as [s2| |]; simpl; [|reflexivity..].
  rewrite Hpost. reflexivity.
Qed.

(** ** The templates of [query_maps] *)

Lemma query_template_in (c n t : string) :
  query_template c n = Some t -> In (c, n, t) all_queries.
Proof.
  unfold query_template, all_queries. intros H.
  destruct (dict_get c query_maps) as [queries|] eqn:E; [|discriminate].
  apply dict_get_In in E. apply dict_get_In in H.
  apply in_flat_map. exists (c, queries). split; [exact E|].
  apply in_map_iff. exists (n, t). split; [reflexivity | exact H].
Qed.

Lemma all_queries_shaped (c n t : string) :
  query_template c n = Some t -> query_shape (c, n, t) = true.
Proof.
  intros H. apply query_template_in in H.
  assert (A : forallb query_shape all_queries = true)
    by (vm_compute; reflexivity).
  rewrite forallb_forall in A. exact (A _ H).
Qed.

(** The call, by what the signature says of the keyword arguments. *)
Lemma get_query_refused (py : python) (p c n : string) (kw : kwargs)
    (e : py_error) :
  signature_error kw = Some e -> get_query py p c n kw = Throws e.
Proof. intros H. unfold get_query. rewrite H. reflexivity. Qed.

Lemma get_query_known (py : python) (p c n t : string) (kw : kwargs) :
  signature_error kw = None ->
  query_template c n = Some t ->
  get_query py p c n kw
  = render py (dict_update kw (TABLES p)) (parse_template InText t).
Proof.
  unfold query_template, get_query. intros S H. rewrite S.
  destruct (dict_get c query_maps) as [queries|]; [|discriminate].
  rewrite H. reflexivity.
Qed.

Lemma get_query_unknown (py : python) (p c n : string) (kw1 kw2 : kwargs) :
  query_template c n = None ->
  signature_error kw1 = signature_error kw2 ->
  get_query py p c n kw1 = get_query py p c n kw2.
Proof.
  unfold query_template, get_query. intros H S. rewrite S.
  destruct (signature_error kw2); [reflexivity |].
  destruct (dict_get c query_maps) as [queries|]; [|reflexivity].
  rewrite H. reflexivity.
Qed.

Lemma executive_query (p n t : string) :
  query_template "executive" n = Some t ->
  exists q, forall py kw,
    get_query py p "executive" n kw
    = match signature_error kw with
      | Some e => Throws e
      | None => Returns q
      end.
Proof.
  intros H. pose proof (all_queries_shaped _ _ _ H) as S.
  unfold query_shape in S. simpl in S.
  destruct (closed_render p _ S) as [q Hq].
  exists q. intros py kw.
  destruct (signature_error kw) as [e |] eqn:G.
  - apply get_query_refused. exact G.
  - rewrite (get_query_known _ _ _ _ _ _ G H). apply Hq.
Qed.

Lemma dated_query (p c n t : string) :
  query_template c n = Some t -> c <> "executive" ->
  exists pre mid post, forall py kw,
    get_query py p c n kw
    = match signature_error kw with
      | Some e => Throws e
      | None => dated_text py pre mid post kw
      end.
Proof.
  intros H Hc. pose proof (all_queries_shaped _ _ _ H) as S.
  unfold query_shape in S. simpl fst in S. simpl snd in S.
  destruct (String.eqb c "executive") eqn:E.
  - apply String.eqb_eq in E. contradiction.
  - destruct (dated_render p _ S) as (pre & mid & post & R).
    exists pre, mid, post. intros py kw.
    destruct (signature_error kw) as [e |] eqn:G.
    + apply get_query_refused. exact G.
    + rewrite (get_query_known _ _ _ _ _ _ G H). apply R.
Qed.

(** The signature refuses exactly the keyword arguments that have the
    name of a parameter. *)
Lemma signature_error_spec (kw : kwargs) :
  (signature_error kw = None <->
   dict_get "category" kw = None /\ dict_get "query_name" kw = None) /\
  (forall e, signature_error kw = Some e ->
     e = TypeError "get_query() got multiple values for argument 'category'"
     \/ e = TypeError
              "get_query() got multiple values for argument 'query_name'").
Proof.
  unfold signature_error. induction kw as [| [k v] kw IH]; simpl.
  - split; [split; auto | discriminate].
  - destruct (String.eqb k "category") eqn:C; simpl.
    + apply String.eqb_eq in C. subst k. split.
      * split; [discriminate | intros [H _]; discriminate H].
      * intros e H. left. inversion H. reflexivity.
    + destruct (String.eqb k "query_name") eqn:Q; simpl.
      * apply String.eqb_eq in Q. subst k. split.
        -- split; [discriminate | intros [_ H]; discriminate H].
        -- intros e H. right. inversion H. reflexivity.
      * exact IH.
Qed.

(** ** [get_query] *)

(** X17. [get_query] reads the keyword arguments of an accepted call
    through [start_date] and [end_date] only: two calls that agree on these
    two names, and that the signature both accepts or refuses for the same
    name, give the same query or raise the same exception. A table name
    passed by the caller is written over by [TABLES], and an argument with
    another name is ignored unless it has the name of a parameter,
    [category] or [query_name]: then the call raises [TypeError]. *)
Theorem get_query_reads_only_dates (py : python) (p c n : string)
    (kw1 kw2 : kwargs) :
  dict_get "start_date" kw1 = dict_get "start_date" kw2 ->
  dict_get "end_date" kw1 = dict_get "end_date" kw2 ->
  signature_error kw1 = signature_error kw2 ->
  get_query py p c n kw1 = get_query py p c n kw2 /\
  (signature_error kw1 = None <->
   dict_get "category" kw1 = None /\ dict_get "query_name" kw1 = None) /\
  (forall e, signature_error kw1 = Some e ->
     get_query py p c n kw1 = Throws e /\
     (e = TypeError "get_query() got multiple values for argument 'category'"
      \/ e = TypeError
               "get_query() got multiple values for argument 'query_name'")).
Proof.
  intros H1 H2 S.
  split; [| split].
  - destruct (query_template c n) as [t|] eqn:T.
    + destruct (String.eqb c "executive") eqn:E.
      * apply String.eqb_eq in E. subst c.
        destruct (executive_query p n t T) as [q Hq].
        rewrite !Hq, S. reflexivity.
      * assert (Hc : c <> "executive").
        { intros ->. discriminate E. }
        destruct (dated_query p c n t T Hc) as (pre & mid & post & R).
        rewrite !R, S. unfold dated_text. rewrite H1, H2. reflexivity.
    + apply get_query_unknown; assumption.
  - apply signature_error_spec.
  - intros e G. split; [apply get_query_refused; exact G |].
    apply (proj2 (signature_error_spec kw1)). exact G.
Qed.

Lemma get_query_reads_only_dates_witness :
  dict_get "start_date" overriding_arguments
  = dict_get "start_date" (date_range "2018-01-01" "2018-02-01")
  /\ get_query sample_python "dsai-468212" "delivery" "delivery_metrics"
       overriding_arguments
     = get_query sample_python "dsai-468212" "delivery" "delivery_metrics"
         (date_range "2018-01-01" "2018-02-01").
Proof.
  split; [reflexivity|].
  apply (get_query_reads_only_dates sample_python "dsai-468212" "delivery"
           "delivery_metrics" overriding_arguments
           (date_range "2018-01-01" "2018-02-01"));
    reflexivity.
Defined.

(** A keyword argument named [category] is refused. *)
Example get_query_multiple_values :
  get_query sample_python "dsai-468212" "executive" "key_metrics"
    [("category", PyStr "delivery")]
  = Throws (TypeError
              "get_query() got multiple values for argument 'category'").
Proof. reflexivity. Qed.

(** X18. In every query outside the category [executive] the two dates
    are put into the text as they are: in a call that the signature
    accepts, the query is a fixed text, the text of the start date, a
    fixed text, the text of the end date and a fixed text, and the three
    fixed texts depend on the template and the project only. Nothing is
    quoted or escaped on the way. A date that has no text (an integer past
    the limit on its digits) raises the exception of its conversion, the
    start date before the end date. *)
Theorem get_query_splices_dates (p c n t : string) :
  query_template c n = Some t -> c <> "executive" ->
  exists pre mid post, forall py kw v1 v2,
    dict_get "start_date" kw = Some v1 ->
    dict_get "end_date" kw = Some v2 ->
    get_query py p c n kw
    = match signature_error kw with
      | Some e => Throws e
      | None =>
          and_then (py_str py v1) (fun start_date =>
          and_then (py_str py v2) (fun end_date =>
            Returns (pre ++ start_date ++ mid ++ end_date ++ post)))
      end.
Proof.
  intros T Hc.
  destruct (dated_query p c n t T Hc) as (pre & mid & post & R).
  exists pre, mid, post. intros py kw v1 v2 H1 H2.
  rewrite R. unfold dated_text. rewrite H1, H2. reflexivity.
Qed.

Lemma get_query_splices_dates_witness :
  exists pre mid post, forall py kw v1 v2,
    dict_get "start_date" kw = Some v1 ->
    dict_get "end_date" kw = Some v2 ->
    get_query py "dsai-468212" "payment" "installment_analysis" kw
    = match signature_error kw with
      | Some e => Throws e
      | None =>
          and_then (py_str py v1) (fun start_date =>
          and_then (py_str py v2) (fun end_date =>
            Returns (pre ++ start_date ++ mid ++ end_date ++ post)))
      end.
Proof.
  apply (get_query_splices_dates "dsai-468212" "payment"
           "installment_analysis" _ eq_refl).
  discriminate.
Defined.

(** X19. A call that the signature accepts, of a query outside the
    category [executive], without one of the dates: it raises [KeyError]
    for [start_date] if that one is missing, and otherwise, once the start
    date has been converted, for [end_date]. *)
Theorem get_query_missing_date (py : python) (p c n t : string)
    (kw : kwargs) :
  query_template c n = Some t -> c <> "executive" ->
  dict_get "start_date" kw = None \/ dict_get "end_date" kw = None ->
  get_query py p c n kw
  = match signature_error kw with
    | Some e => Throws e
    | None =>
        match dict_get "start_date" kw with
        | None => Throws (KeyError "start_date")
        | Some v1 =>
            and_then (py_str py v1) (fun _ => Throws (KeyError "end_date"))
        end
    end.
Proof.
  intros T Hc H.
  destruct (dated_query p c n t T Hc) as (pre & mid & post & R).
  rewrite R. unfold dated_text.
  destruct (signature_error kw); [reflexivity |].
  destruct (dict_get "start_date" kw) as [v1|]; [|reflexivity].
  destruct H as [H|H]; [discriminate H|]. rewrite H. reflexivity.
Qed.

Lemma get_query_missing_date_witness :
  get_query sample_python "dsai-468212" "product" "weight_impact"
    [("start_date", PyStr "2018-01-01")]
  = Throws (KeyError "end_date").
Proof.
  apply (get_query_missing_date sample_python "dsai-468212" "product"
           "weight_impact" _ [("start_date", PyStr "2018-01-01")] eq_refl).
  - discriminate.
  - right. reflexivity.
Defined.

(** X20. A query of the category [executive] is the same text whatever
    keyword arguments the caller passes, in every call that the signature
    accepts: it raises only when a keyword argument has the name of a
    parameter, [category] or [query_name], and then [TypeError]. *)
Theorem executive_queries_are_constant (p n t : string) :
  query_template "executive" n = Some t ->
  exists q, forall py kw,
    get_query py p "executive" n kw
    = match signature_error kw with
      | Some e => Throws e
      | None => Returns q
      end /\
    (signature_error kw = None <->
     dict_get "category" kw = None /\ dict_get "query_name" kw = None).
Proof.
  intros T. destruct (executive_query p n t T) as [q Hq].
  exists q. intros py kw. split; [apply Hq | apply signature_error_spec].
Qed.

Lemma executive_queries_are_constant_witness :
  exists q, forall py kw,
    get_query py "dsai-468212" "executive" "daily_trends" kw
    = match signature_error kw with
      | Some e => Throws e
      | None => Returns q
      end /\
    (signature_error kw = None <->
     dict_get "category" kw = None /\ dict_get "query_name" kw = None).
Proof.
  apply (executive_queries_are_constant "dsai-468212" "daily_trends" _
           eq_refl).
Defined.

(** ** [execute_query] and the loader methods *)

(** X21. One run of the body of [execute_query], which is a call that
    [st.cache_data] does not answer from its cache, in which the libraries
    raise nothing but [Exception]s, returns [None] exactly when it has
    logged an error, and it has logged that it executes the
    query exactly when there is a client and the library has accepted the
    job configuration. The page is shown an error exactly when the result
    is [None] and the loader has a client: a missing client is logged and
    not shown. *)
Theorem execute_query_none_iff_error (self : BigQueryDataLoader)
    (query : string) (use_polars : bool) :
  (fst (execute_query self query use_polars) = None
   <-> exists msg,
         In (LoggerError msg) (snd (execute_query self query use_polars)))
  /\ ((exists msg,
         In (StError msg) (snd (execute_query self query use_polars)))
      <-> fst (execute_query self query use_polars) = None
          /\ client self <> None)
  /\ (In executing (snd (execute_query self query use_polars))
      <-> client self <> None /\ configure_job self = None).
Proof.
  assert (D : forall (run : string -> answer) (df' : DataFrame),
    (fst (query_done df') = None <->
     exists msg, In (LoggerError msg) (snd (query_done df')))
    /\ ((exists msg, In (StError msg) (snd (query_done df')))
        <-> fst (query_done df') = None /\ Some run <> None)
    /\ (In executing (snd (query_done df'))
        <-> Some run <> None /\ @None string = None)).
  { intros run df'. unfold query_done, executing. simpl.
    split; [| split]; split.
    - discriminate.
    - intros [m [H|[H|[]]]]; discriminate H.
    - intros [m [H|[H|[]]]]; discriminate H.
    - intros [H _]. discriminate H.
    - intros _. split; [discriminate | reflexivity].
    - intros _. left. reflexivity. }
  assert (F : forall (run : string -> answer) (msg : string),
    (@None DataFrame = None <->
     exists m, In (LoggerError m) (executing :: failure_events msg))
    /\ ((exists m, In (StError m) (executing :: failure_events msg))
        <-> @None DataFrame = None /\ Some run <> None)
    /\ (In executing (executing :: failure_events msg)
        <-> Some run <> None /\ @None string = None)).
  { intros run msg. unfold failure_events, executing. simpl.
    split; [| split]; split.
    - intros _. exists ("Query execution failed: " ++ msg). auto.
    - reflexivity.
    - intros _. split; [reflexivity | discriminate].
    - intros _. exists ("Database query failed: " ++ msg). auto.
    - intros _. split; [discriminate | reflexivity].
    - intros _. left. reflexivity. }
  unfold execute_query.
  destruct (client self) as [run|].
  - destruct (configure_job self) as [msg|].
    + unfold failure_events, executing. simpl.
      split; [| split]; split.
      * intros _. exists ("Query execution failed: " ++ msg). auto.
      * reflexivity.
      * intros _. split; [reflexivity | discriminate].
      * intros _. exists ("Database query failed: " ++ msg). auto.
      * intros [H|[H|[]]]; discriminate H.
      * intros [_ H]. discriminate H.
    + destruct (run query) as [msg|df]; [apply F |].
      destruct use_polars; [| apply D].
      destruct (pandas_empty df).
      * unfold executing. simpl. split; [| split]; split.
        -- discriminate.
        -- intros [m [H|[]]]. discriminate H.
        -- intros [m [H|[]]]. discriminate H.
        -- intros [H _]. discriminate H.
        -- intros _. split; [discriminate | reflexivity].
        -- intros _. left. reflexivity.
      * destruct (from_pandas self df) as [msg|df']; [apply F | apply D].
  - unfold executing. simpl. split; [| split]; split.
    + intros _. exists "BigQuery client not initialized". auto.
    + reflexivity.
    + intros [m [H|[]]]. discriminate H.
    + intros [_ H]. contradiction H. reflexivity.
    + intros [H|[]]. discriminate H.
    + intros [H _]. contradiction H. reflexivity.
Qed.

(** A library that refuses the job configuration: every query fails
    before it is sent. *)
Example execute_query_refused_configuration :
  execute_query refused_configuration "SELECT 1" true
  = (None,
     [LoggerError "Query execution failed: Property timeout is unknown";
      StError "Database query failed: Property timeout is unknown"]) /\
  execute_query empty_answer_client "SELECT 1" true
  = (Some no_rows, [executing]) /\
  execute_query no_client "SELECT 1" true
  = (None, [LoggerError "BigQuery client not initialized"]).
Proof. repeat split; reflexivity. Qed.

